(** * Zigchain MultiSend: batch dispatch and recovery engine

    A shallow embedding of the TypeScript sources
    [src/batch-processor.ts], [src/retry-failed-batches.ts],
    [src/multisend.ts] and [src/index.ts], and the properties of the
    batcher, the dispatch engine and the outcome ledger proved on it. *)

From Stdlib Require Import String Ascii ZArith List Bool Lia.
From Stdlib Require Import DecimalString.
Import ListNotations.
Open Scope string_scope.
Open Scope list_scope.
Open Scope Z_scope.

Set Implicit Arguments.

(** ** JavaScript numbers

    The numbers the engine computes with (batch size, retry counts, loop
    indices, delays) come from [parseInt] and from integer arithmetic on
    its results: they are integers or [NaN].  Comparisons with [NaN] are
    false and arithmetic on [NaN] gives [NaN]. *)

Inductive number : Type :=
| NaN
| Int (z : Z).

Definition num_add (a b : number) : number :=
  match a, b with
  | Int x, Int y => Int (x + y)
  | _, _ => NaN
  end.

Definition num_lt (a b : number) : bool :=
  match a, b with
  | Int x, Int y => x <? y
  | _, _ => false
  end.

Definition num_le (a b : number) : bool :=
  match a, b with
  | Int x, Int y => x <=? y
  | _, _ => false
  end.

Definition isNaN (a : number) : bool :=
  match a with NaN => true | Int _ => false end.

(** [ToIntegerOrInfinity]: [NaN] becomes [0]. *)
Definition toInteger (a : number) : Z :=
  match a with NaN => 0 | Int z => z end.

(** ** Data model ([types.ts]) *)

Record Recipient : Type := mkRecipient {
  address : string;
  amount : string
}.

Record Coin : Type := mkCoin {
  denom : string;
  coin_amount : string
}.

Record Input : Type := mkInput {
  input_address : string;
  input_coins : list Coin
}.

Record Output : Type := mkOutput {
  output_address : string;
  output_coins : list Coin
}.

Record MultiSendTx : Type := mkMultiSendTx {
  inputs : list Input;
  outputs : list Output
}.

(** ** Strings of JavaScript *)

(** A string is falsy exactly when it is empty. *)
Definition truthy (s : string) : bool :=
  match s with EmptyString => false | String _ _ => true end.

(** [s.startsWith(p)] *)
Definition startsWith (p s : string) : bool := String.prefix p s.

(** [s.split(sep)] for a separator of one character. *)
Fixpoint jsSplit (sep : ascii) (s : string) : list string :=
  match s with
  | EmptyString => [EmptyString]
  | String c s' =>
      if Ascii.eqb c sep then EmptyString :: jsSplit sep s'
      else match jsSplit sep s' with
           | h :: t => String c h :: t
           | [] => [String c EmptyString]
           end
  end.

(** The decimal rendering of an integer ([`${n}`] for a BigInt or an
    integral number). *)
Definition toString (z : Z) : string := NilZero.string_of_int (Z.to_int z).

(** ** Outcomes of fallible code *)

(** A computation returns a value or throws an [Error]; an error is
    represented by its message. *)
Inductive Outcome (A : Type) : Type :=
| Ret (a : A)
| Throw (e : string).
Arguments Ret {A} a.
Arguments Throw {A} e.

(** ** The outcome ledger and the outside world *)

(** One line of [transaction-hashes.txt]. *)
Inductive LogLine : Type :=
| Header (generated : string)
| HashEntry (batchNumber : Z) (recipientCount : nat) (hash : string)
            (time : string) (retried : bool)
| ErrorEntry (batchNumber : Z) (recipientCount : nat) (errorMessage : string)
             (time : string).

(** One element of the array kept in [failed-batches.json]. *)
Record FailedBatch : Type := mkFailedBatch {
  batchNumber : Z;
  recipients : list Recipient;
  error : string;
  timestamp : string
}.

(** [failed-batches.json]: missing, present but unreadable or not
    parsable, or holding an array of failed batches. *)
Inductive StoreFile : Type :=
| Absent
| Unreadable
| Stored (records : list FailedBatch).

(** What the chain answers during one run of [executeMultiSend]. *)
Record ChainResponse : Type := mkChainResponse {
  r_connect : option string;     (* [createSigningClient] fails with this error *)
  r_balance : Outcome string;    (* [getBalance] *)
  r_broadcast : Outcome string   (* [signAndBroadcast]: the transaction hash *)
}.

(** Everything the engine takes from outside: two builtins of the
    language, the configuration, the wallet, the chain, the disk and the
    clock.  The chain and the disk are oracles indexed by the number of
    earlier requests. *)
Record Env : Type := mkEnv {
  js_BigInt : string -> Outcome Z;        (* [BigInt(s)], throws a SyntaxError *)
  js_parseInt : string -> number;         (* [parseInt(s, 10)] *)
  e_denom : string;                       (* [zigchainConfig.denom] *)
  e_mnemonic : option string;             (* [walletConfig.mnemonic] *)
  e_privateKey : option string;           (* [walletConfig.privateKey] *)
  e_address : Outcome string;             (* [walletService.getAddress()] *)
  e_startBalance : Outcome string;        (* the balance [main] prints *)
  e_csv : Outcome (list Recipient);       (* [getRecipientsFromCsv(csvFilePath)] *)
  e_chain : nat -> ChainResponse;         (* the k-th run of [executeMultiSend] *)
  e_writeError : nat -> option string;    (* the k-th write to disk fails *)
  e_now : nat -> string                   (* [new Date().toISOString()] *)
}.

(** What the outside observes, in order.  Of the console output only the
    warning of [saveFailedBatch] and the not-found error of [retryBatch]
    are kept. *)
Inductive Event : Type :=
| EvSleep (ms : number)
| EvExecute (batch : list Recipient)               (* [executeMultiSend] entered *)
| EvGetBalance
| EvBroadcast (sender : string) (tx : MultiSendTx) (* [signAndBroadcast] *)
| EvWriteLog (lines : list LogLine)                (* [writeFileSync] of the log *)
| EvAppendLog (line : LogLine)                     (* [appendFileSync] to the log *)
| EvWriteStore (records : list FailedBatch)        (* [writeFileSync] of the store *)
| EvWarn (msg : string)
| EvError (msg : string).

Record World : Type := mkWorld {
  hashesFile : list LogLine;      (* [transaction-hashes.txt] *)
  failedBatchesFile : StoreFile;  (* [failed-batches.json] *)
  submissions : nat;              (* runs of [executeMultiSend] so far *)
  fsWrites : nat;                 (* writes to disk so far *)
  trace : list Event
}.

Definition setHashesFile (l : list LogLine) (w : World) : World :=
  mkWorld l (failedBatchesFile w) (submissions w) (fsWrites w) (trace w).

Definition setFailedBatchesFile (f : StoreFile) (w : World) : World :=
  mkWorld (hashesFile w) f (submissions w) (fsWrites w) (trace w).

Definition observe (ev : Event) (w : World) : World :=
  mkWorld (hashesFile w) (failedBatchesFile w) (submissions w) (fsWrites w)
          (trace w ++ [ev]).

(** ** The monad of the engine: state, exceptions and fuel *)

Definition M (A : Type) : Type := World -> option (Outcome A * World).

Definition ret {A : Type} (a : A) : M A := fun w => Some (Ret a, w).

Definition throw {A : Type} (e : string) : M A := fun w => Some (Throw e, w).

Definition bind {A B : Type} (m : M A) (k : A -> M B) : M B :=
  fun w =>
    match m w with
    | None => None
    | Some (Ret a, w') => k a w'
    | Some (Throw e, w') => Some (Throw e, w')
    end.

Definition tryCatch {A : Type} (m : M A) (handler : string -> M A) : M A :=
  fun w =>
    match m w with
    | None => None
    | Some (Ret a, w') => Some (Ret a, w')
    | Some (Throw e, w') => handler e w'
    end.

Definition lift {A : Type} (o : Outcome A) : M A := fun w => Some (o, w).

Definition emit (ev : Event) : M unit := fun w => Some (Ret tt, observe ev w).

Definition when (c : bool) (m : M unit) : M unit := if c then m else ret tt.

Definition diverge {A : Type} : M A := fun _ => None.

Notation "x <- m ;; k" := (bind m (fun x => k))
  (at level 61, m at next level, right associativity).
Notation "m ;; k" := (bind m (fun _ => k))
  (at level 61, right associativity).

Section Effects.
Variable env : Env.

(** [setTimeout(resolve, ms)] awaited. *)
Definition sleep (ms : number) : M unit := emit (EvSleep ms).

(** [new Date().toISOString()]: the clock is read at the number of events
    observed so far. *)
Definition now : M string :=
  fun w => Some (Ret (e_now env (List.length (trace w))), w).

(** One write to disk: the event is observed, then the write fails with
    the disk's error or changes the file. *)
Definition fsWrite (ev : Event) (update : World -> World) : M unit :=
  fun w =>
    let w1 := mkWorld (hashesFile w) (failedBatchesFile w) (submissions w)
                      (S (fsWrites w)) (trace w ++ [ev]) in
    match e_writeError env (fsWrites w) with
    | Some e => Some (Throw e, w1)
    | None => Some (Ret tt, update w1)
    end.

(** [fs.appendFileSync(hashesFilePath, entry)] *)
Definition appendHashes (line : LogLine) : M unit :=
  fsWrite (EvAppendLog line) (fun w => setHashesFile (hashesFile w ++ [line]) w).

(** [fs.writeFileSync(failedBatchesPath, JSON.stringify(records))] *)
Definition writeStore (records : list FailedBatch) : M unit :=
  fsWrite (EvWriteStore records) (setFailedBatchesFile (Stored records)).
End Effects.

(** ** The Transaction Builder ([multisend.ts]) *)

Module MultiSendService.
Section WithEnv.
Variable env : Env.

(** [recipients.reduce((sum, r) => sum + BigInt(r.amount), BigInt(0))]:
    arbitrary-precision addition; the first amount that is not an
    integer literal throws. *)
Definition totalAmount (rs : list Recipient) : Outcome Z :=
  fold_left
    (fun sum r =>
       match sum with
       | Throw e => Throw e
       | Ret s =>
           match js_BigInt env (amount r) with
           | Throw e => Throw e
           | Ret v => Ret (s + v)
           end
       end)
    rs (Ret 0).

(** [createMultiSendTx] *)
Definition createMultiSendTx (rs : list Recipient) : M MultiSendTx :=
  senderAddress <- lift (e_address env) ;;
  total <- lift (totalAmount rs) ;;
  let input := mkInput senderAddress [mkCoin (e_denom env) (toString total)] in
  let outs :=
    map (fun r => mkOutput (address r) [mkCoin (e_denom env) (amount r)]) rs in
  ret (mkMultiSendTx [input] outs).

(** [sendMultiSendTx]: [client.signAndBroadcast(sender, [msg], fee)] with
    the fixed fee and gas limit. *)
Definition sendMultiSendTx (resp : ChainResponse) (sender : string)
    (tx : MultiSendTx) : M string :=
  emit (EvBroadcast sender tx) ;;
  lift (r_broadcast resp).

Definition insufficientBalance (required : Z) (available : string) : string :=
  String.append "Insufficient balance. Required: "
    (String.append (toString required)
       (String.append ", Available: " available)).

(** [executeMultiSend]; its [catch] logs the error and throws it again. *)
Definition executeMultiSend (rs : list Recipient) : M string :=
  fun w =>
    let resp := e_chain env (submissions w) in
    let w1 := mkWorld (hashesFile w) (failedBatchesFile w) (S (submissions w))
                      (fsWrites w) (trace w ++ [EvExecute rs]) in
    (match r_connect resp with
     | Some e => throw e
     | None =>
         senderAddress <- lift (e_address env) ;;
         emit EvGetBalance ;;
         balance <- lift (r_balance resp) ;;
         total <- lift (totalAmount rs) ;;
         available <- lift (js_BigInt env balance) ;;
         if available <? total then
           throw (insufficientBalance total balance)
         else
           multiSendTx <- createMultiSendTx rs ;;
           sendMultiSendTx resp senderAddress multiSendTx
     end) w1.
End WithEnv.
End MultiSendService.

(** ** The dispatch engine, initial run ([batch-processor.ts]) *)

Module BatchProcessor.

Record t : Type := new {
  batchSize : number;
  maxRetries : number;
  retryDelayMs : number
}.

(** [Array.prototype.slice(start, end)]: a negative index counts from the
    end of the array, both indices are clamped to the array. *)
Definition relativeIndex (len : Z) (k : number) : Z :=
  let r := toInteger k in
  if r <? 0 then Z.max (len + r) 0 else Z.min r len.

Definition slice {A : Type} (l : list A) (start end_ : number) : list A :=
  let len := Z.of_nat (List.length l) in
  let k := relativeIndex len start in
  let final := relativeIndex len end_ in
  firstn (Z.to_nat (Z.max (final - k) 0)) (skipn (Z.to_nat k) l).

(** [splitIntoBatches]: the loop
    [for (let i = 0; i < recipients.length; i += this.batchSize)
       batches.push(recipients.slice(i, i + this.batchSize))].
    It does not terminate for a batch size below one, so it is driven by
    fuel: [None] means the fuel ran out. *)
Fixpoint splitLoop (fuel : nat) (size : number) (rs : list Recipient)
    (i : number) (batches : list (list Recipient))
  : option (list (list Recipient)) :=
  match fuel with
  | O => None
  | S fuel' =>
      if num_lt i (Int (Z.of_nat (List.length rs))) then
        splitLoop fuel' size rs (num_add i size)
          (batches ++ [slice rs i (num_add i size)])
      else Some batches
  end.

Definition splitIntoBatches (fuel : nat) (self : t) (rs : list Recipient)
  : option (list (list Recipient)) :=
  splitLoop fuel (batchSize self) rs (Int 0) [].

(** A batch within the size bounds of the data model. *)
Definition wellSized (n : Z) (b : list Recipient) : Prop :=
  1 <= Z.of_nat (List.length b) <= n.

Section WithEnv.
Variable env : Env.

(** The constructor starts a fresh log with a header. *)
Definition construct (size retries delay : number) : M t :=
  generated <- now env ;;
  fsWrite env (EvWriteLog [Header generated])
    (setHashesFile [Header generated]) ;;
  ret (new size retries delay).

(** [saveTransactionHash] *)
Definition saveTransactionHash (number_ : Z) (hash : string)
    (recipientCount : nat) : M unit :=
  time <- now env ;;
  appendHashes env (HashEntry number_ recipientCount hash time false).

(** [saveFailedBatch]: the store is read when it exists; when reading or
    parsing it throws, a warning is printed and the list stays empty. *)
Definition saveFailedBatch (number_ : Z) (rs : list Recipient)
    (err : string) : M unit :=
  time <- now env ;;
  let failedBatch := mkFailedBatch number_ rs err time in
  failedBatches <-
    (fun w =>
       match failedBatchesFile w with
       | Absent => ret [] w
       | Stored records => ret records w
       | Unreadable =>
           (emit (EvWarn "Could not read failed batches file, creating new one") ;;
            ret []) w
       end) ;;
  writeStore env (failedBatches ++ [failedBatch]).

(** The retry loop of one batch,
    [while (retryCount <= this.maxRetries && !hash)].  It returns the
    hash, if any, and the last error.  A hash that is the empty string
    is falsy: the loop goes on with the same [retryCount]. *)
Fixpoint attempts (fuel : nat) (self : t) (batchRecipients : list Recipient)
    (retryCount : Z) (lastError : option string)
  : M (option string * option string) :=
  match fuel with
  | O => diverge
  | S fuel' =>
      if num_le (Int retryCount) (maxRetries self) then
        when (0 <? retryCount) (sleep (retryDelayMs self)) ;;
        r <- tryCatch
               (result <- MultiSendService.executeMultiSend env batchRecipients ;;
                ret (inl result))
               (fun err => ret (inr err)) ;;
        match r with
        | inl hash =>
            if truthy hash then ret (Some hash, lastError)
            else attempts fuel' self batchRecipients retryCount lastError
        | inr err =>
            attempts fuel' self batchRecipients (retryCount + 1) (Some err)
        end
      else ret (None, lastError)
  end.

(** The [catch] block of the loop body: an error line in the log, the
    failed batch in the store, a longer wait.  What it throws leaves
    [processBatches]. *)
Definition onError (total i : nat) (batchRecipients : list Recipient)
    (errorMessage : string) : M unit :=
  let number_ := Z.of_nat i + 1 in
  time <- now env ;;
  appendHashes env
    (ErrorEntry number_ (List.length batchRecipients) errorMessage time) ;;
  saveFailedBatch number_ batchRecipients errorMessage ;;
  when (Z.of_nat i <? Z.of_nat total - 1) (sleep (Int 10000)).

(** The body of [for (let i = 0; i < batches.length; i++)]: it takes the
    hashes collected so far and returns them, with the new hash when the
    batch settled.  The preview and the total printed to the console
    are left out. *)
Definition processBatch (fuel : nat) (self : t) (total i : nat)
    (batchRecipients : list Recipient) (hashes : list string)
  : M (list string) :=
  let number_ := Z.of_nat i + 1 in
  r <- attempts fuel self batchRecipients 0 None ;;
  match r with
  | (Some hash, _) =>
      (* [hashes.push(hash)] comes before the line is saved *)
      let hashes' := hashes ++ [hash] in
      tryCatch
        (saveTransactionHash number_ hash (List.length batchRecipients) ;;
         when (Z.of_nat i <? Z.of_nat total - 1) (sleep (Int 3000)) ;;
         ret hashes')
        (fun errorMessage =>
           onError total i batchRecipients errorMessage ;;
           ret hashes')
  | (None, lastError) =>
      (* [throw lastError || new Error('All retry attempts failed')] *)
      let errorMessage :=
        match lastError with
        | Some e => e
        | None => "All retry attempts failed"
        end in
      onError total i batchRecipients errorMessage ;;
      ret hashes
  end.

(** The loop [for (let i = 0; i < batches.length; i++)] from batch [i]
    on; [total] is [batches.length]. *)
Fixpoint batchLoop (fuel : nat) (self : t) (total i : nat)
    (batches : list (list Recipient)) (hashes : list string)
  : M (list string) :=
  match batches with
  | [] => ret hashes
  | batchRecipients :: rest =>
      hashes' <- processBatch fuel self total i batchRecipients hashes ;;
      batchLoop fuel self total (S i) rest hashes'
  end.

(** [processBatches] *)
Definition processBatches (fuel : nat) (self : t) (rs : list Recipient)
  : M (list string) :=
  match splitIntoBatches fuel self rs with
  | None => diverge
  | Some batches => batchLoop fuel self (List.length batches) 0 batches []
  end.
End WithEnv.
End BatchProcessor.

(** ** The dispatch engine, resume ([retry-failed-batches.ts]) *)

Module FailedBatchRetrier.
Section WithEnv.
Variable env : Env.

(** [saveTransactionHash]: the line is marked [(RETRY)]. *)
Definition saveTransactionHash (number_ : Z) (hash : string)
    (recipientCount : nat) : M unit :=
  time <- now env ;;
  appendHashes env (HashEntry number_ recipientCount hash time true).

(** [removeFromFailedBatches]: nothing without a store; what reading,
    parsing or writing throws is printed and dropped. *)
Definition removeFromFailedBatches (number_ : Z) : M unit :=
  fun w =>
    match failedBatchesFile w with
    | Absent => ret tt w
    | Unreadable => ret tt w
    | Stored failedBatches =>
        let updatedBatches :=
          filter (fun batch => negb (batchNumber batch =? number_)) failedBatches in
        tryCatch (writeStore env updatedBatches) (fun _ => ret tt) w
    end.

(** [getFailedBatches] *)
Definition getFailedBatches : M (list FailedBatch) :=
  fun w =>
    match failedBatchesFile w with
    | Absent => ret [] w
    | Unreadable => ret [] w
    | Stored failedBatches => ret failedBatches w
    end.

(** The [try] block of the loop of [retryBatch]: submit the recipients
    of the record, save the hash, remove the batch from the store. *)
Definition settle (number_ : Z) (batchToRetry : FailedBatch) : M bool :=
  hash <- MultiSendService.executeMultiSend env (recipients batchToRetry) ;;
  saveTransactionHash number_ hash (List.length (recipients batchToRetry)) ;;
  removeFromFailedBatches number_ ;;
  ret true.

(** The loop of [retryBatch],
    [while (retryCount < maxRetries && !success)]; its [catch] block
    counts the attempt and waits unless it was the last one. *)
Fixpoint retries (fuel : nat) (number_ : Z) (retryLimit : number)
    (batchToRetry : FailedBatch) (retryCount : Z) : M bool :=
  match fuel with
  | O => diverge
  | S fuel' =>
      if num_lt (Int retryCount) retryLimit then
        success <-
          tryCatch
            (settle number_ batchToRetry)
            (fun _ =>
               when (num_lt (Int (retryCount + 1)) retryLimit) (sleep (Int 10000)) ;;
               ret false) ;;
        if success then ret true
        else retries fuel' number_ retryLimit batchToRetry (retryCount + 1)
      else ret false
  end.

Definition notFound (number_ : Z) : string :=
  String.append "Batch #"
    (String.append (toString number_) " not found in failed batches").

(** [retryBatch] *)
Definition retryBatch (fuel : nat) (number_ : Z) (retryLimit : number)
  : M bool :=
  failedBatches <- getFailedBatches ;;
  match find (fun batch => batchNumber batch =? number_) failedBatches with
  | None => emit (EvError (notFound number_)) ;; ret false
  | Some batchToRetry => retries fuel number_ retryLimit batchToRetry 0
  end.

(** The loop of [retryAllBatches] over the batches read at the start;
    [j] is the position of [batch], [total] their number. *)
Fixpoint retryLoop (fuel : nat) (retryLimit : number) (total j : nat)
    (failedBatches : list FailedBatch) (successCount failedCount : Z)
  : M (Z * Z) :=
  match failedBatches with
  | [] => ret (successCount, failedCount)
  | batch :: rest =>
      result <- retryBatch fuel (batchNumber batch) retryLimit ;;
      when (negb (Nat.eqb j (total - 1))) (sleep (Int 5000)) ;;
      if (result : bool) then
        retryLoop fuel retryLimit total (S j) rest (successCount + 1) failedCount
      else
        retryLoop fuel retryLimit total (S j) rest successCount (failedCount + 1)
  end.

(** [retryAllBatches]: the numbers of batches that succeeded and failed. *)
Definition retryAllBatches (fuel : nat) (retryLimit : number) : M (Z * Z) :=
  failedBatches <- getFailedBatches ;;
  match failedBatches with
  | [] => ret (0, 0)
  | _ => retryLoop fuel retryLimit (List.length failedBatches) 0 failedBatches 0 0
  end.
End WithEnv.
End FailedBatchRetrier.

(** ** The command line ([index.ts]) *)

Module Index.

Record Args : Type := mkArgs {
  retry : bool;
  batchSize : number;
  maxRetries : number;
  retryDelay : number;
  specificBatch : option string
}.

(** [args.find(arg => arg.startsWith(flag))?.split('=')[1]] *)
Definition argValue (flag : string) (args : list string) : option string :=
  match find (startsWith flag) args with
  | None => None
  | Some arg => nth_error (jsSplit "=" arg) 1
  end.

(** [value || fallback] on a string that may be undefined. *)
Definition orElse (value : option string) (fallback : string) : string :=
  match value with
  | Some s => if truthy s then s else fallback
  | None => fallback
  end.

Section WithEnv.
Variable env : Env.

(** [parseArgs]: the numbers are what [parseInt] returns. *)
Definition parseArgs (args : list string) : Args :=
  mkArgs
    (existsb (String.eqb "--retry") args)
    (js_parseInt env (orElse (argValue "--batch-size=" args) "400"))
    (js_parseInt env (orElse (argValue "--max-retries=" args) "3"))
    (js_parseInt env (orElse (argValue "--retry-delay=" args) "5000"))
    (argValue "--retry-batch=" args).

(** [validateConfig] *)
Definition validateConfig : bool :=
  let set v := match v with Some s => truthy s | None => false end in
  set (e_mnemonic env) || set (e_privateKey env).

(** The resume branch of [main]; the result is the exit status. *)
Definition mainRetry (fuel : nat) (args : Args) : M Z :=
  match specificBatch args with
  | Some s =>
      if truthy s then
        let number_ := js_parseInt env s in
        if isNaN number_ then ret 1
        else
          success <- FailedBatchRetrier.retryBatch env fuel (toInteger number_)
                       (maxRetries args) ;;
          ret (if (success : bool) then 0 else 1)
      else
        counts <- FailedBatchRetrier.retryAllBatches env fuel (maxRetries args) ;;
        ret (if 0 <? snd counts then 1 else 0)
  | None =>
      counts <- FailedBatchRetrier.retryAllBatches env fuel (maxRetries args) ;;
      ret (if 0 <? snd counts then 1 else 0)
  end.

(** The initial run of [main]. *)
Definition mainRun (fuel : nat) (args : Args) : M Z :=
  if negb validateConfig then ret 1
  else
    senderAddress <- lift (e_address env) ;;
    emit EvGetBalance ;;
    balance <- lift (e_startBalance env) ;;
    rs <- lift (e_csv env) ;;
    match rs with
    | [] => ret 1
    | _ =>
        batchProcessor <- BatchProcessor.construct env (batchSize args)
                            (maxRetries args) (retryDelay args) ;;
        total <- lift (MultiSendService.totalAmount env rs) ;;
        transactionHashes <- BatchProcessor.processBatches env fuel
                               batchProcessor rs ;;
        ret 0
    end.

(** [process.argv.includes('--help') || process.argv.includes('-h')],
    the test of the block that follows the call of [main] at the top of
    the module. *)
Definition helpRequested (argv : list string) : bool :=
  existsb (String.eqb "--help") argv || existsb (String.eqb "-h") argv.

(** [executeMultiSend] up to its first [await]: the call is entered and
    counted, the chain has not been reached. *)
Definition enterMultiSend (rs : list Recipient) : M unit :=
  fun w =>
    ret tt (mkWorld (hashesFile w) (failedBatchesFile w) (S (submissions w))
              (fsWrites w) (trace w ++ [EvExecute rs])).

(** [retryBatch] up to its first [await]: the store is read; without a
    record of the number the error is printed, the function returns and
    it is its caller that waits; with one, the loop, if it has a turn,
    enters [executeMultiSend]. *)
Definition retryBatchStart (number_ : Z) (retryLimit : number) : M unit :=
  failedBatches <- FailedBatchRetrier.getFailedBatches ;;
  match find (fun batch => batchNumber batch =? number_) failedBatches with
  | None => emit (EvError (FailedBatchRetrier.notFound number_))
  | Some batchToRetry =>
      when (num_lt (Int 0) retryLimit)
        (enterMultiSend (recipients batchToRetry))
  end.

(** [retryAllBatches] up to its first [await], which is at the call of
    [retryBatch] for the first record. *)
Definition retryAllStart (retryLimit : number) : M unit :=
  failedBatches <- FailedBatchRetrier.getFailedBatches ;;
  match failedBatches with
  | [] => ret tt
  | batch :: _ => retryBatchStart (batchNumber batch) retryLimit
  end.

(** The process when help is requested.  [main] is called first and runs
    up to its first [await]; the block after the call then prints the
    usage and ends the process with status 0.  Only [process.exit(1)] on
    a resume number that is not a number comes before that; the initial
    run is still waiting for [validateConfig] and has done nothing. *)
Definition mainHelp (args : Args) : M Z :=
  if retry args then
    match specificBatch args with
    | Some s =>
        if truthy s then
          let number_ := js_parseInt env s in
          if isNaN number_ then ret 1
          else
            retryBatchStart (toInteger number_) (maxRetries args) ;;
            ret 0
        else
          retryAllStart (maxRetries args) ;;
          ret 0
    | None =>
        retryAllStart (maxRetries args) ;;
        ret 0
    end
  else ret 0.

(** The process, from the call of [main] at the top of the module to its
    exit status.  [argv] is [process.argv] without the paths of the
    interpreter and of the script.  Without a request for help [main]
    runs to its end, and whatever is thrown ends the process with
    status 1. *)
Definition main (fuel : nat) (argv : list string) : M Z :=
  let args := parseArgs argv in
  if helpRequested argv then mainHelp args
  else
    tryCatch
      (if retry args then mainRetry fuel args else mainRun fuel args)
      (fun _ => ret 1).
End WithEnv.
End Index.

(** ** Stub environments

    Environments for running the engine on concrete inputs: decimal
    versions of the two builtins, a wallet with a mnemonic, a chain given
    by its responses, a disk given by its errors. *)

Module Stub.

Definition isDigit (c : ascii) : bool :=
  let n := nat_of_ascii c in (48 <=? n)%nat && (n <=? 57)%nat.

Definition digitValue (c : ascii) : Z := Z.of_nat (nat_of_ascii c) - 48.

Fixpoint leadingDigits (s : string) (acc : option Z) : option Z :=
  match s with
  | EmptyString => acc
  | String c s' =>
      if isDigit c then
        leadingDigits s'
          (Some (10 * match acc with Some a => a | None => 0 end + digitValue c))
      else acc
  end.

Fixpoint allDigits (s : string) : bool :=
  match s with
  | EmptyString => true
  | String c s' => isDigit c && allDigits s'
  end.

(** [BigInt] on decimal literals without sign; the empty string is zero. *)
Definition decimalBigInt (s : string) : Outcome Z :=
  if allDigits s then
    Ret (match leadingDigits s None with Some v => v | None => 0 end)
  else
    Throw (String.append "Cannot convert " (String.append s " to a BigInt")).

(** [parseInt(s, 10)] without leading white space: an optional sign and
    the longest run of digits, [NaN] when there is none. *)
Definition decimalParseInt (s : string) : number :=
  let signed (negative : bool) (digits : string) :=
    match leadingDigits digits None with
    | Some v => Int (if negative then - v else v)
    | None => NaN
    end in
  match s with
  | String "-" s' => signed true s'
  | String "+" s' => signed false s'
  | _ => signed false s
  end.

Definition sender : string := "zig1sender".

(** The environment of a run: the chain answers the k-th run of
    [executeMultiSend] with [chain k], the k-th write to disk fails with
    [disk k], the recipients file holds [csv]. *)
Definition env (chain : nat -> ChainResponse) (disk : nat -> option string)
    (csv : list Recipient) : Env :=
  mkEnv decimalBigInt decimalParseInt "uzig" (Some "mnemonic words") None
        (Ret sender) (Ret "1000000") (Ret csv) chain disk
        (fun k => String.append "t" (toString (Z.of_nat k))).

(** A chain that settles with [hash], one that rejects with [err], and one
    that only reports [balance]. *)
Definition settles (hash : string) : ChainResponse :=
  mkChainResponse None (Ret "1000000") (Ret hash).

Definition rejects (err : string) : ChainResponse :=
  mkChainResponse None (Ret "1000000") (Throw err).

Definition holds (balance : string) : ChainResponse :=
  mkChainResponse None (Ret balance) (Ret "HASH").

Definition unreachable (err : string) : ChainResponse :=
  mkChainResponse (Some err) (Throw err) (Throw err).

Definition healthyDisk : nat -> option string := fun _ => None.

(** A disk that fails its first write with [err] and no other. *)
Definition failsFirstWrite (err : string) : nat -> option string :=
  fun k => match k with O => Some err | S _ => None end.

(** A disk that fails every write with [err]. *)
Definition brokenDisk (err : string) : nat -> option string :=
  fun _ => Some err.

Definition emptyWorld : World := mkWorld [] Absent 0 0 [].

Definition alice : Recipient := mkRecipient "zig1alice" "10".
Definition bob : Recipient := mkRecipient "zig1bob" "20".
Definition carol : Recipient := mkRecipient "zig1carol" "30".

End Stub.

(** ** Vocabulary of the properties *)

(** The failed batches the store holds; none when it is missing or cannot
    be read. *)
Definition storedRecords (w : World) : list FailedBatch :=
  match failedBatchesFile w with
  | Stored records => records
  | Absent | Unreadable => []
  end.

(** The events of the dispatch engine itself: submissions to the
    Transaction Builder, waits and writes of the failure store.  What the
    Transaction Builder does inside a submission and what goes to the log
    and the console is dropped. *)
Definition isDispatch (ev : Event) : bool :=
  match ev with
  | EvSleep _ | EvExecute _ | EvWriteStore _ => true
  | _ => false
  end.

Definition dispatchTrace (t : list Event) : list Event := filter isDispatch t.

Definition isBroadcast (ev : Event) : bool :=
  match ev with
  | EvBroadcast _ _ => true
  | _ => false
  end.

(** A Transaction Builder that fails every submission. *)
Definition alwaysFails (env : Env) : Prop :=
  forall rs w, exists e w',
    MultiSendService.executeMultiSend env rs w = Some (Throw e, w').

(** A disk on which every write succeeds. *)
Definition healthy (env : Env) : Prop :=
  forall k, e_writeError env k = None.

(** A chain whose transaction hashes are not the empty string. *)
Definition properHashes (env : Env) : Prop :=
  forall k h, r_broadcast (e_chain env k) = Ret h -> truthy h = true.

(** [n] submissions of [batch] with a wait of [ms] between two of them. *)
Fixpoint submissionsOf (n : nat) (ms : number) (batch : list Recipient)
  : list Event :=
  match n with
  | O => []
  | S O => [EvExecute batch]
  | S n' => EvExecute batch :: EvSleep ms :: submissionsOf n' ms batch
  end.

(** The terminal outcome of one batch of the initial run. *)
Inductive BatchOutcome : Type :=
| Settled (hash : string)
| Exhausted (errorMessage : string).

Definition outcomeOf (r : option string * option string) : BatchOutcome :=
  match r with
  | (Some hash, _) => Settled hash
  | (None, Some e) => Exhausted e
  | (None, None) => Exhausted "All retry attempts failed"
  end.

Definition settledHashes (outs : list BatchOutcome) : list string :=
  flat_map (fun o => match o with Settled h => [h] | Exhausted _ => [] end) outs.

(** What a failure record says, its time stamp apart. *)
Definition summary (r : FailedBatch) : Z * list Recipient * string :=
  (batchNumber r, recipients r, error r).

(** The failure records of the batches that were exhausted, batch [i],
    counted from zero, carrying the number [i + 1]. *)
Fixpoint failuresFrom (i : nat) (batches : list (list Recipient))
    (outs : list BatchOutcome) : list (Z * list Recipient * string) :=
  match batches, outs with
  | b :: batches', Settled _ :: outs' => failuresFrom (S i) batches' outs'
  | b :: batches', Exhausted e :: outs' =>
      (Z.of_nat i + 1, b, e) :: failuresFrom (S i) batches' outs'
  | _, _ => []
  end.

(** The number of turns the retry loop of the initial run has left at
    [retryCount]. *)
Definition turnsLeft (self : BatchProcessor.t) (retryCount : Z) : nat :=
  match BatchProcessor.maxRetries self with
  | NaN => 0
  | Int m => Z.to_nat (m - retryCount + 1)
  end.

(** The wait that follows a batch unless it is the last one. *)
Definition pacing (total i : nat) (ms : Z) : list Event :=
  if Z.of_nat i <? Z.of_nat total - 1 then [EvSleep (Int ms)] else [].

(** [o] is the outcome of the retry loop of the initial run on the
    recipients [b], started in some world. *)
Definition outcomeIn (env : Env) (fuel : nat) (self : BatchProcessor.t)
    (b : list Recipient) (o : BatchOutcome) : Prop :=
  exists w1 w2 r,
    BatchProcessor.attempts env fuel self b 0 None w1 = Some (Ret r, w2) /\
    outcomeOf r = o.

(** The answer of the Transaction Builder to the submission numbered [k]
    of the process, when that submission is one of [rs]: what
    [executeMultiSend] returns or throws there.  A submission depends on
    the world through its number only, which picks the answers of the
    chain. *)
Definition answerAt (env : Env) (rs : list Recipient) (k : nat)
  : Outcome string :=
  match MultiSendService.executeMultiSend env rs (mkWorld [] Absent k 0 []) with
  | Some (o, _) => o
  | None => Throw ""
  end.

(** The outcome of a batch [b] of the initial run whose first submission
    is numbered [s] and whose retry loop has [turns] turns.  Either the
    builder answers one of the first [turns] submissions with a hash,
    those before it having failed, and the batch settles with that hash;
    or each of the [turns] submissions fails and the batch is exhausted
    with the error of the last of them; or the loop has no turn at all.
    The last component is the number of submissions the batch took. *)
Inductive batchRun (env : Env) (b : list Recipient) (s turns : nat)
  : BatchOutcome -> nat -> Prop :=
| run_settled (j : nat) (hash : string) :
    (j < turns)%nat ->
    (forall i, (i < j)%nat -> exists e, answerAt env b (s + i) = Throw e) ->
    answerAt env b (s + j) = Ret hash ->
    batchRun env b s turns (Settled hash) (S j)
| run_exhausted (last : nat) (e : string) :
    turns = S last ->
    (forall i, (i < last)%nat -> exists e', answerAt env b (s + i) = Throw e') ->
    answerAt env b (s + last) = Throw e ->
    batchRun env b s turns (Exhausted e) turns
| run_no_turn :
    turns = O ->
    batchRun env b s turns (Exhausted "All retry attempts failed") O.

(** The outcomes of the batches of one initial run, in order: the first
    submission of the run is numbered [s], every batch starts where the
    one before it stopped, and the run stops at the submission numbered
    by the last component. *)
Inductive initialRun (env : Env) (turns : nat)
  : nat -> list (list Recipient) -> list BatchOutcome -> nat -> Prop :=
| initialRun_nil (s : nat) : initialRun env turns s [] [] s
| initialRun_cons (s : nat) (b : list Recipient)
    (batches : list (list Recipient)) (o : BatchOutcome) (n : nat)
    (outs : list BatchOutcome) (s' : nat) :
    batchRun env b s turns o n ->
    initialRun env turns (s + n) batches outs s' ->
    initialRun env turns s (b :: batches) (o :: outs) s'.

(** No failure record of the store carries the number [n]. *)
Definition noRecord (n : Z) (w : World) : Prop :=
  forall r, In r (storedRecords w) -> batchNumber r <> n.

(** The dispatch events of [retryAllBatches] on a builder that always
    fails: for each of the records [todo] in turn, [m] submissions of the
    recipients of the first record of [store] with the same batch number,
    ten seconds apart, and five seconds before the next record. *)
Fixpoint resumeAllTrace (m : nat) (store : list FailedBatch) (total j : nat)
    (todo : list FailedBatch) : list Event :=
  match todo with
  | [] => []
  | batch :: rest =>
      match find (fun r => batchNumber r =? batchNumber batch) store with
      | Some r => submissionsOf m (Int 10000) (recipients r)
      | None => []
      end
      ++ (if Nat.eqb j (total - 1) then [] else [EvSleep (Int 5000)])
      ++ resumeAllTrace m store total (S j) rest
  end.

(** The dispatch events of an initial run in which every batch is
    exhausted after [k] submissions: for each batch in turn its [k]
    submissions, [delay] apart, then the write of the store with the
    record of the batch added, the error and time stamp of which are
    taken from [marks], then the wait before the next batch. *)
Fixpoint exhaustedTrace (k : nat) (delay : number) (total i : nat)
    (store : list FailedBatch) (batches : list (list Recipient))
    (marks : list (string * string)) : list Event :=
  match batches, marks with
  | b :: batches', (e, stamp) :: marks' =>
      let store' := store ++ [mkFailedBatch (Z.of_nat i + 1) b e stamp] in
      submissionsOf k delay b
        ++ [EvWriteStore store']
        ++ pacing total i 10000
        ++ exhaustedTrace k delay total (S i) store' batches' marks'
  | _, _ => []
  end.

(** ** Vocabulary of the further properties *)

(** The sum of a list of integers. *)
Definition sumZ (l : list Z) : Z := fold_right Z.add 0 l.

(** The sum of the amounts of all the coins of the outputs of a
    transfer, read as [BigInt]. *)
Definition outputsTotal (env : Env) (tx : MultiSendTx) : Outcome Z :=
  MultiSendService.totalAmount env
    (flat_map
       (fun o => map (fun c => mkRecipient (output_address o) (coin_amount c))
                     (output_coins o))
       (outputs tx)).

(** The Transaction Builder settles any submission of [rs] with a hash
    that is not empty. *)
Definition settles (env : Env) (rs : list Recipient) : Prop :=
  forall w, exists h w',
    MultiSendService.executeMultiSend env rs w = Some (Ret h, w') /\
    truthy h = true.

(** The dispatch events of an initial run in which every batch settles at
    its first submission: one submission per batch and three seconds
    before the next batch. *)
Fixpoint settledTrace (total i : nat) (batches : list (list Recipient))
  : list Event :=
  match batches with
  | [] => []
  | b :: batches' =>
      EvExecute b :: pacing total i 3000 ++ settledTrace total (S i) batches'
  end.

(** The submission of [rs] that is the [k]-th one of the process fails. *)
Definition failsAt (env : Env) (rs : list Recipient) (k : nat) : Prop :=
  forall w, submissions w = k ->
    exists e w', MultiSendService.executeMultiSend env rs w = Some (Throw e, w').

(** The submission of [rs] that is the [k]-th one of the process settles
    with the hash [h]. *)
Definition settlesAt (env : Env) (rs : list Recipient) (k : nat) (h : string)
  : Prop :=
  forall w, submissions w = k ->
    exists w', MultiSendService.executeMultiSend env rs w = Some (Ret h, w').

(** ** More stub environments *)

Module Sample.

(** A chain that rejects the first two submissions and settles the
    later ones. *)
Definition flaky (k : nat) : ChainResponse :=
  match k with
  | O | S O => Stub.rejects "timeout"
  | _ => Stub.settles "HASH"
  end.

Definition flakyEnv : Env := Stub.env flaky Stub.healthyDisk [].

(** A chain that settles every submission. *)
Definition settlingEnv : Env :=
  Stub.env (fun _ => Stub.settles "HASH") Stub.healthyDisk [].

(** A chain that cannot be reached. *)
Definition downEnv : Env :=
  Stub.env (fun _ => Stub.unreachable "ECONNREFUSED") Stub.healthyDisk [].

Definition trio : list Recipient := [Stub.alice; Stub.bob; Stub.carol].

Definition processor : BatchProcessor.t :=
  BatchProcessor.new (Int 2) (Int 3) (Int 5000).

End Sample.

(** ** The wallet ([wallet.ts], [config.ts]) *)

Module WalletService.

Record WalletConfig : Type := mkWalletConfig {
  mnemonic : option string;
  privateKey : option string;
  prefix : option string
}.

(** The calls of [createWallet] into the libraries, each of which may
    throw: [fromHex] of [@cosmjs/encoding] on a string that is not
    hexadecimal, [DirectSecp256k1Wallet.fromKey] on bytes that are no
    private key, [DirectSecp256k1HdWallet.fromMnemonic] on words that are
    no mnemonic.  The bytes of a key are a string; the wallets are those
    of the library. *)
Record Library (Wallet : Type) : Type := mkLibrary {
  fromHex : string -> Outcome string;
  fromKey : string -> string -> Outcome Wallet;
  fromMnemonic : string -> string -> Outcome Wallet
}.

(** [this.config.prefix || 'zig'] *)
Definition prefixOrZig (config : WalletConfig) : string :=
  match prefix config with
  | Some p => if truthy p then p else "zig"
  | None => "zig"
  end.

(** [key.startsWith('0x') ? key.substring(2) : key] *)
Definition stripHexPrefix (key : string) : string :=
  if startsWith "0x" key
  then String.substring 2 (String.length key - 2) key
  else key.

Definition missingSecret : string :=
  "Either mnemonic or private key must be provided in wallet configuration".

(** [createWallet]: from the private key when there is one, else from
    the mnemonic, else an error.  What the library throws on the key or
    on the mnemonic is thrown by [createWallet]. *)
Definition createWallet {Wallet : Type} (lib : Library Wallet)
    (config : WalletConfig) : Outcome Wallet :=
  let fromWords :=
    match mnemonic config with
    | Some words =>
        if truthy words then fromMnemonic lib words (prefixOrZig config)
        else Throw missingSecret
    | None => Throw missingSecret
    end in
  match privateKey config with
  | Some key =>
      if truthy key then
        match fromHex lib (stripHexPrefix key) with
        | Ret bytes => fromKey lib bytes (prefixOrZig config)
        | Throw e => Throw e
        end
      else fromWords
  | None => fromWords
  end.

(** [walletConfig] of [config.ts]: the two secrets of the environment and
    the address prefix of the chain. *)
Definition walletConfig (env : Env) : WalletConfig :=
  mkWalletConfig (e_mnemonic env) (e_privateKey env) (Some "zig").

End WalletService.

(** A stub of the wallet libraries: [fromHex] takes an even number of
    hexadecimal digits, [fromKey] a key of 32 bytes, which is kept in
    hexadecimal, and [fromMnemonic] twelve words; a wallet is its
    address prefix and its secret. *)
Module SampleLibrary.

Definition isHexDigit (c : ascii) : bool :=
  let n := nat_of_ascii c in
  ((48 <=? n) && (n <=? 57) || (65 <=? n) && (n <=? 70)
   || (97 <=? n) && (n <=? 102))%nat.

Fixpoint allHex (s : string) : bool :=
  match s with
  | EmptyString => true
  | String c s' => isHexDigit c && allHex s'
  end.

Definition fromHex (hex : string) : Outcome string :=
  if negb (Nat.even (String.length hex))
  then Throw "hex string length must be a multiple of 2"
  else if allHex hex then Ret hex
  else Throw "hex string contains invalid characters".

Definition fromKey (bytes addressPrefix : string) : Outcome (string * string) :=
  if (String.length bytes =? 64)%nat then Ret (addressPrefix, bytes)
  else Throw "invalid private key".

Definition fromMnemonic (words addressPrefix : string)
  : Outcome (string * string) :=
  if (List.length (jsSplit " " words) =? 12)%nat then Ret (addressPrefix, words)
  else Throw "Invalid mnemonic format".

Definition library : WalletService.Library (string * string) :=
  WalletService.mkLibrary fromHex fromKey fromMnemonic.

Definition key : string :=
  "0x4c0883a69102937d6231471b5dbb6204fe5129617082792ae468d01a3f362318".

End SampleLibrary.

(** * Properties *)

(** ** The monad *)

Lemma bind_ret {A B : Type} (a : A) (k : A -> M B) (w : World) :
  bind (ret a) k w = k a w.
Proof. reflexivity. Qed.

Lemma bind_some {A B : Type} (m : M A) (k : A -> M B) (w w' : World) (a : A) :
  m w = Some (Ret a, w') -> bind m k w = k a w'.
Proof. intros H. unfold bind. now rewrite H. Qed.

Lemma bind_throw {A B : Type} (m : M A) (k : A -> M B) (w w' : World) e :
  m w = Some (Throw e, w') -> bind m k w = Some (Throw e, w').
Proof. intros H. unfold bind. now rewrite H. Qed.

Lemma dispatchTrace_app (t1 t2 : list Event) :
  dispatchTrace (t1 ++ t2) = dispatchTrace t1 ++ dispatchTrace t2.
Proof. apply filter_app. Qed.

(** ** The Batcher *)

Module BatcherFacts.
Import BatchProcessor.

Lemma slice_chunk (R : list Recipient) (k n : Z) :
  0 <= k -> k < Z.of_nat (List.length R) -> 1 <= n ->
  slice R (Int k) (Int (k + n)) = firstn (Z.to_nat n) (skipn (Z.to_nat k) R).
Proof.
  intros Hk Hlen Hn. unfold slice, relativeIndex; simpl.
  destruct (k <? 0) eqn:E1; [apply Z.ltb_lt in E1; lia|].
  destruct (k + n <? 0) eqn:E2; [apply Z.ltb_lt in E2; lia|].
  rewrite (Z.min_l k) by lia.
  destruct (Z.le_gt_cases (k + n) (Z.of_nat (List.length R))) as [H|H].
  - rewrite Z.min_l by lia. f_equal. lia.
  - rewrite Z.min_r by lia.
    rewrite Z.max_l by lia.
    rewrite !firstn_all2; auto; rewrite length_skipn; lia.
Qed.

Lemma splitLoop_spec (R : list Recipient) (n : Z) :
  1 <= n ->
  forall fuel k acc,
    0 <= k ->
    Z.max 0 (Z.of_nat (List.length R) - k) < Z.of_nat fuel ->
    exists chunks,
      splitLoop fuel (Int n) R (Int k) acc = Some (acc ++ chunks) /\
      concat chunks = skipn (Z.to_nat k) R /\
      Forall (wellSized n) chunks /\
      (Z.of_nat (List.length R) <= k -> chunks = []).
Proof.
  intros Hn fuel. induction fuel as [|fuel IH]; intros k acc Hk Hfuel.
  - lia.
  - cbn [splitLoop num_lt num_add].
    destruct (k <? Z.of_nat (List.length R)) eqn:E.
    + apply Z.ltb_lt in E.
      destruct (IH (k + n) (acc ++ [slice R (Int k) (Int (k + n))]))
        as (chunks & Hrun & Hcat & Hsz & _); try lia.
      exists (slice R (Int k) (Int (k + n)) :: chunks).
      rewrite Hrun, <- app_assoc. split; [reflexivity|].
      rewrite slice_chunk by lia.
      split; [|split].
      * cbn [concat]. rewrite Hcat.
        replace (Z.to_nat (k + n)) with (Z.to_nat n + Z.to_nat k)%nat by lia.
        rewrite <- skipn_skipn. apply firstn_skipn.
      * constructor; auto. unfold wellSized.
        rewrite length_firstn, length_skipn. lia.
      * lia.
    + apply Z.ltb_ge in E. exists []. rewrite app_nil_r.
      split; [reflexivity|]. split; [|split; [constructor | reflexivity]].
      cbn [concat]. symmetry. apply skipn_all2. lia.
Qed.


(** C1. Partition correctness: for a batch size [n >= 1] and enough fuel,
    [splitIntoBatches] returns batches whose concatenation, in order, is
    the list of recipients; every batch holds between one and [n]
    recipients; and the empty list gives no batch. *)
Theorem splitIntoBatches_partition (self : t) (R : list Recipient) (n : Z)
    (fuel : nat) :
  batchSize self = Int n ->
  1 <= n ->
  (List.length R < fuel)%nat ->
  exists batches,
    splitIntoBatches fuel self R = Some batches /\
    concat batches = R /\
    Forall (wellSized n) batches /\
    (R = [] -> batches = []).
Proof.
  intros Hsize Hn Hfuel. unfold splitIntoBatches. rewrite Hsize.
  destruct (@splitLoop_spec R n Hn fuel 0 []) as (chunks & Hrun & Hcat & Hsz & Hnil);
    try lia.
  exists chunks. cbn [app] in Hrun.
  split; [exact Hrun|]. split; [exact Hcat|]. split; [exact Hsz|].
  intros ->. apply Hnil. simpl. lia.
Qed.

Lemma splitIntoBatches_partition_witness :
  exists batches,
    splitIntoBatches 4 (new (Int 2) (Int 3) (Int 5000))
      [Stub.alice; Stub.bob; Stub.carol] = Some batches /\
    concat batches = [Stub.alice; Stub.bob; Stub.carol] /\
    Forall (wellSized 2) batches /\
    ([Stub.alice; Stub.bob; Stub.carol] = [] -> batches = []).
Proof.
  apply (@splitIntoBatches_partition (new (Int 2) (Int 3) (Int 5000))
           [Stub.alice; Stub.bob; Stub.carol] 2 4).
  - reflexivity.
  - lia.
  - simpl. lia.
Defined.

End BatcherFacts.

(** ** The Transaction Builder *)

Module MultiSendFacts.
Import MultiSendService.

(** A submission leaves the ledger alone, counts as one run of
    [executeMultiSend] and shows to the dispatch engine as one event. *)
Lemma executeMultiSend_frame (env : Env) (rs : list Recipient) (w : World) :
  exists o w',
    executeMultiSend env rs w = Some (o, w') /\
    hashesFile w' = hashesFile w /\
    failedBatchesFile w' = failedBatchesFile w /\
    fsWrites w' = fsWrites w /\
    submissions w' = S (submissions w) /\
    dispatchTrace (trace w') = dispatchTrace (trace w) ++ [EvExecute rs].
Proof.
  unfold executeMultiSend, createMultiSendTx, sendMultiSendTx.
  destruct (r_connect (e_chain env (submissions w))) as [e|].
  { do 2 eexists. split; [reflexivity|]. cbn.
    rewrite dispatchTrace_app. repeat split; reflexivity. }
  unfold bind, lift, emit, throw, ret, observe; cbn.
  destruct (e_address env) as [a|e]; cbn.
  2:{ do 2 eexists. split; [reflexivity|]. cbn.
      rewrite dispatchTrace_app. repeat split; reflexivity. }
  destruct (r_balance (e_chain env (submissions w))) as [b|e]; cbn.
  2:{ do 2 eexists. split; [reflexivity|]. cbn.
      rewrite !dispatchTrace_app. cbn. rewrite app_nil_r. repeat split; reflexivity. }
  destruct (totalAmount env rs) as [t|e]; cbn.
  2:{ do 2 eexists. split; [reflexivity|]. cbn.
      rewrite !dispatchTrace_app. cbn. rewrite app_nil_r. repeat split; reflexivity. }
  destruct (js_BigInt env b) as [v|e]; cbn.
  2:{ do 2 eexists. split; [reflexivity|]. cbn.
      rewrite !dispatchTrace_app. cbn. rewrite app_nil_r. repeat split; reflexivity. }
  destruct (v <? t); cbn.
  { do 2 eexists. split; [reflexivity|]. cbn.
    rewrite !dispatchTrace_app. cbn. rewrite app_nil_r. repeat split; reflexivity. }
  destruct (r_broadcast (e_chain env (submissions w))) as [h|e]; cbn;
    do 2 eexists; (split; [reflexivity|]); cbn;
    rewrite !dispatchTrace_app; cbn; rewrite !app_nil_r; repeat split; reflexivity.
Qed.

(** With a sufficient balance the transfer is handed to
    [signAndBroadcast], whose answer is the result. *)
Lemma executeMultiSend_sufficient (env : Env) (rs : list Recipient) (w : World)
    (senderAddress balance : string) (total available : Z) :
  r_connect (e_chain env (submissions w)) = None ->
  e_address env = Ret senderAddress ->
  r_balance (e_chain env (submissions w)) = Ret balance ->
  totalAmount env rs = Ret total ->
  js_BigInt env balance = Ret available ->
  total <= available ->
  exists w' tx,
    executeMultiSend env rs w
      = Some (r_broadcast (e_chain env (submissions w)), w') /\
    trace w' = trace w ++ [EvExecute rs; EvGetBalance; EvBroadcast senderAddress tx].
Proof.
  intros Hc Ha Hb Ht Hv Hle.
  unfold executeMultiSend, createMultiSendTx, sendMultiSendTx.
  rewrite Hc. unfold bind, lift, emit, throw, ret, observe; cbn.
  rewrite Ha; cbn. rewrite Hb; cbn. rewrite Ht; cbn. rewrite Hv; cbn.
  destruct (available <? total) eqn:E; [apply Z.ltb_lt in E; lia|].
  cbn. rewrite ?Ha; cbn. rewrite ?Ht; cbn.
  destruct (r_broadcast (e_chain env (submissions w))); cbn;
    do 2 eexists; (split; [reflexivity|]); cbn;
    rewrite <- !app_assoc; reflexivity.
Qed.

(** C7. Balance check precedes submission: when the balance the chain
    reports is less than the sum of the batch's amounts, both taken as
    arbitrary-precision integers, the attempt throws the
    insufficient-balance error, whose message starts with
    "Insufficient balance.", and [signAndBroadcast] is not invoked: the
    attempt adds to the trace its own entry and the balance query only. *)
Theorem executeMultiSend_balance_check (env : Env) (rs : list Recipient)
    (w : World) (senderAddress balance : string) (total available : Z) :
  r_connect (e_chain env (submissions w)) = None ->
  e_address env = Ret senderAddress ->
  r_balance (e_chain env (submissions w)) = Ret balance ->
  totalAmount env rs = Ret total ->
  js_BigInt env balance = Ret available ->
  available < total ->
  exists w',
    executeMultiSend env rs w
      = Some (Throw (insufficientBalance total balance), w') /\
    trace w' = trace w ++ [EvExecute rs; EvGetBalance] /\
    existsb isBroadcast [EvExecute rs; EvGetBalance] = false /\
    startsWith "Insufficient balance." (insufficientBalance total balance) = true.
Proof.
  intros Hc Ha Hb Ht Hv Hlt.
  unfold executeMultiSend.
  rewrite Hc. unfold bind, lift, emit, throw, ret, observe; cbn.
  rewrite Ha; cbn. rewrite Hb; cbn. rewrite Ht; cbn. rewrite Hv; cbn.
  destruct (available <? total) eqn:E; [|apply Z.ltb_ge in E; lia].
  eexists. split; [reflexivity|]. cbn.
  rewrite <- app_assoc. repeat split; reflexivity.
Qed.

Lemma executeMultiSend_balance_check_witness :
  exists w',
    executeMultiSend (Stub.env (fun _ => Stub.holds "29") Stub.healthyDisk [])
      [Stub.alice; Stub.bob] Stub.emptyWorld
      = Some (Throw (insufficientBalance 30 "29"), w') /\
    trace w' = trace Stub.emptyWorld
                 ++ [EvExecute [Stub.alice; Stub.bob]; EvGetBalance] /\
    existsb isBroadcast [EvExecute [Stub.alice; Stub.bob]; EvGetBalance] = false /\
    startsWith "Insufficient balance." (insufficientBalance 30 "29") = true.
Proof.
  apply (@executeMultiSend_balance_check
           (Stub.env (fun _ => Stub.holds "29") Stub.healthyDisk [])
           [Stub.alice; Stub.bob] Stub.emptyWorld Stub.sender "29" 30 29);
    try reflexivity.
Defined.

End MultiSendFacts.

(** ** The initial run *)

Module BatchProcessorFacts.
Import BatchProcessor.

(** What [saveFailedBatch] does when the write succeeds. *)
Lemma saveFailedBatch_written (env : Env) (number_ : Z) (rs : list Recipient)
    (err : string) (w : World) :
  e_writeError env (fsWrites w) = None ->
  exists w',
    saveFailedBatch env number_ rs err w = Some (Ret tt, w') /\
    failedBatchesFile w' =
      Stored (storedRecords w
                ++ [mkFailedBatch number_ rs err (e_now env (List.length (trace w)))]) /\
    hashesFile w' = hashesFile w /\
    submissions w' = submissions w /\
    fsWrites w' = S (fsWrites w) /\
    dispatchTrace (trace w') =
      dispatchTrace (trace w)
        ++ [EvWriteStore
              (storedRecords w
                 ++ [mkFailedBatch number_ rs err (e_now env (List.length (trace w)))])].
Proof.
  intros Hdisk.
  unfold saveFailedBatch, now, writeStore, fsWrite, storedRecords,
    bind, ret, emit, observe.
  destruct (failedBatchesFile w) as [| |records] eqn:Hfile; cbn;
    rewrite Hdisk; eexists; (split; [reflexivity|]); cbn;
    rewrite ?dispatchTrace_app; cbn; rewrite ?app_nil_r; repeat split; reflexivity.
Qed.

(** What [saveFailedBatch] does when the write fails: the error is thrown
    and the store stays as it was. *)
Lemma saveFailedBatch_throws (env : Env) (number_ : Z) (rs : list Recipient)
    (err ioErr : string) (w : World) :
  e_writeError env (fsWrites w) = Some ioErr ->
  exists w',
    saveFailedBatch env number_ rs err w = Some (Throw ioErr, w') /\
    failedBatchesFile w' = failedBatchesFile w /\
    hashesFile w' = hashesFile w /\
    submissions w' = submissions w.
Proof.
  intros Hdisk.
  unfold saveFailedBatch, now, writeStore, fsWrite, bind, ret, emit, observe.
  destruct (failedBatchesFile w) as [| |records] eqn:Hfile; cbn;
    rewrite Hdisk; eexists; (split; [reflexivity|]); cbn; repeat split; assumption.
Qed.

(** C10. When the failure store is present but cannot be read or parsed,
    [saveFailedBatch] prints a warning and writes a store that holds the
    newly failed batch only: whatever the file held before is gone. *)
Theorem saveFailedBatch_unreadable_store (env : Env) (number_ : Z)
    (rs : list Recipient) (err : string) (w : World) :
  failedBatchesFile w = Unreadable ->
  e_writeError env (fsWrites w) = None ->
  exists w' time,
    saveFailedBatch env number_ rs err w = Some (Ret tt, w') /\
    failedBatchesFile w' = Stored [mkFailedBatch number_ rs err time] /\
    hashesFile w' = hashesFile w /\
    trace w' =
      trace w
        ++ [EvWarn "Could not read failed batches file, creating new one";
            EvWriteStore [mkFailedBatch number_ rs err time]].
Proof.
  intros Hfile Hdisk.
  unfold saveFailedBatch, now, writeStore, fsWrite, bind, ret, emit, observe.
  rewrite Hfile; cbn. rewrite Hdisk.
  do 2 eexists. split; [reflexivity|]. cbn.
  rewrite <- app_assoc. repeat split; reflexivity.
Qed.

Lemma saveFailedBatch_unreadable_store_witness :
  exists w' time,
    saveFailedBatch (Stub.env (fun _ => Stub.rejects "timeout") Stub.healthyDisk [])
      2 [Stub.carol] "timeout" (mkWorld [] Unreadable 0 0 [])
      = Some (Ret tt, w') /\
    failedBatchesFile w' = Stored [mkFailedBatch 2 [Stub.carol] "timeout" time] /\
    hashesFile w' = hashesFile (mkWorld [] Unreadable 0 0 []) /\
    trace w' =
      trace (mkWorld [] Unreadable 0 0 [])
        ++ [EvWarn "Could not read failed batches file, creating new one";
            EvWriteStore [mkFailedBatch 2 [Stub.carol] "timeout" time]].
Proof.
  apply (@saveFailedBatch_unreadable_store
           (Stub.env (fun _ => Stub.rejects "timeout") Stub.healthyDisk [])
           2 [Stub.carol] "timeout" (mkWorld [] Unreadable 0 0 []));
    reflexivity.
Defined.

Lemma submissionsOf_retries (ms : number) (b : list Recipient) (k : nat) :
  EvExecute b :: concat (repeat [EvSleep ms; EvExecute b] k)
  = submissionsOf (S k) ms b.
Proof.
  induction k as [|k IH]; [reflexivity|].
  change (submissionsOf (S (S k)) ms b)
    with (EvExecute b :: EvSleep ms :: submissionsOf (S k) ms b).
  rewrite <- IH. reflexivity.
Qed.

(** One turn of the retry loop on a builder that fails. *)
Lemma attempts_step_fail (env : Env) (fuel : nat) (self : t)
    (b : list Recipient) (rc : Z) (lastError : option string) (w : World)
    (e : string) (w1 : World) :
  num_le (Int rc) (maxRetries self) = true ->
  MultiSendService.executeMultiSend env b
    (if 0 <? rc then observe (EvSleep (retryDelayMs self)) w else w)
    = Some (Throw e, w1) ->
  attempts env (S fuel) self b rc lastError w
  = attempts env fuel self b (rc + 1) (Some e) w1.
Proof.
  intros Hle Hexec. cbn [attempts]. rewrite Hle.
  unfold bind at 1. unfold when, sleep, emit, ret.
  destruct (0 <? rc); cbn;
    unfold bind, tryCatch, ret; rewrite Hexec; reflexivity.
Qed.

(** The retry loop on a builder that always fails, from [retryCount >= 1]
    on: each of the [k] turns left waits and submits. *)
Lemma attempts_always_fail (env : Env) (self : t) (b : list Recipient) (m : Z) :
  alwaysFails env ->
  maxRetries self = Int m ->
  forall (k fuel : nat) (rc : Z) (lastError : option string) (w : World),
    1 <= rc ->
    Z.of_nat k = m - rc + 1 ->
    (k < fuel)%nat ->
    exists lastError' w',
      attempts env fuel self b rc lastError w = Some (Ret (None, lastError'), w') /\
      (lastError <> None -> lastError' <> None) /\
      hashesFile w' = hashesFile w /\
      failedBatchesFile w' = failedBatchesFile w /\
      fsWrites w' = fsWrites w /\
      submissions w' = (submissions w + k)%nat /\
      dispatchTrace (trace w') =
        dispatchTrace (trace w)
          ++ concat (repeat [EvSleep (retryDelayMs self); EvExecute b] k).
Proof.
  intros Hfail Hm k. induction k as [|k IH]; intros fuel rc lastError w Hrc Hk Hfuel.
  - destruct fuel as [|fuel]; [lia|]. cbn [attempts]. rewrite Hm. cbn [num_le].
    destruct (rc <=? m) eqn:E; [apply Z.leb_le in E; lia|].
    exists lastError, w. cbn. rewrite app_nil_r, Nat.add_0_r. repeat split; auto.
  - destruct fuel as [|fuel]; [lia|].
    destruct (Hfail b (observe (EvSleep (retryDelayMs self)) w)) as (e & w1 & Hexec).
    destruct (MultiSendFacts.executeMultiSend_frame env b
                (observe (EvSleep (retryDelayMs self)) w))
      as (o & w1' & Hexec' & Hh & Hf & Hfs & Hsub & Htr).
    rewrite Hexec in Hexec'. injection Hexec' as <- <-.
    rewrite (@attempts_step_fail env fuel self b rc lastError w e w1).
    + destruct (IH fuel (rc + 1) (Some e) w1) as (le & w' & Hrun & Hle & Hh' & Hf' & Hfs' & Hsub' & Htr');
        try lia.
      exists le, w'. split; [exact Hrun|].
      split; [intros _; apply Hle; discriminate|].
      rewrite Hh', Hf', Hfs', Hsub', Htr', Hh, Hf, Hfs, Hsub, Htr. cbn.
      rewrite dispatchTrace_app. cbn. rewrite <- !app_assoc. cbn.
      repeat split; auto; lia.
    + rewrite Hm. cbn. apply Z.leb_le. lia.
    + destruct (0 <? rc) eqn:E; [exact Hexec|apply Z.ltb_ge in E; lia].
Qed.

(** The retry loop, one turn unfolded. *)
Lemma attempts_unfold (env : Env) (fuel : nat) (self : t) (b : list Recipient)
    (rc : Z) (lastError : option string) (w : World) :
  attempts env (S fuel) self b rc lastError w =
  if num_le (Int rc) (maxRetries self) then
    match MultiSendService.executeMultiSend env b
            (if 0 <? rc then observe (EvSleep (retryDelayMs self)) w else w) with
    | None => None
    | Some (Ret hash, w1) =>
        if truthy hash then Some (Ret (Some hash, lastError), w1)
        else attempts env fuel self b rc lastError w1
    | Some (Throw err, w1) => attempts env fuel self b (rc + 1) (Some err) w1
    end
  else Some (Ret (None, lastError), w).
Proof.
  cbn [attempts]. destruct (num_le (Int rc) (maxRetries self)); [|reflexivity].
  unfold bind at 1. unfold when, sleep, emit, ret.
  destruct (0 <? rc); cbn; unfold bind, tryCatch, ret;
    destruct (MultiSendService.executeMultiSend env b _) as [[[hash|err] w1]|];
    try destruct (truthy hash); reflexivity.
Qed.

(** The retry loop never touches the ledger. *)
Lemma attempts_frame (env : Env) (self : t) (b : list Recipient) :
  forall (fuel : nat) (rc : Z) (lastError : option string) (w : World) o w',
    attempts env fuel self b rc lastError w = Some (o, w') ->
    hashesFile w' = hashesFile w /\
    failedBatchesFile w' = failedBatchesFile w /\
    fsWrites w' = fsWrites w.
Proof.
  induction fuel as [|fuel IH]; intros rc lastError w o w' Hrun.
  - discriminate.
  - rewrite attempts_unfold in Hrun.
    destruct (num_le (Int rc) (maxRetries self)).
    2:{ injection Hrun as <- <-. auto. }
    set (w0 := if 0 <? rc then observe (EvSleep (retryDelayMs self)) w else w) in *.
    assert (Hw0 : hashesFile w0 = hashesFile w /\
                  failedBatchesFile w0 = failedBatchesFile w /\
                  fsWrites w0 = fsWrites w)
      by (unfold w0; destruct (0 <? rc); auto).
    destruct Hw0 as (H1 & H2 & H3).
    destruct (MultiSendFacts.executeMultiSend_frame env b w0)
      as (r & w1 & Hexec & Hh & Hf & Hfs & _ & _).
    rewrite Hexec in Hrun.
    destruct r as [hash|err].
    + destruct (truthy hash).
      * injection Hrun as <- <-. rewrite Hh, Hf, Hfs. auto.
      * apply IH in Hrun. destruct Hrun as (A & B & C).
        rewrite A, B, C, Hh, Hf, Hfs. auto.
    + apply IH in Hrun. destruct Hrun as (A & B & C).
      rewrite A, B, C, Hh, Hf, Hfs. auto.
Qed.

(** A hash that [executeMultiSend] returns is the one the chain gave. *)
Lemma executeMultiSend_hash (env : Env) (rs : list Recipient) (w w' : World)
    (h : string) :
  MultiSendService.executeMultiSend env rs w = Some (Ret h, w') ->
  r_broadcast (e_chain env (submissions w)) = Ret h.
Proof.
  unfold MultiSendService.executeMultiSend, MultiSendService.createMultiSendTx,
    MultiSendService.sendMultiSendTx.
  destruct (r_connect (e_chain env (submissions w))); [discriminate|].
  unfold bind, lift, emit, throw, ret, observe; cbn.
  destruct (e_address env); cbn; [|discriminate].
  destruct (r_balance (e_chain env (submissions w))); cbn; [|discriminate].
  destruct (MultiSendService.totalAmount env rs); cbn; [|discriminate].
  destruct (js_BigInt env _) as [available|]; cbn; [|discriminate].
  destruct (available <? _); cbn; [discriminate|].
  destruct (r_broadcast (e_chain env (submissions w))); cbn; [|discriminate].
  intros H. injection H as -> _. reflexivity.
Qed.

(** With hashes that are not empty the retry loop ends within the turns
    it has left. *)
Lemma attempts_total (env : Env) (self : t) (b : list Recipient) :
  properHashes env ->
  forall (k fuel : nat) (rc : Z) (lastError : option string) (w : World),
    turnsLeft self rc = k ->
    (k < fuel)%nat ->
    exists r w', attempts env fuel self b rc lastError w = Some (Ret r, w').
Proof.
  intros Hproper k. induction k as [|k IH]; intros fuel rc lastError w Hk Hfuel;
    (destruct fuel as [|fuel]; [lia|]); rewrite attempts_unfold;
    unfold turnsLeft in Hk.
  - destruct (maxRetries self) as [|m]; cbn [num_le]; [eauto|].
    destruct (rc <=? m) eqn:E; [apply Z.leb_le in E; lia|eauto].
  - destruct (maxRetries self) as [|m] eqn:Hm; [discriminate|]. cbn [num_le].
    destruct (rc <=? m) eqn:E; [|eauto].
    set (w0 := if 0 <? rc then observe (EvSleep (retryDelayMs self)) w else w).
    destruct (MultiSendFacts.executeMultiSend_frame env b w0)
      as (r & w1 & Hexec & _).
    rewrite Hexec. destruct r as [hash|err].
    + apply executeMultiSend_hash in Hexec. apply Hproper in Hexec.
      rewrite Hexec. eauto.
    + apply IH; [|lia]. unfold turnsLeft. rewrite Hm. lia.
Qed.

(** The [catch] block on a healthy disk: an error line, the failed batch
    at the end of the store, the wait. *)
Lemma onError_written (env : Env) (total i : nat) (b : list Recipient)
    (msg : string) (w : World) :
  healthy env ->
  exists w' time stamp,
    onError env total i b msg w = Some (Ret tt, w') /\
    hashesFile w' =
      hashesFile w ++ [ErrorEntry (Z.of_nat i + 1) (List.length b) msg time] /\
    failedBatchesFile w' =
      Stored (storedRecords w ++ [mkFailedBatch (Z.of_nat i + 1) b msg stamp]) /\
    submissions w' = submissions w /\
    dispatchTrace (trace w') =
      dispatchTrace (trace w)
        ++ [EvWriteStore
              (storedRecords w ++ [mkFailedBatch (Z.of_nat i + 1) b msg stamp])]
        ++ pacing total i 10000.
Proof.
  intros Hdisk. unfold onError.
  set (w1 := setHashesFile
               (hashesFile w ++ [ErrorEntry (Z.of_nat i + 1) (List.length b) msg
                                   (e_now env (List.length (trace w)))])
               (mkWorld (hashesFile w) (failedBatchesFile w) (submissions w)
                  (S (fsWrites w))
                  (trace w ++ [EvAppendLog
                                 (ErrorEntry (Z.of_nat i + 1) (List.length b) msg
                                    (e_now env (List.length (trace w))))]))).
  destruct (@saveFailedBatch_written env (Z.of_nat i + 1) b msg w1 (Hdisk _))
    as (w2 & Hsave & Hf & Hh & Hsub & _ & Htr).
  exists (if Z.of_nat i <? Z.of_nat total - 1 then observe (EvSleep (Int 10000)) w2 else w2).
  exists (e_now env (List.length (trace w))), (e_now env (List.length (trace w1))).
  split.
  - unfold bind at 1. unfold now.
    unfold bind at 1. unfold appendHashes, fsWrite. rewrite (Hdisk (fsWrites w)).
    erewrite (@bind_some unit unit _ _ _ w2 tt); [|exact Hsave].
    unfold when, sleep, emit, ret. destruct (Z.of_nat i <? Z.of_nat total - 1); reflexivity.
  - unfold pacing.
    destruct (Z.of_nat i <? Z.of_nat total - 1); cbn;
      rewrite ?dispatchTrace_app, Htr, Hf, Hh, Hsub; cbn;
      rewrite ?dispatchTrace_app; cbn; rewrite ?app_nil_r, <- ?app_assoc;
      repeat split; reflexivity.
Qed.

(** The loop body on a builder that fails every submission, for
    [maxRetries = m >= 0]: the batch is submitted [m + 1] times,
    [retryDelayMs] apart, and then its failure record is written. *)
Lemma processBatch_exhausted (env : Env) (self : t) (total i : nat)
    (b : list Recipient) (hashes : list string) (fuel : nat) (w : World) (m : Z) :
  alwaysFails env ->
  healthy env ->
  maxRetries self = Int m ->
  0 <= m ->
  (Z.to_nat m + 1 < fuel)%nat ->
  exists e stamp w',
    processBatch env fuel self total i b hashes w = Some (Ret hashes, w') /\
    submissions w' = (submissions w + (Z.to_nat m + 1))%nat /\
    failedBatchesFile w' =
      Stored (storedRecords w ++ [mkFailedBatch (Z.of_nat i + 1) b e stamp]) /\
    dispatchTrace (trace w') =
      dispatchTrace (trace w)
        ++ submissionsOf (Z.to_nat m + 1) (retryDelayMs self) b
        ++ [EvWriteStore
              (storedRecords w ++ [mkFailedBatch (Z.of_nat i + 1) b e stamp])]
        ++ pacing total i 10000.
Proof.
  intros Hfail Hdisk Hm Hpos Hfuel.
  destruct fuel as [|fuel]; [lia|].
  destruct (Hfail b w) as (e0 & w1 & Hexec).
  destruct (MultiSendFacts.executeMultiSend_frame env b w)
    as (o & w1' & Hexec' & Hh1 & Hf1 & Hfs1 & Hsub1 & Htr1).
  rewrite Hexec in Hexec'. injection Hexec' as <- <-.
  destruct (@attempts_always_fail env self b m Hfail Hm (Z.to_nat m) fuel 1 (Some e0) w1)
    as (le & w2 & Hrun & Hle & Hh2 & Hf2 & Hfs2 & Hsub2 & Htr2); try lia.
  destruct le as [e|]; [|exfalso; apply Hle; [discriminate|reflexivity]].
  destruct (@onError_written env total i b e w2 Hdisk)
    as (w3 & time & stamp & Herr & Hh3 & Hf3 & Hsub3 & Htr3).
  exists e, stamp, w3.
  assert (Hstored : storedRecords w2 = storedRecords w)
    by (unfold storedRecords; rewrite Hf2, Hf1; reflexivity).
  split.
  - unfold processBatch. unfold bind at 1.
    rewrite attempts_unfold, Hm. cbn [num_le].
    destruct (0 <=? m) eqn:E; [|apply Z.leb_gt in E; lia].
    cbn [Z.ltb Z.compare]. rewrite Hexec. cbn [Z.add Pos.add] in Hrun |- *.
    rewrite Hrun. unfold bind. rewrite Herr. reflexivity.
  - rewrite Hsub3, Hsub2, Hsub1, Hf3, Htr3, Htr2, Htr1, Hstored.
    replace (Z.to_nat m + 1)%nat with (S (Z.to_nat m)) by lia.
    rewrite <- submissionsOf_retries. cbn. rewrite <- !app_assoc. cbn.
    repeat split; auto; lia.
Qed.

(** The loop over the batches on a builder that fails every submission. *)
Lemma batchLoop_exhausted (env : Env) (self : t) (total fuel : nat) (m : Z) :
  alwaysFails env ->
  healthy env ->
  maxRetries self = Int m ->
  0 <= m ->
  (Z.to_nat m + 1 < fuel)%nat ->
  forall (batches : list (list Recipient)) (i : nat) (hashes : list string)
         (w : World),
  exists marks w',
    List.length marks = List.length batches /\
    batchLoop env fuel self total i batches hashes w = Some (Ret hashes, w') /\
    submissions w' =
      (submissions w + List.length batches * (Z.to_nat m + 1))%nat /\
    dispatchTrace (trace w') =
      dispatchTrace (trace w)
        ++ exhaustedTrace (Z.to_nat m + 1) (retryDelayMs self) total i
             (storedRecords w) batches marks.
Proof.
  intros Hfail Hdisk Hm Hpos Hfuel batches.
  induction batches as [|b rest IH]; intros i hashes w.
  - exists [], w. cbn. rewrite app_nil_r, Nat.add_0_r. auto.
  - destruct (@processBatch_exhausted env self total i b hashes fuel w m
                Hfail Hdisk Hm Hpos Hfuel)
      as (e & stamp & w1 & Hbody & Hsub & Hstore & Htr).
    destruct (IH (S i) hashes w1) as (marks & w' & Hlen & Hloop & Hsub' & Htr').
    exists ((e, stamp) :: marks), w'. split; [cbn; now rewrite Hlen|].
    split; [cbn [batchLoop]; unfold bind; now rewrite Hbody|].
    split; [rewrite Hsub', Hsub; cbn [List.length]; lia|].
    assert (Hrecords : storedRecords w1 =
                       storedRecords w ++ [mkFailedBatch (Z.of_nat i + 1) b e stamp])
      by (unfold storedRecords at 1; now rewrite Hstore).
    rewrite Htr', Htr, Hrecords. cbn [exhaustedTrace].
    rewrite <- !app_assoc. reflexivity.
Qed.

(** C2. Retry bound: when the Transaction Builder fails every submission
    and [maxRetries] is [m >= 0], [processBatches] submits every batch
    exactly [m + 1] times, waits [retryDelayMs] between two submissions
    of a batch and not before the first, and only then writes the failure
    record of the batch to the store; no hash is returned. *)
Theorem processBatches_retry_bound (env : Env) (fuel : nat) (self : t)
    (rs : list Recipient) (n m : Z) (w : World) :
  alwaysFails env ->
  healthy env ->
  batchSize self = Int n ->
  1 <= n ->
  maxRetries self = Int m ->
  0 <= m ->
  (List.length rs < fuel)%nat ->
  (Z.to_nat m + 1 < fuel)%nat ->
  exists batches marks w',
    splitIntoBatches fuel self rs = Some batches /\
    List.length marks = List.length batches /\
    processBatches env fuel self rs w = Some (Ret [], w') /\
    submissions w' =
      (submissions w + List.length batches * (Z.to_nat m + 1))%nat /\
    dispatchTrace (trace w') =
      dispatchTrace (trace w)
        ++ exhaustedTrace (Z.to_nat m + 1) (retryDelayMs self)
             (List.length batches) 0 (storedRecords w) batches marks.
Proof.
  intros Hfail Hdisk Hsize Hn Hm Hpos Hlen Hfuel.
  destruct (@BatcherFacts.splitLoop_spec rs n Hn fuel 0 [])
    as (batches & Hsplit & _); try lia.
  cbn [app] in Hsplit.
  destruct (@batchLoop_exhausted env self (List.length batches) fuel m Hfail Hdisk
              Hm Hpos Hfuel batches 0%nat [] w)
    as (marks & w' & Hmarks & Hloop & Hsub & Htr).
  exists batches, marks, w'.
  unfold processBatches, splitIntoBatches. rewrite Hsize, Hsplit.
  repeat split; assumption.
Qed.

(** [saveTransactionHash] when the write succeeds. *)
Lemma saveTransactionHash_written (env : Env) (number_ : Z) (hash : string)
    (count : nat) (w : World) :
  e_writeError env (fsWrites w) = None ->
  exists w',
    saveTransactionHash env number_ hash count w = Some (Ret tt, w') /\
    hashesFile w' =
      hashesFile w
        ++ [HashEntry number_ count hash (e_now env (List.length (trace w))) false] /\
    failedBatchesFile w' = failedBatchesFile w.
Proof.
  intros Hdisk.
  unfold saveTransactionHash, now, appendHashes, fsWrite, bind. cbn.
  rewrite Hdisk. eexists. split; [reflexivity|]. cbn. split; reflexivity.
Qed.

(** The loop body when the batch settled and its line reaches the log:
    the hash joins the result and the failure store is not touched. *)
Lemma processBatch_settled (env : Env) (fuel : nat) (self : t) (total i : nat)
    (b : list Recipient) (hashes : list string) (w w1 : World)
    (hash : string) (lastError : option string) :
  attempts env fuel self b 0 None w = Some (Ret (Some hash, lastError), w1) ->
  e_writeError env (fsWrites w) = None ->
  exists time w',
    processBatch env fuel self total i b hashes w
      = Some (Ret (hashes ++ [hash]), w') /\
    hashesFile w' =
      hashesFile w ++ [HashEntry (Z.of_nat i + 1) (List.length b) hash time false] /\
    failedBatchesFile w' = failedBatchesFile w.
Proof.
  intros Hrun Hdisk.
  destruct (attempts_frame _ _ _ _ _ _ _ Hrun) as (Hh & Hf & Hfs).
  rewrite <- Hfs in Hdisk.
  destruct (@saveTransactionHash_written env (Z.of_nat i + 1) hash
              (List.length b) w1 Hdisk) as (w2 & Hsave & Hh2 & Hf2).
  exists (e_now env (List.length (trace w1))).
  exists (if Z.of_nat i <? Z.of_nat total - 1
          then observe (EvSleep (Int 3000)) w2 else w2).
  split.
  - unfold processBatch. unfold bind at 1. rewrite Hrun.
    unfold tryCatch. erewrite (@bind_some unit _ _ _ _ w2 tt); [|exact Hsave].
    unfold when, sleep, emit, ret, bind.
    destruct (Z.of_nat i <? Z.of_nat total - 1); reflexivity.
  - destruct (Z.of_nat i <? Z.of_nat total - 1); cbn;
      rewrite Hh2, Hf2, Hh, Hf; split; reflexivity.
Qed.

(** The loop body on a healthy disk, whatever the chain does: the retry
    loop ends, a batch that settled adds its hash, a batch that was
    exhausted adds its failure record, and the body returns. *)
Lemma processBatch_outcome (env : Env) (fuel : nat) (self : t) (total i : nat)
    (b : list Recipient) (hashes : list string) (w : World) :
  healthy env ->
  properHashes env ->
  (turnsLeft self 0 < fuel)%nat ->
  exists r w1 w',
    attempts env fuel self b 0 None w = Some (Ret r, w1) /\
    processBatch env fuel self total i b hashes w
      = Some (Ret (hashes ++ settledHashes [outcomeOf r]), w') /\
    map summary (storedRecords w') =
      map summary (storedRecords w) ++ failuresFrom i [b] [outcomeOf r].
Proof.
  intros Hdisk Hproper Hfuel.
  destruct (@attempts_total env self b Hproper _ fuel 0 None w eq_refl Hfuel)
    as (r & w1 & Hrun).
  exists r, w1.
  destruct (attempts_frame _ _ _ _ _ _ _ Hrun) as (Hh & Hf & Hfs).
  destruct r as [[hash|] lastError].
  - destruct (@processBatch_settled env fuel self total i b hashes w w1 hash
                lastError Hrun (Hdisk _)) as (time & w' & Hbody & _ & Hstore).
    exists w'. split; [exact Hrun|]. split; [exact Hbody|].
    unfold storedRecords. rewrite Hstore. cbn. now rewrite app_nil_r.
  - set (msg := match lastError with
                | Some e => e
                | None => "All retry attempts failed"
                end).
    destruct (@onError_written env total i b msg w1 Hdisk)
      as (w' & time & stamp & Herr & _ & Hstore & _).
    exists w'. split; [exact Hrun|]. split.
    + unfold processBatch. unfold bind at 1. rewrite Hrun.
      fold msg. unfold bind. rewrite Herr.
      destruct lastError; cbn; now rewrite app_nil_r.
    + unfold storedRecords at 1. rewrite Hstore.
      assert (Hsame : storedRecords w1 = storedRecords w)
        by (unfold storedRecords; now rewrite Hf).
      rewrite Hsame, map_app. unfold msg. destruct lastError; reflexivity.
Qed.

Lemma failuresFrom_cons (i : nat) (b : list Recipient)
    (batches : list (list Recipient)) (o : BatchOutcome) (outs : list BatchOutcome) :
  failuresFrom i (b :: batches) (o :: outs)
  = failuresFrom i [b] [o] ++ failuresFrom (S i) batches outs.
Proof. destruct o; reflexivity. Qed.

(** The loop over the batches on a healthy disk: every batch gets its
    turn, the hashes grow by those of the batches that settled and the
    store by the records of those that were exhausted. *)
Lemma batchLoop_outcomes (env : Env) (fuel : nat) (self : t) (total : nat) :
  healthy env ->
  properHashes env ->
  (turnsLeft self 0 < fuel)%nat ->
  forall (batches : list (list Recipient)) (i : nat) (hashes : list string)
         (w : World),
  exists outs w',
    batchLoop env fuel self total i batches hashes w
      = Some (Ret (hashes ++ settledHashes outs), w') /\
    Forall2 (outcomeIn env fuel self) batches outs /\
    map summary (storedRecords w') =
      map summary (storedRecords w) ++ failuresFrom i batches outs.
Proof.
  intros Hdisk Hproper Hfuel batches.
  induction batches as [|b rest IH]; intros i hashes w.
  - exists [], w. cbn. rewrite !app_nil_r. repeat split; constructor.
  - destruct (@processBatch_outcome env fuel self total i b hashes w Hdisk Hproper Hfuel)
      as (r & w1 & w2 & Hrun & Hbody & Hstore).
    destruct (IH (S i) (hashes ++ settledHashes [outcomeOf r]) w2)
      as (outs & w' & Hloop & Hall & Hstore').
    exists (outcomeOf r :: outs), w'. split; [|split].
    + cbn [batchLoop]. unfold bind. rewrite Hbody, Hloop.
      rewrite <- app_assoc. do 3 f_equal. cbn. now rewrite app_nil_r.
    + constructor; [|exact Hall]. exists w, w1, r. auto.
    + rewrite failuresFrom_cons, Hstore', Hstore, app_assoc. reflexivity.
Qed.

(** A submission is answered by its number alone. *)
Lemma executeMultiSend_answer (env : Env) (rs : list Recipient) (w : World) :
  exists w',
    MultiSendService.executeMultiSend env rs w
      = Some (answerAt env rs (submissions w), w').
Proof.
  unfold answerAt, MultiSendService.executeMultiSend,
    MultiSendService.createMultiSendTx, MultiSendService.sendMultiSendTx.
  cbn [submissions].
  destruct (r_connect (e_chain env (submissions w))); [eexists; reflexivity|].
  unfold bind, lift, emit, throw, ret, observe; cbn.
  destruct (e_address env); cbn; [|eexists; reflexivity].
  destruct (r_balance (e_chain env (submissions w))); cbn; [|eexists; reflexivity].
  destruct (MultiSendService.totalAmount env rs); cbn; [|eexists; reflexivity].
  destruct (js_BigInt env _) as [available|]; cbn; [|eexists; reflexivity].
  destruct (available <? _); cbn; [eexists; reflexivity|].
  destruct (r_broadcast (e_chain env (submissions w))); cbn; eexists; reflexivity.
Qed.

(** The retry loop, read on the answers of the builder: with [k] turns
    left it stops at the first of the next [k] submissions that is
    answered with a hash; when each of them fails it takes all [k] and
    the error it returns is the one of the last submission. *)
Lemma attempts_answers (env : Env) (self : t) (b : list Recipient) :
  properHashes env ->
  forall (k fuel : nat) (rc : Z) (lastError : option string) (w : World),
    turnsLeft self rc = k ->
    (k < fuel)%nat ->
    exists r w',
      attempts env fuel self b rc lastError w = Some (Ret r, w') /\
      ((exists j hash,
           (j < k)%nat /\
           (forall i, (i < j)%nat ->
                      exists e, answerAt env b (submissions w + i) = Throw e) /\
           answerAt env b (submissions w + j) = Ret hash /\
           fst r = Some hash /\
           submissions w' = (submissions w + S j)%nat)
       \/
       ((forall i, (i < k)%nat ->
                   exists e, answerAt env b (submissions w + i) = Throw e) /\
        fst r = None /\
        submissions w' = (submissions w + k)%nat /\
        snd r = match k with
                | O => lastError
                | S last =>
                    match answerAt env b (submissions w + last) with
                    | Throw e => Some e
                    | Ret _ => None
                    end
                end)).
Proof.
  intros Hproper k. induction k as [|k IH]; intros fuel rc lastError w Hk Hfuel;
    (destruct fuel as [|fuel]; [lia|]); rewrite attempts_unfold;
    unfold turnsLeft in Hk.
  - assert (Hstop : num_le (Int rc) (maxRetries self) = false).
    { destruct (maxRetries self) as [|m]; cbn [num_le]; [reflexivity|].
      apply Z.leb_gt. lia. }
    rewrite Hstop. exists (None, lastError), w. split; [reflexivity|]. right.
    cbn. repeat split; lia.
  - destruct (maxRetries self) as [|m] eqn:Hm; [discriminate|]. cbn [num_le].
    destruct (rc <=? m) eqn:E; [|apply Z.leb_gt in E; lia].
    set (w0 := if 0 <? rc then observe (EvSleep (retryDelayMs self)) w else w).
    assert (Hsub0 : submissions w0 = submissions w)
      by (unfold w0; destruct (0 <? rc); reflexivity).
    destruct (executeMultiSend_answer env b w0) as (w1 & Hexec).
    destruct (MultiSendFacts.executeMultiSend_frame env b w0)
      as (o & w1' & Hexec' & _ & _ & _ & Hsub1 & _).
    rewrite Hexec in Hexec'. injection Hexec' as <- <-.
    rewrite Hexec. rewrite Hsub0 in Hexec, Hsub1 |- *.
    destruct (answerAt env b (submissions w)) as [hash|err] eqn:Hanswer.
    + assert (Htruthy : truthy hash = true).
      { apply (Hproper (submissions w0)).
        eapply executeMultiSend_hash. exact Hexec. }
      rewrite Htruthy. exists (Some hash, lastError), w1.
      split; [reflexivity|]. left. exists 0%nat, hash.
      rewrite Nat.add_0_r. repeat split; try lia; assumption.
    + destruct (IH fuel (rc + 1) (Some err) w1) as (r & w' & Hrun & Hcase);
        [unfold turnsLeft; rewrite Hm; lia|lia|].
      exists r, w'. split; [exact Hrun|]. rewrite Hsub1 in Hcase.
      destruct Hcase as [(j & hash & Hj & Hbefore & Hat & Hr & Hsub)
                        |(Hall & Hr & Hsub & Hlast)].
      * left. exists (S j), hash. split; [lia|]. split; [|split; [|split]].
        -- intros [|i] Hi.
           ++ exists err. now rewrite Nat.add_0_r.
           ++ destruct (Hbefore i) as (e & He); [lia|]. exists e.
              now replace (submissions w + S i)%nat
                with (S (submissions w) + i)%nat by lia.
        -- now replace (submissions w + S j)%nat
             with (S (submissions w) + j)%nat by lia.
        -- exact Hr.
        -- lia.
      * right. split; [|split; [|split]].
        -- intros [|i] Hi.
           ++ exists err. now rewrite Nat.add_0_r.
           ++ destruct (Hall i) as (e & He); [lia|]. exists e.
              now replace (submissions w + S i)%nat
                with (S (submissions w) + i)%nat by lia.
        -- exact Hr.
        -- lia.
        -- rewrite Hlast. destruct k as [|last].
           ++ now rewrite Nat.add_0_r, Hanswer.
           ++ now replace (submissions w + S last)%nat
                with (S (submissions w) + last)%nat by lia.
Qed.

(** The loop body on a healthy disk, read on the answers of the builder:
    the batch takes the submissions that follow those of the batches
    before it, its hash joins the result when it settles and its failure
    record, with the error of its last submission, joins the store when
    it is exhausted. *)
Lemma processBatch_run (env : Env) (fuel : nat) (self : t) (total i : nat)
    (b : list Recipient) (hashes : list string) (w : World) :
  healthy env ->
  properHashes env ->
  (turnsLeft self 0 < fuel)%nat ->
  exists o n w',
    processBatch env fuel self total i b hashes w
      = Some (Ret (hashes ++ settledHashes [o]), w') /\
    batchRun env b (submissions w) (turnsLeft self 0) o n /\
    submissions w' = (submissions w + n)%nat /\
    map summary (storedRecords w') =
      map summary (storedRecords w) ++ failuresFrom i [b] [o].
Proof.
  intros Hdisk Hproper Hfuel.
  destruct (@attempts_answers env self b Hproper _ fuel 0 None w eq_refl Hfuel)
    as (r & w1 & Hrun & Hcase).
  destruct (attempts_frame _ _ _ _ _ _ _ Hrun) as (Hh & Hf & Hfs).
  destruct Hcase as [(j & hash & Hj & Hbefore & Hat & Hr & Hsub)
                    |(Hall & Hr & Hsub & Hlast)].
  - destruct r as [first lastError]. cbn in Hr. subst first.
    set (line := HashEntry (Z.of_nat i + 1) (List.length b) hash
                   (e_now env (List.length (trace w1))) false).
    set (w2 := mkWorld (hashesFile w1 ++ [line]) (failedBatchesFile w1)
                 (submissions w1) (S (fsWrites w1))
                 (trace w1 ++ [EvAppendLog line])).
    exists (Settled hash), (S j),
      (if Z.of_nat i <? Z.of_nat total - 1
       then observe (EvSleep (Int 3000)) w2 else w2).
    split; [|split; [|split]].
    + unfold processBatch. unfold bind at 1. rewrite Hrun.
      unfold tryCatch, saveTransactionHash, now, appendHashes, fsWrite.
      unfold bind at 1. unfold bind at 1. rewrite (Hdisk (fsWrites w1)).
      unfold when, sleep, emit, ret, bind.
      destruct (Z.of_nat i <? Z.of_nat total - 1); reflexivity.
    + now apply run_settled.
    + destruct (Z.of_nat i <? Z.of_nat total - 1); cbn; exact Hsub.
    + unfold storedRecords.
      destruct (Z.of_nat i <? Z.of_nat total - 1); cbn; rewrite Hf;
        now rewrite app_nil_r.
  - destruct r as [first lastError]. cbn in Hr, Hlast. subst first.
    set (msg := match lastError with
                | Some e => e
                | None => "All retry attempts failed"
                end).
    destruct (@onError_written env total i b msg w1 Hdisk)
      as (w' & time & stamp & Herr & _ & Hstore & Hsub' & _).
    exists (Exhausted msg), (turnsLeft self 0), w'.
    split; [|split; [|split]].
    + unfold processBatch. unfold bind at 1. rewrite Hrun.
      fold msg. unfold bind. rewrite Herr.
      destruct lastError; cbn; now rewrite app_nil_r.
    + destruct (turnsLeft self 0) as [|last] eqn:Hturns.
      * unfold msg. rewrite Hlast. now apply run_no_turn.
      * destruct (Hall last) as (e & He); [lia|].
        unfold msg. rewrite Hlast, He.
        apply run_exhausted with (last := last); [reflexivity| |exact He].
        intros k Hk. apply Hall. lia.
    + lia.
    + unfold storedRecords at 1. rewrite Hstore.
      assert (Hsame : storedRecords w1 = storedRecords w)
        by (unfold storedRecords; now rewrite Hf).
      rewrite Hsame, map_app. reflexivity.
Qed.

(** The loop over the batches on a healthy disk, read on the answers of
    the builder. *)
Lemma batchLoop_run (env : Env) (fuel : nat) (self : t) (total : nat) :
  healthy env ->
  properHashes env ->
  (turnsLeft self 0 < fuel)%nat ->
  forall (batches : list (list Recipient)) (i : nat) (hashes : list string)
         (w : World),
  exists outs w',
    batchLoop env fuel self total i batches hashes w
      = Some (Ret (hashes ++ settledHashes outs), w') /\
    initialRun env (turnsLeft self 0) (submissions w) batches outs
      (submissions w') /\
    map summary (storedRecords w') =
      map summary (storedRecords w) ++ failuresFrom i batches outs.
Proof.
  intros Hdisk Hproper Hfuel batches.
  induction batches as [|b rest IH]; intros i hashes w.
  - exists [], w. cbn. rewrite !app_nil_r. repeat split; constructor.
  - destruct (@processBatch_run env fuel self total i b hashes w Hdisk Hproper Hfuel)
      as (o & n & w1 & Hbody & Hone & Hsub & Hstore).
    destruct (IH (S i) (hashes ++ settledHashes [o]) w1)
      as (outs & w' & Hloop & Hrest & Hstore').
    exists (o :: outs), w'. split; [|split].
    + cbn [batchLoop]. unfold bind. rewrite Hbody, Hloop.
      rewrite <- app_assoc. do 3 f_equal. cbn. now rewrite app_nil_r.
    + apply initialRun_cons with (n := n); [exact Hone|].
      rewrite <- Hsub. exact Hrest.
    + rewrite failuresFrom_cons, Hstore', Hstore, app_assoc. reflexivity.
Qed.

(** C3. Failure persistence and continuation: on a healthy disk, with
    enough fuel and hashes that are not empty, [processBatches] returns
    normally after giving every batch its turn, one after the other on
    the submissions of this run.  A batch settles with the hash of the
    first of its submissions that the Transaction Builder answers; a
    batch whose submissions all fail is exhausted, and it has added to
    the store a failure record with its number, its recipients as the
    batcher cut them and the message of the error of its last
    submission; the batches after it are processed all the same.  The
    hashes returned are those of the batches that settled, in the order
    of the batches. *)
Theorem processBatches_outcomes (env : Env) (fuel : nat) (self : t)
    (rs : list Recipient) (n : Z) (w : World) :
  healthy env ->
  properHashes env ->
  batchSize self = Int n ->
  1 <= n ->
  (List.length rs < fuel)%nat ->
  (turnsLeft self 0 < fuel)%nat ->
  exists batches outs w',
    splitIntoBatches fuel self rs = Some batches /\
    processBatches env fuel self rs w = Some (Ret (settledHashes outs), w') /\
    initialRun env (turnsLeft self 0) (submissions w) batches outs
      (submissions w') /\
    map summary (storedRecords w') =
      map summary (storedRecords w) ++ failuresFrom 0 batches outs.
Proof.
  intros Hdisk Hproper Hsize Hn Hlen Hfuel.
  destruct (@BatcherFacts.splitLoop_spec rs n Hn fuel 0 [])
    as (batches & Hsplit & _); try lia.
  cbn [app] in Hsplit.
  destruct (@batchLoop_run env fuel self (List.length batches) Hdisk Hproper
              Hfuel batches 0%nat [] w) as (outs & w' & Hloop & Hrun & Hstore).
  exists batches, outs, w'.
  unfold processBatches, splitIntoBatches. rewrite Hsize, Hsplit.
  repeat split; assumption.
Qed.

Lemma processBatches_retry_bound_witness :
  exists batches marks w',
    splitIntoBatches 5 (new (Int 2) (Int 1) (Int 5000))
      [Stub.alice; Stub.bob; Stub.carol] = Some batches /\
    List.length marks = List.length batches /\
    processBatches
      (Stub.env (fun _ => Stub.unreachable "ECONNREFUSED") Stub.healthyDisk [])
      5 (new (Int 2) (Int 1) (Int 5000)) [Stub.alice; Stub.bob; Stub.carol]
      Stub.emptyWorld = Some (Ret [], w') /\
    submissions w' = (0 + List.length batches * 2)%nat /\
    dispatchTrace (trace w') =
      [] ++ exhaustedTrace 2 (Int 5000) (List.length batches) 0 [] batches marks.
Proof.
  apply (@processBatches_retry_bound
           (Stub.env (fun _ => Stub.unreachable "ECONNREFUSED") Stub.healthyDisk [])
           5 (new (Int 2) (Int 1) (Int 5000)) [Stub.alice; Stub.bob; Stub.carol]
           2 1 Stub.emptyWorld).
  - intros rs w. do 2 eexists. reflexivity.
  - intros k. reflexivity.
  - reflexivity.
  - lia.
  - reflexivity.
  - lia.
  - simpl. lia.
  - simpl. lia.
Defined.

(** The run of the witness above, event by event. *)
Example processBatches_retry_bound_run :
  exists w',
    processBatches
      (Stub.env (fun _ => Stub.unreachable "ECONNREFUSED") Stub.healthyDisk [])
      5 (new (Int 2) (Int 1) (Int 5000)) [Stub.alice; Stub.bob; Stub.carol]
      Stub.emptyWorld = Some (Ret [], w') /\
    dispatchTrace (trace w') =
      [EvExecute [Stub.alice; Stub.bob]; EvSleep (Int 5000);
       EvExecute [Stub.alice; Stub.bob];
       EvWriteStore
         [mkFailedBatch 1 [Stub.alice; Stub.bob] "ECONNREFUSED" "t4"];
       EvSleep (Int 10000);
       EvExecute [Stub.carol]; EvSleep (Int 5000);
       EvExecute [Stub.carol];
       EvWriteStore
         [mkFailedBatch 1 [Stub.alice; Stub.bob] "ECONNREFUSED" "t4";
          mkFailedBatch 2 [Stub.carol] "ECONNREFUSED" "t10"]].
Proof. eexists. split; [vm_compute; reflexivity|]. reflexivity. Qed.

Lemma processBatches_outcomes_witness :
  exists batches outs w',
    splitIntoBatches 5 (new (Int 2) (Int 1) (Int 5000))
      [Stub.alice; Stub.bob; Stub.carol] = Some batches /\
    processBatches
      (Stub.env (fun k => match k with
                          | O => Stub.unreachable "ECONNREFUSED"
                          | S O => Stub.rejects "timeout"
                          | _ => Stub.settles "HASH"
                          end) Stub.healthyDisk [])
      5 (new (Int 2) (Int 1) (Int 5000)) [Stub.alice; Stub.bob; Stub.carol]
      Stub.emptyWorld = Some (Ret (settledHashes outs), w') /\
    initialRun
      (Stub.env (fun k => match k with
                          | O => Stub.unreachable "ECONNREFUSED"
                          | S O => Stub.rejects "timeout"
                          | _ => Stub.settles "HASH"
                          end) Stub.healthyDisk [])
      (turnsLeft (new (Int 2) (Int 1) (Int 5000)) 0)
      (submissions Stub.emptyWorld) batches outs (submissions w') /\
    map summary (storedRecords w') =
      map summary (storedRecords Stub.emptyWorld) ++ failuresFrom 0 batches outs.
Proof.
  apply (@processBatches_outcomes
           (Stub.env (fun k => match k with
                               | O => Stub.unreachable "ECONNREFUSED"
                               | S O => Stub.rejects "timeout"
                               | _ => Stub.settles "HASH"
                               end) Stub.healthyDisk [])
           5 (new (Int 2) (Int 1) (Int 5000)) [Stub.alice; Stub.bob; Stub.carol] 2
           Stub.emptyWorld).
  - intros k. reflexivity.
  - intros [|[|k]] h; simpl; intros H; try discriminate;
      injection H as <-; reflexivity.
  - reflexivity.
  - lia.
  - simpl. lia.
  - unfold turnsLeft. simpl. lia.
Defined.

(** The run of the witness above: the first submission of batch 1 finds
    the chain unreachable and the second is rejected with a timeout, so
    the batch is exhausted after two submissions and recorded, with its
    two recipients, under the error of the second; batch 2 settles on
    the third submission of the run. *)
Example processBatches_outcomes_run :
  exists w',
    processBatches
      (Stub.env (fun k => match k with
                          | O => Stub.unreachable "ECONNREFUSED"
                          | S O => Stub.rejects "timeout"
                          | _ => Stub.settles "HASH"
                          end) Stub.healthyDisk [])
      5 (new (Int 2) (Int 1) (Int 5000)) [Stub.alice; Stub.bob; Stub.carol]
      Stub.emptyWorld = Some (Ret ["HASH"], w') /\
    map summary (storedRecords w') = [(1, [Stub.alice; Stub.bob], "timeout")] /\
    submissions w' = 3%nat.
Proof. eexists. split; [vm_compute; reflexivity|]. split; reflexivity. Qed.

(** The outcomes of that run, read on the answers of the builder: batch
    1 is exhausted with the error of its second submission, and not with
    the one of its first. *)
Example processBatches_outcomes_last_error :
  initialRun
    (Stub.env (fun k => match k with
                        | O => Stub.unreachable "ECONNREFUSED"
                        | S O => Stub.rejects "timeout"
                        | _ => Stub.settles "HASH"
                        end) Stub.healthyDisk [])
    2 0 [[Stub.alice; Stub.bob]; [Stub.carol]]
    [Exhausted "timeout"; Settled "HASH"] 3 /\
  ~ initialRun
      (Stub.env (fun k => match k with
                          | O => Stub.unreachable "ECONNREFUSED"
                          | S O => Stub.rejects "timeout"
                          | _ => Stub.settles "HASH"
                          end) Stub.healthyDisk [])
      2 0 [[Stub.alice; Stub.bob]; [Stub.carol]]
      [Exhausted "ECONNREFUSED"; Settled "HASH"] 3.
Proof.
  split.
  - apply initialRun_cons with (n := 2%nat).
    + apply run_exhausted with (last := 1%nat); [reflexivity| |reflexivity].
      intros [|i] Hi; [|lia]. eexists. reflexivity.
    + apply initialRun_cons with (n := 1%nat); [|apply initialRun_nil].
      apply run_settled; [lia| |reflexivity].
      intros i Hi. lia.
  - intros Hrun. inversion Hrun as [|s b batches o n outs s' Hfirst Hrest]; subst.
    inversion Hfirst as [| last e Hturns Hbefore Hlast |]; subst.
    injection Hturns as <-. discriminate Hlast.
Qed.

(** C4, as the code has it. When a batch settles in the initial run, its
    hash joins the result and a settlement line with the batch number,
    the number of recipients and the hash is appended to the log; the
    failure store is left as it was, so a failure record with that batch
    number, from an earlier run, stays in it. *)
Theorem processBatch_success_keeps_store (env : Env) (fuel : nat) (self : t)
    (total i : nat) (b : list Recipient) (hashes : list string) (w w1 : World)
    (hash : string) (lastError : option string) :
  attempts env fuel self b 0 None w = Some (Ret (Some hash, lastError), w1) ->
  e_writeError env (fsWrites w) = None ->
  exists time w',
    processBatch env fuel self total i b hashes w
      = Some (Ret (hashes ++ [hash]), w') /\
    hashesFile w' =
      hashesFile w ++ [HashEntry (Z.of_nat i + 1) (List.length b) hash time false] /\
    failedBatchesFile w' = failedBatchesFile w /\
    (forall r, In r (storedRecords w) -> batchNumber r = Z.of_nat i + 1 ->
               In r (storedRecords w')).
Proof.
  intros Hrun Hdisk.
  destruct (@processBatch_settled env fuel self total i b hashes w w1 hash
              lastError Hrun Hdisk) as (time & w' & Hbody & Hlog & Hstore).
  exists time, w'. repeat split; try assumption.
  intros r Hin _. unfold storedRecords in *. now rewrite Hstore.
Qed.

Lemma processBatch_success_keeps_store_witness :
  exists time w',
    processBatch (Stub.env (fun _ => Stub.settles "HASH") Stub.healthyDisk [])
      5 (new (Int 2) (Int 3) (Int 5000)) 1 0 [Stub.alice; Stub.bob] []
      (mkWorld [] (Stored [mkFailedBatch 1 [Stub.alice; Stub.bob] "timeout" "t0"])
         0 0 [])
      = Some (Ret ([] ++ ["HASH"]), w') /\
    hashesFile w' =
      [] ++ [HashEntry (Z.of_nat 0 + 1) (List.length [Stub.alice; Stub.bob])
               "HASH" time false] /\
    failedBatchesFile w' =
      Stored [mkFailedBatch 1 [Stub.alice; Stub.bob] "timeout" "t0"] /\
    (forall r,
        In r (storedRecords
                (mkWorld [] (Stored [mkFailedBatch 1 [Stub.alice; Stub.bob]
                                       "timeout" "t0"]) 0 0 [])) ->
        batchNumber r = Z.of_nat 0 + 1 ->
        In r (storedRecords w')).
Proof.
  refine (@processBatch_success_keeps_store
            (Stub.env (fun _ => Stub.settles "HASH") Stub.healthyDisk [])
            5 (new (Int 2) (Int 3) (Int 5000)) 1 0 [Stub.alice; Stub.bob] []
            (mkWorld [] (Stored [mkFailedBatch 1 [Stub.alice; Stub.bob] "timeout" "t0"])
               0 0 [])
            _ "HASH" None _ _).
  - vm_compute. reflexivity.
  - reflexivity.
Defined.

(** C4, counterexample. Batch 1 was recorded as failed by an earlier run;
    the initial run now settles it, appends its settlement line, and the
    failure record of batch 1 is still in the store. *)
Lemma processBatches_leaves_failure_record :
  exists w',
    processBatches (Stub.env (fun _ => Stub.settles "HASH") Stub.healthyDisk [])
      5 (new (Int 2) (Int 3) (Int 5000)) [Stub.alice; Stub.bob]
      (mkWorld [] (Stored [mkFailedBatch 1 [Stub.alice; Stub.bob] "timeout" "t0"])
         0 0 [])
      = Some (Ret ["HASH"], w') /\
    hashesFile w' = [HashEntry 1 2 "HASH" "t3" false] /\
    failedBatchesFile w' =
      Stored [mkFailedBatch 1 [Stub.alice; Stub.bob] "timeout" "t0"].
Proof. eexists. split; [vm_compute; reflexivity|]. split; reflexivity. Qed.

(** The [catch] block when one of its two writes fails: the disk's error
    is thrown out of it, the failure store stays as it was. *)
Lemma onError_throws (env : Env) (total i : nat) (b : list Recipient)
    (msg ioErr : string) (w : World) :
  e_writeError env (fsWrites w) = Some ioErr \/
  (e_writeError env (fsWrites w) = None /\
   e_writeError env (S (fsWrites w)) = Some ioErr) ->
  exists w',
    onError env total i b msg w = Some (Throw ioErr, w') /\
    submissions w' = submissions w /\
    failedBatchesFile w' = failedBatchesFile w.
Proof.
  intros [Hlog | [Hlog Hstore]]; unfold onError.
  - unfold bind at 1. unfold now.
    unfold bind at 1. unfold appendHashes, fsWrite. rewrite Hlog.
    eexists. split; [reflexivity|]. split; reflexivity.
  - set (w1 := setHashesFile
                 (hashesFile w ++ [ErrorEntry (Z.of_nat i + 1) (List.length b) msg
                                     (e_now env (List.length (trace w)))])
                 (mkWorld (hashesFile w) (failedBatchesFile w) (submissions w)
                    (S (fsWrites w))
                    (trace w ++ [EvAppendLog
                                   (ErrorEntry (Z.of_nat i + 1) (List.length b) msg
                                      (e_now env (List.length (trace w))))]))).
    destruct (@saveFailedBatch_throws env (Z.of_nat i + 1) b msg ioErr w1 Hstore)
      as (w2 & Hsave & Hf & _ & Hsub).
    exists w2. split.
    + unfold bind at 1. unfold now.
      unfold bind at 1. unfold appendHashes, fsWrite. rewrite Hlog.
      erewrite (@bind_throw unit unit _ _ _ w2); [reflexivity|exact Hsave].
    + rewrite Hsub, Hf. split; reflexivity.
Qed.

(** C8, as the code has it. When a batch is exhausted and the write of
    its error line to the log, or the write of its failure record to the
    store, fails, the disk's error leaves the loop of [processBatches]:
    the run stops there, no later batch is submitted and the failure
    store stays as it was. *)
Theorem batchLoop_failed_record_is_fatal (env : Env) (fuel : nat) (self : t)
    (total i : nat) (b : list Recipient) (rest : list (list Recipient))
    (hashes : list string) (w w1 : World) (lastError : option string)
    (ioErr : string) :
  attempts env fuel self b 0 None w = Some (Ret (None, lastError), w1) ->
  e_writeError env (fsWrites w) = Some ioErr \/
  (e_writeError env (fsWrites w) = None /\
   e_writeError env (S (fsWrites w)) = Some ioErr) ->
  exists w',
    batchLoop env fuel self total i (b :: rest) hashes w = Some (Throw ioErr, w') /\
    submissions w' = submissions w1 /\
    failedBatchesFile w' = failedBatchesFile w.
Proof.
  intros Hrun Hdisk.
  destruct (attempts_frame _ _ _ _ _ _ _ Hrun) as (Hh & Hf & Hfs).
  rewrite <- Hfs in Hdisk.
  set (msg := match lastError with
              | Some e => e
              | None => "All retry attempts failed"
              end).
  destruct (@onError_throws env total i b msg ioErr w1 Hdisk)
    as (w' & Herr & Hsub & Hstore).
  exists w'. split; [|rewrite Hsub, Hstore, Hf; split; reflexivity].
  cbn [batchLoop]. unfold bind at 1. unfold processBatch. unfold bind at 1.
  rewrite Hrun. fold msg. unfold bind. rewrite Herr. reflexivity.
Qed.

Lemma batchLoop_failed_record_is_fatal_witness :
  exists w',
    batchLoop
      (Stub.env (fun _ => Stub.rejects "timeout") (Stub.brokenDisk "ENOSPC") [])
      5 (new (Int 2) (Int 1) (Int 5000)) 2 0
      ([Stub.alice; Stub.bob] :: [[Stub.carol]]) [] Stub.emptyWorld
      = Some (Throw "ENOSPC", w') /\
    submissions w' = 2%nat /\
    failedBatchesFile w' = failedBatchesFile Stub.emptyWorld.
Proof.
  refine (@batchLoop_failed_record_is_fatal
            (Stub.env (fun _ => Stub.rejects "timeout") (Stub.brokenDisk "ENOSPC") [])
            5 (new (Int 2) (Int 1) (Int 5000)) 2 0 [Stub.alice; Stub.bob]
            [[Stub.carol]] [] Stub.emptyWorld
            (mkWorld [] Absent 2 0 _) (Some "timeout") "ENOSPC" _ _).
  - vm_compute. reflexivity.
  - left. reflexivity.
Defined.

(** C8, counterexample. Both batches settle on the chain; the disk fails
    the write of the settlement line of batch 1 and no other write.  The
    error is caught by the loop body: batch 1 gets an error line and a
    failure record, batch 2 is submitted, and the run returns normally
    with both hashes. *)
Lemma processBatches_swallows_log_error :
  exists w',
    processBatches
      (Stub.env (fun _ => Stub.settles "HASH") (Stub.failsFirstWrite "ENOSPC") [])
      5 (new (Int 2) (Int 3) (Int 5000)) [Stub.alice; Stub.bob; Stub.carol]
      Stub.emptyWorld
      = Some (Ret ["HASH"; "HASH"], w') /\
    hashesFile w' =
      [ErrorEntry 1 2 "ENOSPC" "t4"; HashEntry 2 1 "HASH" "t10" false] /\
    failedBatchesFile w' =
      Stored [mkFailedBatch 1 [Stub.alice; Stub.bob] "ENOSPC" "t5"] /\
    submissions w' = 2%nat.
Proof. eexists. split; [vm_compute; reflexivity|]. repeat split; reflexivity. Qed.
End BatchProcessorFacts.

(** ** Resume *)

Module RetrierFacts.
Import FailedBatchRetrier.

(** The [try] block on a builder that fails this submission: the error
    is thrown before anything reaches the ledger. *)
Lemma settle_fails (env : Env) (n : Z) (rec : FailedBatch) (w w1 : World)
    (e : string) :
  MultiSendService.executeMultiSend env (recipients rec) w = Some (Throw e, w1) ->
  settle env n rec w = Some (Throw e, w1) /\
  hashesFile w1 = hashesFile w /\
  failedBatchesFile w1 = failedBatchesFile w /\
  fsWrites w1 = fsWrites w /\
  submissions w1 = S (submissions w) /\
  dispatchTrace (trace w1) = dispatchTrace (trace w) ++ [EvExecute (recipients rec)].
Proof.
  intros Hexec.
  destruct (MultiSendFacts.executeMultiSend_frame env (recipients rec) w)
    as (o & w1' & Hexec' & Hh & Hf & Hfs & Hsub & Htr).
  rewrite Hexec in Hexec'. injection Hexec' as <- <-.
  split; [|auto 6].
  unfold settle, bind. rewrite Hexec. reflexivity.
Qed.

(** The [try] block counts as one submission, whatever happens. *)
Lemma settle_counts (env : Env) (n : Z) (rec : FailedBatch) (w : World) :
  exists o w', settle env n rec w = Some (o, w') /\
               submissions w' = S (submissions w).
Proof.
  destruct (MultiSendFacts.executeMultiSend_frame env (recipients rec) w)
    as (o & w1 & Hexec & _ & _ & _ & Hsub & _).
  unfold settle, bind. rewrite Hexec. destruct o as [hash|e]; [|eauto].
  unfold saveTransactionHash, now, appendHashes, fsWrite, bind. cbn.
  destruct (e_writeError env (fsWrites w1)); [eauto|].
  unfold removeFromFailedBatches, writeStore, fsWrite, tryCatch, ret, setHashesFile. cbn.
  destruct (failedBatchesFile w1); cbn; [eauto|eauto|].
  destruct (e_writeError env (S (fsWrites w1))); cbn; eauto.
Qed.

(** The [try] block on a healthy disk with a readable store: when it
    returns, the batch number is gone from the store; when it throws,
    the store is as before. *)
Lemma settle_healthy (env : Env) (n : Z) (rec : FailedBatch) (w : World)
    (l : list FailedBatch) :
  healthy env ->
  failedBatchesFile w = Stored l ->
  exists o w',
    settle env n rec w = Some (o, w') /\
    match o with
    | Ret _ =>
        failedBatchesFile w' =
          Stored (filter (fun batch => negb (batchNumber batch =? n)) l)
    | Throw _ => failedBatchesFile w' = Stored l
    end.
Proof.
  intros Hdisk Hstore.
  destruct (MultiSendFacts.executeMultiSend_frame env (recipients rec) w)
    as (o & w1 & Hexec & _ & Hf & _ & _ & _).
  unfold settle, bind. rewrite Hexec. destruct o as [hash|e].
  2:{ do 2 eexists. split; [reflexivity|]. cbn. now rewrite Hf. }
  unfold saveTransactionHash, now, appendHashes, fsWrite, bind. cbn.
  rewrite (Hdisk (fsWrites w1)).
  unfold removeFromFailedBatches, writeStore, fsWrite, tryCatch, ret, setHashesFile. cbn.
  rewrite Hf, Hstore. cbn. rewrite (Hdisk (S (fsWrites w1))).
  do 2 eexists. split; [reflexivity|]. reflexivity.
Qed.

(** The loop of [retryBatch], one turn unfolded. *)
Lemma retries_unfold (env : Env) (fuel : nat) (n : Z) (limit : number)
    (rec : FailedBatch) (rc : Z) (w : World) :
  retries env (S fuel) n limit rec rc w =
  if num_lt (Int rc) limit then
    match settle env n rec w with
    | None => None
    | Some (Ret true, w1) => Some (Ret true, w1)
    | Some (Ret false, w1) => retries env fuel n limit rec (rc + 1) w1
    | Some (Throw _, w1) =>
        retries env fuel n limit rec (rc + 1)
          (if num_lt (Int (rc + 1)) limit
           then observe (EvSleep (Int 10000)) w1 else w1)
    end
  else Some (Ret false, w).
Proof.
  cbn [retries]. destruct (num_lt (Int rc) limit); [|reflexivity].
  unfold bind at 1. unfold tryCatch.
  destruct (settle env n rec w) as [[[[|]|e] w1]|]; try reflexivity.
  unfold bind at 1. unfold when, sleep, emit, ret.
  destruct (num_lt (Int (rc + 1)) limit); reflexivity.
Qed.

(** On a healthy disk a resume that succeeds has removed the batch
    number from the store. *)
Lemma retries_success_removes (env : Env) (n : Z) (limit : number)
    (rec : FailedBatch) (l : list FailedBatch) :
  healthy env ->
  forall (fuel : nat) (rc : Z) (w w' : World),
    failedBatchesFile w = Stored l ->
    retries env fuel n limit rec rc w = Some (Ret true, w') ->
    failedBatchesFile w' =
      Stored (filter (fun batch => negb (batchNumber batch =? n)) l).
Proof.
  intros Hdisk fuel. induction fuel as [|fuel IH]; intros rc w w' Hstore Hrun.
  - discriminate.
  - rewrite retries_unfold in Hrun.
    destruct (num_lt (Int rc) limit); [|discriminate].
    destruct (@settle_healthy env n rec w l Hdisk Hstore) as (o & w1 & Hsettle & Hafter).
    rewrite Hsettle in Hrun. destruct o as [[|]|e].
    + injection Hrun as <-. exact Hafter.
    + exfalso. revert Hsettle. unfold settle, bind.
      destruct (MultiSendService.executeMultiSend env (recipients rec) w)
        as [[[hash|e] w2]|]; try discriminate.
      destruct (saveTransactionHash env n hash _ w2) as [[[[]|e] w3]|];
        try discriminate.
      destruct (removeFromFailedBatches env n w3) as [[[[]|e] w4]|];
        discriminate.
    + apply IH in Hrun; [exact Hrun|].
      destruct (num_lt (Int (rc + 1)) limit); exact Hafter.
Qed.

(** The loop of [retryBatch] on a builder that always fails: as many
    submissions as turns are left, ten seconds apart. *)
Lemma retries_always_fail (env : Env) (n : Z) (rec : FailedBatch) (m : Z) :
  alwaysFails env ->
  forall (k fuel : nat) (rc : Z) (w : World),
    k = Z.to_nat (m - rc) ->
    (k < fuel)%nat ->
    exists w',
      retries env fuel n (Int m) rec rc w = Some (Ret false, w') /\
      hashesFile w' = hashesFile w /\
      failedBatchesFile w' = failedBatchesFile w /\
      submissions w' = (submissions w + k)%nat /\
      dispatchTrace (trace w') =
        dispatchTrace (trace w) ++ submissionsOf k (Int 10000) (recipients rec).
Proof.
  intros Hfail k. induction k as [|k IH]; intros fuel rc w Hk Hfuel;
    (destruct fuel as [|fuel]; [lia|]); rewrite retries_unfold; cbn [num_lt].
  - destruct (rc <? m) eqn:E; [apply Z.ltb_lt in E; lia|].
    exists w. cbn. rewrite app_nil_r, Nat.add_0_r. auto.
  - destruct (rc <? m) eqn:E; [|apply Z.ltb_ge in E; lia].
    destruct (Hfail (recipients rec) w) as (e & w1 & Hexec).
    destruct (@settle_fails env n rec w w1 e Hexec)
      as (Hsettle & Hh & Hf & _ & Hsub & Htr).
    rewrite Hsettle.
    destruct (IH fuel (rc + 1)
                (if rc + 1 <? m then observe (EvSleep (Int 10000)) w1 else w1))
      as (w' & Hrun & Hh' & Hf' & Hsub' & Htr'); try lia.
    exists w'. split; [exact Hrun|].
    rewrite Hh', Hf', Hsub', Htr'.
    destruct (rc + 1 <? m) eqn:E'; cbn [hashesFile failedBatchesFile submissions
                                          trace observe].
    + apply Z.ltb_lt in E'.
      destruct k as [|k]; [lia|].
      rewrite dispatchTrace_app, Htr, Hh, Hf, Hsub. cbn. rewrite <- !app_assoc.
      cbn. repeat split; auto; lia.
    + apply Z.ltb_ge in E'.
      destruct k as [|k]; [|lia].
      rewrite Htr, Hh, Hf, Hsub. cbn. rewrite app_nil_r.
      repeat split; auto; lia.
Qed.

(** The loop of [retryBatch] ends within the turns it has left and
    submits at most once per turn, whatever the chain and the disk do. *)
Lemma retries_bound (env : Env) (n : Z) (rec : FailedBatch) (m : Z) :
  forall (k fuel : nat) (rc : Z) (w : World),
    k = Z.to_nat (m - rc) ->
    (k < fuel)%nat ->
    exists r w',
      retries env fuel n (Int m) rec rc w = Some (Ret r, w') /\
      (submissions w' <= submissions w + k)%nat.
Proof.
  intros k. induction k as [|k IH]; intros fuel rc w Hk Hfuel;
    (destruct fuel as [|fuel]; [lia|]); rewrite retries_unfold; cbn [num_lt].
  - destruct (rc <? m) eqn:E; [apply Z.ltb_lt in E; lia|].
    exists false, w. split; [reflexivity|lia].
  - destruct (rc <? m) eqn:E; [|apply Z.ltb_ge in E; lia].
    destruct (settle_counts env n rec w) as (o & w1 & Hsettle & Hsub).
    rewrite Hsettle. destruct o as [[|]|e].
    + exists true, w1. split; [reflexivity|lia].
    + destruct (IH fuel (rc + 1) w1) as (r & w' & Hrun & Hle); try lia.
      exists r, w'. split; [exact Hrun|lia].
    + destruct (IH fuel (rc + 1)
                  (if rc + 1 <? m then observe (EvSleep (Int 10000)) w1 else w1))
        as (r & w' & Hrun & Hle); try lia.
      exists r, w'. split; [exact Hrun|].
      destruct (rc + 1 <? m); cbn in Hle; lia.
Qed.

Lemma find_none_noRecord (n : Z) (l : list FailedBatch) :
  (forall r, In r l -> batchNumber r <> n) ->
  find (fun batch => batchNumber batch =? n) l = None.
Proof.
  induction l as [|r l IH]; intros Hno; [reflexivity|].
  cbn. destruct (batchNumber r =? n) eqn:E.
  - apply Z.eqb_eq in E. exfalso. apply (Hno r); [now left|exact E].
  - apply IH. intros r' Hin. apply Hno. now right.
Qed.

(** [retryBatch] on a batch number the store does not hold. *)
Lemma retryBatch_missing (env : Env) (fuel : nat) (n : Z) (limit : number)
    (w : World) :
  noRecord n w ->
  retryBatch env fuel n limit w
  = Some (Ret false, observe (EvError (notFound n)) w).
Proof.
  intros Hno. unfold retryBatch, getFailedBatches, bind.
  unfold noRecord, storedRecords in Hno.
  destruct (failedBatchesFile w) as [| |l]; cbn; try reflexivity.
  rewrite (@find_none_noRecord n l Hno). reflexivity.
Qed.

(** C5, as the code has it. Resume of one batch number, not found and
    idempotence: when the store holds no failure record with the number,
    [retryBatch] returns [false] after printing the not-found error,
    without a submission and with the log and the store as they were; and
    on a disk whose writes succeed, after a resume of the number that
    returned [true], the store holds no record with it, so that a second
    resume is such a not-found one.  The condition on the disk is needed:
    [removeFromFailedBatches] catches the error of a failed write of the
    store and only logs it. *)
Theorem retryBatch_not_found_idempotent (env : Env) (fuel : nat) (n : Z)
    (limit : number) (w : World) :
  (noRecord n w ->
   exists w',
     retryBatch env fuel n limit w = Some (Ret false, w') /\
     hashesFile w' = hashesFile w /\
     failedBatchesFile w' = failedBatchesFile w /\
     submissions w' = submissions w /\
     trace w' = trace w ++ [EvError (notFound n)]) /\
  (healthy env ->
   forall w1, retryBatch env fuel n limit w = Some (Ret true, w1) ->
   noRecord n w1 /\
   forall fuel' limit',
   exists w2,
     retryBatch env fuel' n limit' w1 = Some (Ret false, w2) /\
     hashesFile w2 = hashesFile w1 /\
     failedBatchesFile w2 = failedBatchesFile w1 /\
     submissions w2 = submissions w1 /\
     trace w2 = trace w1 ++ [EvError (notFound n)]).
Proof.
  split.
  - intros Hno. rewrite (retryBatch_missing env fuel limit Hno).
    eexists. split; [reflexivity|]. cbn. auto.
  - intros Hdisk w1 Hrun.
    assert (Hgone : noRecord n w1).
    { unfold retryBatch, getFailedBatches, bind in Hrun.
      destruct (failedBatchesFile w) as [| |l] eqn:Hstore; cbn in Hrun;
        try discriminate.
      destruct (find (fun batch => batchNumber batch =? n) l) as [rec|];
        [|discriminate].
      apply (@retries_success_removes env n limit rec l Hdisk) in Hrun;
        [|exact Hstore].
      unfold noRecord, storedRecords. rewrite Hrun.
      intros r Hin. apply filter_In in Hin. destruct Hin as [_ Hne].
      apply negb_true_iff, Z.eqb_neq in Hne. exact Hne. }
    split; [exact Hgone|].
    intros fuel' limit'. rewrite (retryBatch_missing env fuel' limit' Hgone).
    eexists. split; [reflexivity|]. cbn. auto.
Qed.

Lemma retryBatch_not_found_idempotent_witness :
  (exists w',
     retryBatch (Stub.env (fun _ => Stub.settles "HASH") Stub.healthyDisk [])
       5 7 (Int 3)
       (mkWorld [] (Stored [mkFailedBatch 1 [Stub.alice] "timeout" "t0"]) 0 0 [])
     = Some (Ret false, w') /\
     submissions w' = 0%nat) /\
  (exists w1 w2,
     retryBatch (Stub.env (fun _ => Stub.settles "HASH") Stub.healthyDisk [])
       5 1 (Int 3)
       (mkWorld [] (Stored [mkFailedBatch 1 [Stub.alice] "timeout" "t0"]) 0 0 [])
     = Some (Ret true, w1) /\
     retryBatch (Stub.env (fun _ => Stub.settles "HASH") Stub.healthyDisk [])
       5 1 (Int 3) w1
     = Some (Ret false, w2) /\
     submissions w2 = submissions w1).
Proof.
  split.
  - destruct (proj1 (@retryBatch_not_found_idempotent
                       (Stub.env (fun _ => Stub.settles "HASH") Stub.healthyDisk [])
                       5 7 (Int 3)
                       (mkWorld [] (Stored [mkFailedBatch 1 [Stub.alice] "timeout" "t0"])
                          0 0 [])))
      as (w' & Hrun & _ & _ & Hsub & _).
    + intros r [<-|[]]. simpl. lia.
    + exists w'. split; [exact Hrun|exact Hsub].
  - eexists.
    assert (Hfirst :
      retryBatch (Stub.env (fun _ => Stub.settles "HASH") Stub.healthyDisk [])
        5 1 (Int 3)
        (mkWorld [] (Stored [mkFailedBatch 1 [Stub.alice] "timeout" "t0"]) 0 0 [])
      = Some (Ret true, _)) by (vm_compute; reflexivity).
    destruct (proj2 (@retryBatch_not_found_idempotent
                       (Stub.env (fun _ => Stub.settles "HASH") Stub.healthyDisk [])
                       5 1 (Int 3)
                       (mkWorld [] (Stored [mkFailedBatch 1 [Stub.alice] "timeout" "t0"])
                          0 0 []))
                (fun k => eq_refl) _ Hfirst) as (_ & Hsecond).
    destruct (Hsecond 5%nat (Int 3)) as (w2 & Hrun & _ & _ & Hsub & _).
    exists w2. split; [exact Hfirst|]. split; [exact Hrun|exact Hsub].
Defined.

(** C5, counterexample. The chain settles every submission and the disk
    refuses the second write of the process, the one that rewrites the
    failure store.  The first resume of batch 1 broadcasts the transfer
    and returns [true]; [removeFromFailedBatches] catches the write error
    and logs it, so the record of batch 1 is still in the store.  The
    second resume of batch 1 does not fail with not found: it broadcasts
    the transfer again and returns [true] too. *)
Lemma retryBatch_twice_sends_twice :
  exists w1 w2,
    retryBatch
      (Stub.env (fun _ => Stub.settles "HASH")
         (fun k => match k with S O => Some "EACCES" | _ => None end) [])
      5 1 (Int 3)
      (mkWorld [] (Stored [mkFailedBatch 1 [Stub.alice] "timeout" "t0"]) 0 0 [])
    = Some (Ret true, w1) /\
    storedRecords w1 = [mkFailedBatch 1 [Stub.alice] "timeout" "t0"] /\
    retryBatch
      (Stub.env (fun _ => Stub.settles "HASH")
         (fun k => match k with S O => Some "EACCES" | _ => None end) [])
      5 1 (Int 3) w1
    = Some (Ret true, w2) /\
    submissions w2 = 2%nat /\
    List.length (filter isBroadcast (trace w2)) = 2%nat.
Proof.
  eexists. eexists. split; [vm_compute; reflexivity|].
  split; [reflexivity|]. split; [vm_compute; reflexivity|].
  split; reflexivity.
Qed.

(** [retryBatch] on a builder that always fails: as many submissions as
    [maxRetries], of the recipients of the first record with the number,
    and nothing changes in the ledger. *)
Lemma retryBatch_always_fail (env : Env) (fuel : nat) (n m : Z) (w : World)
    (l : list FailedBatch) :
  alwaysFails env ->
  failedBatchesFile w = Stored l ->
  (Z.to_nat m < fuel)%nat ->
  exists w',
    retryBatch env fuel n (Int m) w = Some (Ret false, w') /\
    hashesFile w' = hashesFile w /\
    failedBatchesFile w' = failedBatchesFile w /\
    submissions w' =
      (submissions w
       + match find (fun batch => (batchNumber batch =? n)%Z) l with
         | Some _ => Z.to_nat m
         | None => 0
         end)%nat /\
    dispatchTrace (trace w') =
      dispatchTrace (trace w)
        ++ match find (fun batch => batchNumber batch =? n) l with
           | Some rec => submissionsOf (Z.to_nat m) (Int 10000) (recipients rec)
           | None => []
           end.
Proof.
  intros Hfail Hstore Hfuel.
  unfold retryBatch, getFailedBatches, bind. rewrite Hstore. cbn.
  destruct (find (fun batch => batchNumber batch =? n) l) as [rec|].
  - destruct (@retries_always_fail env n rec m Hfail (Z.to_nat m) fuel 0 w)
      as (w' & Hrun & Hh & Hf & Hsub & Htr); [f_equal; lia|exact Hfuel|].
    exists w'. repeat split; congruence.
  - eexists. split; [reflexivity|]. cbn.
    rewrite dispatchTrace_app. cbn. rewrite !app_nil_r, Nat.add_0_r.
    repeat split; congruence.
Qed.

(** The loop of [retryAllBatches] on a builder that always fails. *)
Lemma retryLoop_always_fail (env : Env) (fuel : nat) (m : Z)
    (l : list FailedBatch) (total : nat) :
  alwaysFails env ->
  (Z.to_nat m < fuel)%nat ->
  forall (todo : list FailedBatch) (j : nat) (s f : Z) (w : World),
    failedBatchesFile w = Stored l ->
    exists w',
      retryLoop env fuel (Int m) total j todo s f w
        = Some (Ret (s, f + Z.of_nat (List.length todo)), w') /\
      failedBatchesFile w' = Stored l /\
      dispatchTrace (trace w') =
        dispatchTrace (trace w) ++ resumeAllTrace (Z.to_nat m) l total j todo.
Proof.
  intros Hfail Hfuel todo.
  induction todo as [|batch rest IH]; intros j s f w Hstore.
  - exists w. cbn. rewrite app_nil_r, Z.add_0_r. auto.
  - destruct (@retryBatch_always_fail env fuel (batchNumber batch) m w l
                Hfail Hstore Hfuel) as (w1 & Hrun & _ & Hf & _ & Htr).
    set (w2 := if negb (Nat.eqb j (total - 1))
               then observe (EvSleep (Int 5000)) w1 else w1).
    destruct (IH (S j) s (f + 1) w2) as (w' & Hloop & Hf' & Htr').
    { unfold w2. destruct (negb (Nat.eqb j (total - 1))); cbn; now rewrite Hf. }
    exists w'. split; [|split; [exact Hf'|]].
    + cbn [retryLoop]. unfold bind at 1. rewrite Hrun.
      unfold bind at 1. unfold when, sleep, emit, ret.
      replace (f + Z.of_nat (List.length (batch :: rest)))
        with (f + 1 + Z.of_nat (List.length rest)) by (cbn [List.length]; lia).
      rewrite <- Hloop. unfold w2.
      destruct (negb (Nat.eqb j (total - 1))); reflexivity.
    + rewrite Htr'. cbn [resumeAllTrace]. unfold w2.
      destruct (Nat.eqb j (total - 1)); cbn [negb observe trace];
        rewrite ?dispatchTrace_app, Htr; cbn; rewrite <- ?app_assoc; cbn;
        rewrite ?app_nil_r; reflexivity.
Qed.

(** C6, as the code has it. Resume makes up to [maxRetries] submissions
    for a failure record, not [maxRetries + 1]: [retryBatch] ends after at
    most [maxRetries] submissions whatever the chain does; when every
    submission fails it makes exactly [maxRetries] of them, all of the
    recipients of the first stored record with that batch number, with a
    fixed wait of ten seconds between two of them and none before the
    first, and leaves the store as it was; and [retryAllBatches] goes
    through the outstanding records in their stored order, one at a time,
    five seconds apart. *)
Theorem retryBatch_retry_bound (env : Env) (fuel : nat) (m : Z) (w : World)
    (l : list FailedBatch) :
  failedBatchesFile w = Stored l ->
  (Z.to_nat m < fuel)%nat ->
  (forall n rec,
      find (fun batch => batchNumber batch =? n) l = Some rec ->
      exists r w',
        retryBatch env fuel n (Int m) w = Some (Ret r, w') /\
        (submissions w' <= submissions w + Z.to_nat m)%nat) /\
  (alwaysFails env ->
   (forall n rec,
       find (fun batch => batchNumber batch =? n) l = Some rec ->
       exists w',
         retryBatch env fuel n (Int m) w = Some (Ret false, w') /\
         submissions w' = (submissions w + Z.to_nat m)%nat /\
         failedBatchesFile w' = failedBatchesFile w /\
         dispatchTrace (trace w') =
           dispatchTrace (trace w)
             ++ submissionsOf (Z.to_nat m) (Int 10000) (recipients rec)) /\
   (exists w',
       retryAllBatches env fuel (Int m) w
         = Some (Ret (0, Z.of_nat (List.length l)), w') /\
       dispatchTrace (trace w') =
         dispatchTrace (trace w)
           ++ resumeAllTrace (Z.to_nat m) l (List.length l) 0 l)).
Proof.
  intros Hstore Hfuel. split; [|intros Hfail; split].
  - intros n rec Hfind.
    unfold retryBatch, getFailedBatches, bind. rewrite Hstore. cbn. rewrite Hfind.
    apply retries_bound; [f_equal; lia|exact Hfuel].
  - intros n rec Hfind.
    destruct (@retryBatch_always_fail env fuel n m w l Hfail Hstore Hfuel)
      as (w' & Hrun & _ & Hf & Hsub & Htr).
    rewrite Hfind in Hsub, Htr. exists w'. auto.
  - unfold retryAllBatches, getFailedBatches, bind. rewrite Hstore. cbn.
    destruct l as [|batch rest] eqn:Hl.
    + exists w. cbn. rewrite app_nil_r. auto.
    + rewrite <- Hl in *.
      destruct (@retryLoop_always_fail env fuel m l (List.length l) Hfail Hfuel
                  l 0%nat 0 0 w Hstore) as (w' & Hloop & _ & Htr).
      exists w'. split; [exact Hloop|exact Htr].
Qed.

Lemma retryBatch_retry_bound_witness :
  (exists r w',
     retryBatch (Stub.env (fun _ => Stub.unreachable "ECONNREFUSED") Stub.healthyDisk [])
       5 2 (Int 3)
       (mkWorld []
          (Stored [mkFailedBatch 1 [Stub.alice] "timeout" "t0";
                   mkFailedBatch 2 [Stub.bob; Stub.carol] "timeout" "t1"]) 0 0 [])
     = Some (Ret r, w') /\
     (submissions w' <= 3)%nat) /\
  (exists w',
     retryBatch (Stub.env (fun _ => Stub.unreachable "ECONNREFUSED") Stub.healthyDisk [])
       5 2 (Int 3)
       (mkWorld []
          (Stored [mkFailedBatch 1 [Stub.alice] "timeout" "t0";
                   mkFailedBatch 2 [Stub.bob; Stub.carol] "timeout" "t1"]) 0 0 [])
     = Some (Ret false, w') /\
     submissions w' = 3%nat /\
     failedBatchesFile w' =
       Stored [mkFailedBatch 1 [Stub.alice] "timeout" "t0";
               mkFailedBatch 2 [Stub.bob; Stub.carol] "timeout" "t1"] /\
     dispatchTrace (trace w') =
       [EvExecute [Stub.bob; Stub.carol]; EvSleep (Int 10000);
        EvExecute [Stub.bob; Stub.carol]; EvSleep (Int 10000);
        EvExecute [Stub.bob; Stub.carol]]) /\
  (exists w',
     retryAllBatches
       (Stub.env (fun _ => Stub.unreachable "ECONNREFUSED") Stub.healthyDisk [])
       5 (Int 3)
       (mkWorld []
          (Stored [mkFailedBatch 1 [Stub.alice] "timeout" "t0";
                   mkFailedBatch 2 [Stub.bob; Stub.carol] "timeout" "t1"]) 0 0 [])
     = Some (Ret (0, 2), w') /\
     dispatchTrace (trace w') =
       [EvExecute [Stub.alice]; EvSleep (Int 10000);
        EvExecute [Stub.alice]; EvSleep (Int 10000);
        EvExecute [Stub.alice]; EvSleep (Int 5000);
        EvExecute [Stub.bob; Stub.carol]; EvSleep (Int 10000);
        EvExecute [Stub.bob; Stub.carol]; EvSleep (Int 10000);
        EvExecute [Stub.bob; Stub.carol]]).
Proof.
  destruct (@retryBatch_retry_bound
              (Stub.env (fun _ => Stub.unreachable "ECONNREFUSED") Stub.healthyDisk [])
              5 3
              (mkWorld []
                 (Stored [mkFailedBatch 1 [Stub.alice] "timeout" "t0";
                          mkFailedBatch 2 [Stub.bob; Stub.carol] "timeout" "t1"])
                 0 0 [])
              [mkFailedBatch 1 [Stub.alice] "timeout" "t0";
               mkFailedBatch 2 [Stub.bob; Stub.carol] "timeout" "t1"]
              eq_refl) as [Hbound Hfail].
  - simpl. lia.
  - split; [exact (Hbound 2 _ eq_refl)|].
    destruct Hfail as [Hone Hall].
    + intros rs w. do 2 eexists. reflexivity.
    + split; [exact (Hone 2 _ eq_refl)|exact Hall].
Defined.

(** C6, counterexample. The Transaction Builder fails every submission
    and [maxRetries] is 3.  The initial run submits the batch four times,
    [retryDelayMs] apart; the resume of the same batch submits it three
    times, ten seconds apart. *)
Lemma resume_is_not_the_initial_retry_loop :
  (exists w',
     BatchProcessor.processBatch
       (Stub.env (fun _ => Stub.unreachable "ECONNREFUSED") Stub.healthyDisk [])
       6 (BatchProcessor.new (Int 2) (Int 3) (Int 5000)) 1 0 [Stub.alice] []
       Stub.emptyWorld = Some (Ret [], w') /\
     submissions w' = 4%nat /\
     filter (fun ev => match ev with EvWriteStore _ => false | _ => true end)
            (dispatchTrace (trace w')) =
       [EvExecute [Stub.alice]; EvSleep (Int 5000);
        EvExecute [Stub.alice]; EvSleep (Int 5000);
        EvExecute [Stub.alice]; EvSleep (Int 5000);
        EvExecute [Stub.alice]]) /\
  (exists w',
     retryBatch
       (Stub.env (fun _ => Stub.unreachable "ECONNREFUSED") Stub.healthyDisk [])
       6 1 (Int 3)
       (mkWorld [] (Stored [mkFailedBatch 1 [Stub.alice] "ECONNREFUSED" "t0"]) 0 0 [])
     = Some (Ret false, w') /\
     submissions w' = 3%nat /\
     dispatchTrace (trace w') =
       [EvExecute [Stub.alice]; EvSleep (Int 10000);
        EvExecute [Stub.alice]; EvSleep (Int 10000);
        EvExecute [Stub.alice]]).
Proof.
  split; eexists; (split; [vm_compute; reflexivity|]); split; reflexivity.
Qed.

End RetrierFacts.

(** ** The command line *)

Module IndexFacts.
Import Index.

(** The initial run up to the dispatch loop: without a request for help
    and with a wallet secret, an address, a balance, recipients and a
    writable log, [main] queries the balance, starts a fresh log, hands
    the numbers of the command line as they are to the BatchProcessor and
    ends as [processBatches] does. *)
Lemma main_initial_run (env : Env) (argv : list string) (fuel : nat)
    (w : World) (senderAddress balance : string) (rs : list Recipient)
    (total : Z) :
  helpRequested argv = false ->
  retry (parseArgs env argv) = false ->
  validateConfig env = true ->
  e_address env = Ret senderAddress ->
  e_startBalance env = Ret balance ->
  e_csv env = Ret rs ->
  rs <> [] ->
  e_writeError env (fsWrites w) = None ->
  MultiSendService.totalAmount env rs = Ret total ->
  exists w1,
    BatchProcessor.construct env (batchSize (parseArgs env argv))
      (maxRetries (parseArgs env argv)) (retryDelay (parseArgs env argv))
      (observe EvGetBalance w)
    = Some (Ret (BatchProcessor.new (batchSize (parseArgs env argv))
                   (maxRetries (parseArgs env argv))
                   (retryDelay (parseArgs env argv))), w1) /\
    In EvGetBalance (trace w1) /\
    main env fuel argv w =
      match BatchProcessor.processBatches env fuel
              (BatchProcessor.new (batchSize (parseArgs env argv))
                 (maxRetries (parseArgs env argv))
                 (retryDelay (parseArgs env argv))) rs w1 with
      | None => None
      | Some (Ret _, w') => Some (Ret 0, w')
      | Some (Throw _, w') => Some (Ret 1, w')
      end.
Proof.
  intros Hhelp Hretry Hconfig Haddr Hbal Hcsv Hrs Hdisk Htotal.
  set (self := BatchProcessor.new (batchSize (parseArgs env argv))
                 (maxRetries (parseArgs env argv)) (retryDelay (parseArgs env argv))).
  assert (Hcons : exists w1,
             BatchProcessor.construct env (batchSize (parseArgs env argv))
               (maxRetries (parseArgs env argv)) (retryDelay (parseArgs env argv))
               (observe EvGetBalance w) = Some (Ret self, w1) /\
             In EvGetBalance (trace w1)).
  { unfold BatchProcessor.construct, now, fsWrite, bind, ret. cbn.
    rewrite Hdisk. eexists. split; [reflexivity|]. cbn.
    apply in_or_app. left. apply in_or_app. right. now left. }
  destruct Hcons as (w1 & Hcons & Hin).
  exists w1. split; [exact Hcons|]. split; [exact Hin|].
  unfold main, tryCatch. rewrite Hhelp, Hretry.
  unfold mainRun. rewrite Hconfig. cbn [negb].
  unfold bind at 1. unfold lift. rewrite Haddr.
  unfold bind at 1. unfold emit.
  unfold bind at 1. rewrite Hbal.
  unfold bind at 1. rewrite Hcsv.
  destruct rs as [|r rs']; [congruence|].
  unfold bind at 1. rewrite Hcons.
  unfold bind at 1. rewrite Htotal.
  unfold bind at 1. fold self.
  destruct (BatchProcessor.processBatches env fuel self (r :: rs') w1)
    as [[[hashes|e] w']|]; reflexivity.
Qed.





End IndexFacts.

(** * Further properties *)

(** ** The Batcher, continued *)

Module BatcherMore.
Import BatchProcessor.

Lemma ceil_step (d n : Z) :
  1 <= n -> 1 <= d ->
  (Z.max 0 d + n - 1) / n = 1 + (Z.max 0 (d - n) + n - 1) / n.
Proof.
  intros Hn Hd. rewrite (Z.max_r 0 d) by lia.
  destruct (Z.le_gt_cases n d) as [H|H].
  - rewrite (Z.max_r 0 (d - n)) by lia.
    replace (d + n - 1) with (d - n + n - 1 + 1 * n) by lia.
    rewrite Z.div_add by lia. lia.
  - rewrite (Z.max_l 0 (d - n)) by lia.
    rewrite (Z.div_small (0 + n - 1) n) by lia.
    symmetry. apply (Z.div_unique (d + n - 1) n 1 (d - 1)); lia.
Qed.

(** The loop from index [k] on: the number of chunks and what each one
    holds. *)
Lemma splitLoop_chunks (R : list Recipient) (n : Z) :
  1 <= n ->
  forall fuel k acc,
    0 <= k ->
    Z.max 0 (Z.of_nat (List.length R) - k) < Z.of_nat fuel ->
    exists chunks,
      splitLoop fuel (Int n) R (Int k) acc = Some (acc ++ chunks) /\
      Z.of_nat (List.length chunks)
        = (Z.max 0 (Z.of_nat (List.length R) - k) + n - 1) / n /\
      forall i, (i < List.length chunks)%nat ->
        nth_error chunks i
        = Some (firstn (Z.to_nat n) (skipn (Z.to_nat k + i * Z.to_nat n) R)).
Proof.
  intros Hn fuel. induction fuel as [|fuel IH]; intros k acc Hk Hfuel.
  - lia.
  - cbn [splitLoop num_lt num_add].
    destruct (k <? Z.of_nat (List.length R)) eqn:E.
    + apply Z.ltb_lt in E.
      destruct (IH (k + n) (acc ++ [slice R (Int k) (Int (k + n))]))
        as (chunks & Hrun & Hcount & Hnth); try lia.
      exists (slice R (Int k) (Int (k + n)) :: chunks).
      rewrite Hrun, <- app_assoc. split; [reflexivity|].
      rewrite BatcherFacts.slice_chunk by lia.
      split.
      * cbn [List.length]. rewrite Nat2Z.inj_succ, Hcount.
        rewrite (@ceil_step (Z.of_nat (List.length R) - k) n) by lia.
        replace (Z.of_nat (List.length R) - (k + n))
          with (Z.of_nat (List.length R) - k - n) by lia. lia.
      * intros [|i] Hi.
        -- cbn. rewrite Nat.add_0_r. reflexivity.
        -- cbn [nth_error]. cbn [List.length] in Hi.
           rewrite Hnth by lia. do 3 f_equal. lia.
    + apply Z.ltb_ge in E. exists []. rewrite app_nil_r.
      split; [reflexivity|]. split.
      * rewrite Z.max_l by lia. cbn. symmetry. apply Z.div_small. lia.
      * intros i Hi. cbn in Hi. lia.
Qed.

(** X1. For a batch size [n >= 1] the batcher cuts
    [ceil (length R / n)] batches, and batch [i], counted from zero, holds
    the [n] recipients from position [i * n] on (fewer at the end of the
    list): all batches but the last one are full. *)
Theorem splitIntoBatches_count_and_content (self : t) (R : list Recipient)
    (n : Z) (fuel : nat) :
  batchSize self = Int n ->
  1 <= n ->
  (List.length R < fuel)%nat ->
  exists batches,
    splitIntoBatches fuel self R = Some batches /\
    Z.of_nat (List.length batches) = (Z.of_nat (List.length R) + n - 1) / n /\
    forall i, (i < List.length batches)%nat ->
      nth_error batches i
      = Some (firstn (Z.to_nat n) (skipn (i * Z.to_nat n) R)).
Proof.
  intros Hsize Hn Hfuel. unfold splitIntoBatches. rewrite Hsize.
  destruct (@splitLoop_chunks R n Hn fuel 0 []) as (chunks & Hrun & Hcount & Hnth);
    try lia.
  exists chunks. cbn [app] in Hrun. split; [exact Hrun|]. split.
  - rewrite Hcount. rewrite Z.sub_0_r, Z.max_r by lia. reflexivity.
  - intros i Hi. rewrite (Hnth i Hi). reflexivity.
Qed.

Lemma splitIntoBatches_count_and_content_witness :
  exists batches,
    splitIntoBatches 4 (new (Int 2) (Int 3) (Int 5000))
      [Stub.alice; Stub.bob; Stub.carol] = Some batches /\
    Z.of_nat (List.length batches) = (3 + 2 - 1) / 2 /\
    forall i, (i < List.length batches)%nat ->
      nth_error batches i
      = Some (firstn 2 (skipn (i * 2) [Stub.alice; Stub.bob; Stub.carol])).
Proof.
  apply (@splitIntoBatches_count_and_content (new (Int 2) (Int 3) (Int 5000))
           [Stub.alice; Stub.bob; Stub.carol] 2 4).
  - reflexivity.
  - lia.
  - simpl. lia.
Defined.

(** X2. A batch size that is [NaN], as [parseInt] gives for
    [--batch-size=abc], makes the batcher return one batch, which is
    empty, for any list of recipients that is not empty. *)
Theorem splitIntoBatches_NaN (self : t) (R : list Recipient) (fuel : nat) :
  batchSize self = NaN ->
  R <> [] ->
  splitIntoBatches (S (S fuel)) self R = Some [[]].
Proof.
  intros Hsize HR. unfold splitIntoBatches. rewrite Hsize.
  destruct R as [|r R]; [congruence|].
  cbn [splitLoop num_lt num_add List.length].
  destruct (0 <? Z.of_nat (S (List.length R))) eqn:E;
    [|apply Z.ltb_ge in E; lia].
  cbn [app]. unfold slice, relativeIndex. cbn [toInteger].
  rewrite Z.ltb_irrefl. rewrite Z.min_l by lia. reflexivity.
Qed.

Lemma splitIntoBatches_NaN_witness :
  splitIntoBatches 2 (new NaN (Int 3) (Int 5000)) [Stub.alice; Stub.bob] = Some [[]].
Proof.
  apply (@splitIntoBatches_NaN (new NaN (Int 3) (Int 5000))
           [Stub.alice; Stub.bob] 0).
  - reflexivity.
  - discriminate.
Defined.

End BatcherMore.

(** ** The Transaction Builder, continued *)

Module MultiSendMore.
Import MultiSendService.

(** The sum over a list, started from [s]. *)
Lemma totalAmount_from (env : Env) (rs : list Recipient) :
  forall acc,
    fold_left
      (fun sum r =>
         match sum with
         | Throw e => Throw e
         | Ret s =>
             match js_BigInt env (amount r) with
             | Throw e => Throw e
             | Ret v => Ret (s + v)
             end
         end) rs acc
    = match acc with
      | Throw e => Throw e
      | Ret s =>
          match totalAmount env rs with
          | Ret t => Ret (s + t)
          | Throw e => Throw e
          end
      end.
Proof.
  induction rs as [|r rs IH]; intros [s|e].
  - cbn. f_equal. lia.
  - reflexivity.
  - cbn [fold_left]. rewrite IH. unfold totalAmount at 2. cbn [fold_left].
    rewrite IH.
    destruct (js_BigInt env (amount r)) as [v|e]; [|reflexivity].
    destruct (totalAmount env rs) as [t|e]; [f_equal; lia|reflexivity].
  - cbn [fold_left]. rewrite IH. reflexivity.
Qed.

Lemma totalAmount_cons (env : Env) (r : Recipient) (rs : list Recipient) :
  totalAmount env (r :: rs)
  = match js_BigInt env (amount r) with
    | Throw e => Throw e
    | Ret v =>
        match totalAmount env rs with
        | Ret t => Ret (v + t)
        | Throw e => Throw e
        end
    end.
Proof.
  unfold totalAmount at 1. cbn [fold_left]. rewrite totalAmount_from.
  destruct (js_BigInt env (amount r)); reflexivity.
Qed.

Lemma totalAmount_app (env : Env) (a b : list Recipient) :
  totalAmount env (a ++ b)
  = match totalAmount env a with
    | Throw e => Throw e
    | Ret x =>
        match totalAmount env b with
        | Ret y => Ret (x + y)
        | Throw e => Throw e
        end
    end.
Proof.
  induction a as [|r a IH].
  - cbn [app]. change (totalAmount env []) with (@Ret Z 0).
    destruct (totalAmount env b); reflexivity.
  - cbn [app]. rewrite !totalAmount_cons, IH.
    destruct (js_BigInt env (amount r)) as [v|e]; [|reflexivity].
    destruct (totalAmount env a) as [x|e]; [|reflexivity].
    destruct (totalAmount env b) as [y|e]; [f_equal; lia|reflexivity].
Qed.

(** X3. When every amount is an integer literal the total is the sum of
    the amounts, taken as arbitrary-precision integers. *)
Theorem totalAmount_is_sum (env : Env) (rs : list Recipient) (vs : list Z) :
  Forall2 (fun r v => js_BigInt env (amount r) = Ret v) rs vs ->
  totalAmount env rs = Ret (sumZ vs).
Proof.
  induction 1 as [|r v rs vs Hr _ IH]; [reflexivity|].
  rewrite totalAmount_cons, Hr, IH. reflexivity.
Qed.

Lemma totalAmount_is_sum_witness :
  totalAmount (Stub.env (fun _ => Stub.settles "HASH") Stub.healthyDisk [])
    [Stub.alice; Stub.bob; Stub.carol] = Ret (sumZ [10; 20; 30]).
Proof.
  apply (@totalAmount_is_sum
           (Stub.env (fun _ => Stub.settles "HASH") Stub.healthyDisk [])
           [Stub.alice; Stub.bob; Stub.carol] [10; 20; 30]).
  repeat constructor.
Defined.

(** X4. The total throws the error of the first amount that is not an
    integer literal, whatever comes after it. *)
Theorem totalAmount_first_error (env : Env) (pre post : list Recipient)
    (r : Recipient) (e : string) :
  (forall x, In x pre -> exists v, js_BigInt env (amount x) = Ret v) ->
  js_BigInt env (amount r) = Throw e ->
  totalAmount env (pre ++ r :: post) = Throw e.
Proof.
  intros Hpre Hr. induction pre as [|x pre IH].
  - cbn [app]. rewrite totalAmount_cons, Hr. reflexivity.
  - cbn [app]. rewrite totalAmount_cons.
    destruct (Hpre x (or_introl eq_refl)) as (v & Hv). rewrite Hv.
    rewrite IH; [reflexivity|]. intros y Hy. apply Hpre. now right.
Qed.

Lemma totalAmount_first_error_witness :
  totalAmount (Stub.env (fun _ => Stub.settles "HASH") Stub.healthyDisk [])
    ([Stub.alice] ++ mkRecipient "zig1dave" "1.5" :: [Stub.bob])
  = Throw "Cannot convert 1.5 to a BigInt".
Proof.
  apply (@totalAmount_first_error
           (Stub.env (fun _ => Stub.settles "HASH") Stub.healthyDisk [])
           [Stub.alice] [Stub.bob] (mkRecipient "zig1dave" "1.5")).
  - intros x [<-|[]]. exists 10. reflexivity.
  - reflexivity.
Defined.

(** The total of a concatenation of batches is the sum of their totals. *)
Lemma totalAmount_concat (env : Env) (batches : list (list Recipient)) :
  forall T,
    totalAmount env (concat batches) = Ret T ->
    exists ts,
      Forall2 (fun b t => totalAmount env b = Ret t) batches ts /\
      sumZ ts = T.
Proof.
  induction batches as [|b batches IH]; intros T HT.
  - exists []. split; [constructor|]. cbn in HT. injection HT as <-. reflexivity.
  - cbn [concat] in HT. rewrite totalAmount_app in HT.
    destruct (totalAmount env b) as [x|e] eqn:Hb; [|discriminate].
    destruct (totalAmount env (concat batches)) as [y|e] eqn:Hrest; [|discriminate].
    injection HT as <-.
    destruct (IH y eq_refl) as (ts & Hall & Hsum).
    exists (x :: ts). split; [constructor; assumption|].
    cbn. unfold sumZ in Hsum. lia.
Qed.

(** X5. Batching keeps the total: when the amounts of the whole list add
    up to [T], every batch the batcher cuts has a total, and the totals
    of the batches add up to [T]. *)
Theorem batches_keep_total (env : Env) (self : BatchProcessor.t)
    (R : list Recipient) (n T : Z) (fuel : nat) :
  BatchProcessor.batchSize self = Int n ->
  1 <= n ->
  (List.length R < fuel)%nat ->
  totalAmount env R = Ret T ->
  exists batches ts,
    BatchProcessor.splitIntoBatches fuel self R = Some batches /\
    Forall2 (fun b t => totalAmount env b = Ret t) batches ts /\
    sumZ ts = T.
Proof.
  intros Hsize Hn Hfuel HT.
  destruct (@BatcherFacts.splitLoop_spec R n Hn fuel 0 [])
    as (batches & Hsplit & Hcat & _); try lia.
  cbn [app] in Hsplit. cbn in Hcat. rewrite <- Hcat in HT.
  destruct (totalAmount_concat env batches HT) as (ts & Hall & Hsum).
  exists batches, ts. unfold BatchProcessor.splitIntoBatches.
  rewrite Hsize. auto.
Qed.

Lemma batches_keep_total_witness :
  exists batches ts,
    BatchProcessor.splitIntoBatches 4 (BatchProcessor.new (Int 2) (Int 3) (Int 5000))
      [Stub.alice; Stub.bob; Stub.carol] = Some batches /\
    Forall2
      (fun b t =>
         totalAmount (Stub.env (fun _ => Stub.settles "HASH") Stub.healthyDisk [])
           b = Ret t) batches ts /\
    sumZ ts = 60.
Proof.
  apply (@batches_keep_total
           (Stub.env (fun _ => Stub.settles "HASH") Stub.healthyDisk [])
           (BatchProcessor.new (Int 2) (Int 3) (Int 5000))
           [Stub.alice; Stub.bob; Stub.carol] 2 60 4).
  - reflexivity.
  - lia.
  - simpl. lia.
  - reflexivity.
Defined.

Lemma outputs_recipients (env : Env) (rs : list Recipient) :
  flat_map
    (fun o => map (fun c => mkRecipient (output_address o) (coin_amount c))
                  (output_coins o))
    (map (fun r => mkOutput (address r) [mkCoin (e_denom env) (amount r)]) rs)
  = rs.
Proof.
  induction rs as [|[a m] rs IH]; [reflexivity|].
  cbn. f_equal. exact IH.
Qed.

(** X6. The transfer [createMultiSendTx] builds is balanced: it has one
    input, of the sender, with one coin whose amount is the decimal
    rendering of the total; one output per recipient, in order, with the
    address of the recipient; and the amounts of the outputs add up to
    the same total.  Building it changes nothing in the world. *)
Theorem createMultiSendTx_balanced (env : Env) (rs : list Recipient) (w : World)
    (senderAddress : string) (total : Z) :
  e_address env = Ret senderAddress ->
  totalAmount env rs = Ret total ->
  exists tx,
    createMultiSendTx env rs w = Some (Ret tx, w) /\
    inputs tx = [mkInput senderAddress [mkCoin (e_denom env) (toString total)]] /\
    map output_address (outputs tx) = map address rs /\
    outputsTotal env tx = Ret total.
Proof.
  intros Ha Ht. unfold createMultiSendTx, bind, lift, ret.
  rewrite Ha, Ht. eexists. split; [reflexivity|]. cbn.
  split; [reflexivity|]. split.
  - rewrite map_map. reflexivity.
  - unfold outputsTotal. cbn [outputs]. rewrite outputs_recipients. exact Ht.
Qed.

Lemma createMultiSendTx_balanced_witness :
  exists tx,
    createMultiSendTx (Stub.env (fun _ => Stub.settles "HASH") Stub.healthyDisk [])
      [Stub.alice; Stub.bob] Stub.emptyWorld = Some (Ret tx, Stub.emptyWorld) /\
    inputs tx = [mkInput Stub.sender [mkCoin "uzig" (toString 30)]] /\
    map output_address (outputs tx) = map address [Stub.alice; Stub.bob] /\
    outputsTotal (Stub.env (fun _ => Stub.settles "HASH") Stub.healthyDisk []) tx
    = Ret 30.
Proof.
  apply (@createMultiSendTx_balanced
           (Stub.env (fun _ => Stub.settles "HASH") Stub.healthyDisk [])
           [Stub.alice; Stub.bob] Stub.emptyWorld Stub.sender 30);
    reflexivity.
Defined.

(** X7. A hash comes out of [executeMultiSend] only after the balance was
    found sufficient and the transfer was handed to [signAndBroadcast],
    once, with one output per recipient in order; the hash is the one the
    chain returned. *)
Theorem executeMultiSend_hash_after_broadcast (env : Env) (rs : list Recipient)
    (w w' : World) (h : string) :
  executeMultiSend env rs w = Some (Ret h, w') ->
  exists senderAddress tx balance total available,
    trace w' = trace w ++ [EvExecute rs; EvGetBalance;
                           EvBroadcast senderAddress tx] /\
    map output_address (outputs tx) = map address rs /\
    r_balance (e_chain env (submissions w)) = Ret balance /\
    totalAmount env rs = Ret total /\
    js_BigInt env balance = Ret available /\
    total <= available /\
    r_broadcast (e_chain env (submissions w)) = Ret h.
Proof.
  unfold executeMultiSend, createMultiSendTx, sendMultiSendTx.
  destruct (r_connect (e_chain env (submissions w))); [discriminate|].
  unfold bind, lift, emit, throw, ret, observe; cbn.
  destruct (e_address env) as [a|]; cbn; [|discriminate].
  destruct (r_balance (e_chain env (submissions w))) as [b|] eqn:Hb; cbn;
    [|discriminate].
  destruct (totalAmount env rs) as [t|] eqn:Ht; cbn; [|discriminate].
  destruct (js_BigInt env b) as [v|] eqn:Hv; cbn; [|discriminate].
  destruct (v <? t) eqn:E; cbn; [discriminate|].
  destruct (r_broadcast (e_chain env (submissions w))) as [h'|] eqn:Hh; cbn;
    [|discriminate].
  intros H. injection H as <- <-. apply Z.ltb_ge in E.
  exists a. eexists. exists b, t, v. cbn. rewrite <- !app_assoc. cbn.
  split; [reflexivity|]. split; [cbn [outputs]; rewrite map_map; reflexivity|].
  auto.
Qed.

Lemma executeMultiSend_hash_after_broadcast_witness :
  exists senderAddress tx balance total available,
    trace (mkWorld [] Absent 1 0
             [EvExecute [Stub.alice]; EvGetBalance;
              EvBroadcast Stub.sender
                (mkMultiSendTx
                   [mkInput Stub.sender [mkCoin "uzig" "10"]]
                   [mkOutput "zig1alice" [mkCoin "uzig" "10"]])])
    = trace Stub.emptyWorld ++ [EvExecute [Stub.alice]; EvGetBalance;
                                EvBroadcast senderAddress tx] /\
    map output_address (outputs tx) = map address [Stub.alice] /\
    r_balance (Stub.settles "HASH") = Ret balance /\
    totalAmount (Stub.env (fun _ => Stub.settles "HASH") Stub.healthyDisk [])
      [Stub.alice] = Ret total /\
    Stub.decimalBigInt balance = Ret available /\
    total <= available /\
    r_broadcast (Stub.settles "HASH") = Ret "HASH".
Proof.
  apply (@executeMultiSend_hash_after_broadcast
           (Stub.env (fun _ => Stub.settles "HASH") Stub.healthyDisk [])
           [Stub.alice] Stub.emptyWorld).
  vm_compute. reflexivity.
Defined.

(** X8. Whatever the chain answers, one run of [executeMultiSend] is
    counted as one submission, hands at most one transfer to
    [signAndBroadcast], and changes neither the log nor the failure
    store. *)
Theorem executeMultiSend_one_broadcast (env : Env) (rs : list Recipient)
    (w : World) :
  exists o w' inner,
    executeMultiSend env rs w = Some (o, w') /\
    trace w' = trace w ++ EvExecute rs :: inner /\
    (List.length (filter isBroadcast inner) <= 1)%nat /\
    submissions w' = S (submissions w) /\
    hashesFile w' = hashesFile w /\
    failedBatchesFile w' = failedBatchesFile w /\
    fsWrites w' = fsWrites w.
Proof.
  unfold executeMultiSend, createMultiSendTx, sendMultiSendTx.
  destruct (r_connect (e_chain env (submissions w))) as [e|].
  { exists (Throw e). eexists. exists []. split; [reflexivity|]. cbn.
    repeat split; auto. }
  unfold bind, lift, emit, throw, ret, observe; cbn.
  destruct (e_address env) as [a|e]; cbn.
  2:{ exists (Throw e). eexists. exists []. split; [reflexivity|]. cbn.
      repeat split; auto. }
  destruct (r_balance (e_chain env (submissions w))) as [b|e]; cbn.
  2:{ exists (Throw e). eexists. exists [EvGetBalance].
      split; [reflexivity|]. cbn. rewrite <- app_assoc. repeat split; auto. }
  destruct (totalAmount env rs) as [t|e]; cbn.
  2:{ exists (Throw e). eexists. exists [EvGetBalance].
      split; [reflexivity|]. cbn. rewrite <- app_assoc. repeat split; auto. }
  destruct (js_BigInt env b) as [v|e]; cbn.
  2:{ exists (Throw e). eexists. exists [EvGetBalance].
      split; [reflexivity|]. cbn. rewrite <- app_assoc. repeat split; auto. }
  destruct (v <? t); cbn.
  { eexists. eexists. exists [EvGetBalance].
    split; [reflexivity|]. cbn. rewrite <- app_assoc. repeat split; auto. }
  destruct (r_broadcast (e_chain env (submissions w))) as [h|e]; cbn;
    eexists; eexists; eexists [EvGetBalance; EvBroadcast _ _];
    (split; [reflexivity|]); cbn; rewrite <- !app_assoc; repeat split; auto.
Qed.

(** X9. An amount that is not an integer literal makes the submission
    throw the error of [BigInt] once the balance was queried: nothing is
    handed to [signAndBroadcast]. *)
Theorem executeMultiSend_bad_amount (env : Env) (rs : list Recipient)
    (w : World) (senderAddress balance e : string) :
  r_connect (e_chain env (submissions w)) = None ->
  e_address env = Ret senderAddress ->
  r_balance (e_chain env (submissions w)) = Ret balance ->
  totalAmount env rs = Throw e ->
  exists w',
    executeMultiSend env rs w = Some (Throw e, w') /\
    trace w' = trace w ++ [EvExecute rs; EvGetBalance].
Proof.
  intros Hc Ha Hb Ht. unfold executeMultiSend.
  rewrite Hc. unfold bind, lift, emit, throw, ret, observe; cbn.
  rewrite Ha; cbn. rewrite Hb; cbn. rewrite Ht; cbn.
  eexists. split; [reflexivity|]. cbn. rewrite <- app_assoc. reflexivity.
Qed.

Lemma executeMultiSend_bad_amount_witness :
  exists w',
    executeMultiSend (Stub.env (fun _ => Stub.settles "HASH") Stub.healthyDisk [])
      [Stub.alice; mkRecipient "zig1dave" "1.5"] Stub.emptyWorld
    = Some (Throw "Cannot convert 1.5 to a BigInt", w') /\
    trace w' = trace Stub.emptyWorld
                 ++ [EvExecute [Stub.alice; mkRecipient "zig1dave" "1.5"];
                     EvGetBalance].
Proof.
  apply (@executeMultiSend_bad_amount
           (Stub.env (fun _ => Stub.settles "HASH") Stub.healthyDisk [])
           [Stub.alice; mkRecipient "zig1dave" "1.5"] Stub.emptyWorld
           Stub.sender "1000000"); reflexivity.
Defined.
End MultiSendMore.

(** ** The initial run, continued *)

Module BatchProcessorMore.
Import BatchProcessor.

(** X10. The constructor starts a fresh log: when its write succeeds the
    log holds the header line and nothing of what it held before, and the
    failure store is as it was; when the write fails the error is thrown
    and both files are as they were. *)
Theorem construct_fresh_log (env : Env) (size retries delay : number)
    (w : World) :
  (e_writeError env (fsWrites w) = None ->
   exists generated w',
     construct env size retries delay w = Some (Ret (new size retries delay), w') /\
     hashesFile w' = [Header generated] /\
     failedBatchesFile w' = failedBatchesFile w) /\
  (forall e, e_writeError env (fsWrites w) = Some e ->
   exists w',
     construct env size retries delay w = Some (Throw e, w') /\
     hashesFile w' = hashesFile w /\
     failedBatchesFile w' = failedBatchesFile w).
Proof.
  split.
  - intros Hdisk. unfold construct, now, fsWrite, bind, ret. cbn.
    rewrite Hdisk. do 2 eexists. split; [reflexivity|]. split; reflexivity.
  - intros e Hdisk. unfold construct, now, fsWrite, bind, ret. cbn.
    rewrite Hdisk. eexists. split; [reflexivity|]. split; reflexivity.
Qed.

Lemma construct_fresh_log_witness :
  (exists generated w',
     construct (Stub.env (fun _ => Stub.settles "HASH") Stub.healthyDisk [])
       (Int 2) (Int 3) (Int 5000)
       (mkWorld [Header "old"; HashEntry 1 2 "OLD" "t" false]
          (Stored [mkFailedBatch 2 [Stub.carol] "timeout" "t0"]) 0 0 [])
     = Some (Ret (new (Int 2) (Int 3) (Int 5000)), w') /\
     hashesFile w' = [Header generated] /\
     failedBatchesFile w' = Stored [mkFailedBatch 2 [Stub.carol] "timeout" "t0"]) /\
  (exists w',
     construct (Stub.env (fun _ => Stub.settles "HASH") (Stub.brokenDisk "EACCES") [])
       (Int 2) (Int 3) (Int 5000)
       (mkWorld [Header "old"] Absent 0 0 [])
     = Some (Throw "EACCES", w') /\
     hashesFile w' = [Header "old"] /\
     failedBatchesFile w' = Absent).
Proof.
  split.
  - apply (proj1 (@construct_fresh_log
                    (Stub.env (fun _ => Stub.settles "HASH") Stub.healthyDisk [])
                    (Int 2) (Int 3) (Int 5000)
                    (mkWorld [Header "old"; HashEntry 1 2 "OLD" "t" false]
                       (Stored [mkFailedBatch 2 [Stub.carol] "timeout" "t0"])
                       0 0 []))).
    reflexivity.
  - apply (proj2 (@construct_fresh_log
                    (Stub.env (fun _ => Stub.settles "HASH")
                       (Stub.brokenDisk "EACCES") [])
                    (Int 2) (Int 3) (Int 5000)
                    (mkWorld [Header "old"] Absent 0 0 []))).
    reflexivity.
Defined.

(** The retry loop with hashes that are not empty: it ends, and it
    submits at most once per turn it has left. *)
Lemma attempts_bound (env : Env) (self : t) (b : list Recipient) :
  properHashes env ->
  forall (k fuel : nat) (rc : Z) (lastError : option string) (w : World),
    turnsLeft self rc = k ->
    (k < fuel)%nat ->
    exists r w',
      attempts env fuel self b rc lastError w = Some (Ret r, w') /\
      (submissions w' <= submissions w + k)%nat.
Proof.
  intros Hproper k. induction k as [|k IH]; intros fuel rc lastError w Hk Hfuel;
    (destruct fuel as [|fuel]; [lia|]);
    rewrite BatchProcessorFacts.attempts_unfold; unfold turnsLeft in Hk.
  - destruct (maxRetries self) as [|m]; cbn [num_le].
    + do 2 eexists. split; [reflexivity|lia].
    + destruct (rc <=? m) eqn:E; [apply Z.leb_le in E; lia|].
      do 2 eexists. split; [reflexivity|lia].
  - destruct (maxRetries self) as [|m] eqn:Hm; [discriminate|]. cbn [num_le].
    destruct (rc <=? m) eqn:E; [|do 2 eexists; split; [reflexivity|lia]].
    set (w0 := if 0 <? rc then observe (EvSleep (retryDelayMs self)) w else w).
    assert (Hw0 : submissions w0 = submissions w)
      by (unfold w0; destruct (0 <? rc); reflexivity).
    destruct (MultiSendFacts.executeMultiSend_frame env b w0)
      as (r & w1 & Hexec & _ & _ & _ & Hsub & _).
    rewrite Hexec. destruct r as [hash|err].
    + apply BatchProcessorFacts.executeMultiSend_hash in Hexec.
      apply Hproper in Hexec. rewrite Hexec.
      do 2 eexists. split; [reflexivity|lia].
    + destruct (IH fuel (rc + 1) (Some err) w1) as (r & w' & Hrun & Hle).
      * unfold turnsLeft. rewrite Hm. lia.
      * lia.
      * exists r, w'. split; [exact Hrun|lia].
Qed.

(** The loop body on a healthy disk with hashes that are not empty: it
    returns, after at most as many submissions as the retry loop has
    turns, with one more line in the log, and with at most one more
    hash. *)
Lemma processBatch_accounting (env : Env) (fuel : nat) (self : t)
    (total i : nat) (b : list Recipient) (hashes : list string) (w : World) :
  healthy env ->
  properHashes env ->
  (turnsLeft self 0 < fuel)%nat ->
  exists hashes' w',
    processBatch env fuel self total i b hashes w = Some (Ret hashes', w') /\
    (submissions w' <= submissions w + turnsLeft self 0)%nat /\
    List.length (hashesFile w') = S (List.length (hashesFile w)) /\
    (List.length hashes' <= S (List.length hashes))%nat.
Proof.
  intros Hdisk Hproper Hfuel.
  destruct (@attempts_bound env self b Hproper _ fuel 0 None w eq_refl Hfuel)
    as (r & w1 & Hrun & Hle).
  destruct (BatchProcessorFacts.attempts_frame _ _ _ _ _ _ _ Hrun)
    as (Hh & Hf & Hfs).
  destruct r as [[hash|] lastError].
  - destruct (@BatchProcessorFacts.saveTransactionHash_written env
                (Z.of_nat i + 1) hash (List.length b) w1 (Hdisk _))
      as (w2 & Hsave & Hh2 & Hf2).
    assert (Hsub2 : submissions w2 = submissions w1).
    { revert Hsave.
      unfold saveTransactionHash, now, appendHashes, fsWrite, bind. cbn.
      rewrite (Hdisk (fsWrites w1)). intros H. injection H as <-. reflexivity. }
    exists (hashes ++ [hash]).
    exists (if Z.of_nat i <? Z.of_nat total - 1
            then observe (EvSleep (Int 3000)) w2 else w2).
    split.
    + unfold processBatch. unfold bind at 1. rewrite Hrun.
      unfold tryCatch. erewrite (@bind_some unit _ _ _ _ w2 tt); [|exact Hsave].
      unfold when, sleep, emit, ret, bind.
      destruct (Z.of_nat i <? Z.of_nat total - 1); reflexivity.
    + rewrite length_app. cbn [List.length].
      destruct (Z.of_nat i <? Z.of_nat total - 1); cbn;
        rewrite Hsub2, Hh2, Hh, length_app; cbn; repeat split; lia.
  - set (msg := match lastError with
                | Some e => e
                | None => "All retry attempts failed"
                end).
    destruct (@BatchProcessorFacts.onError_written env total i b msg w1 Hdisk)
      as (w' & time & stamp & Herr & Hlog & _ & Hsub & _).
    exists hashes, w'. split.
    + unfold processBatch. unfold bind at 1. rewrite Hrun.
      fold msg. unfold bind. rewrite Herr. reflexivity.
    + rewrite Hsub, Hlog, length_app, Hh. cbn. repeat split; lia.
Qed.

Lemma batchLoop_accounting (env : Env) (fuel : nat) (self : t) (total : nat) :
  healthy env ->
  properHashes env ->
  (turnsLeft self 0 < fuel)%nat ->
  forall (batches : list (list Recipient)) (i : nat) (hashes : list string)
         (w : World),
  exists hashes' w',
    batchLoop env fuel self total i batches hashes w = Some (Ret hashes', w') /\
    (submissions w'
     <= submissions w + List.length batches * turnsLeft self 0)%nat /\
    List.length (hashesFile w')
      = (List.length (hashesFile w) + List.length batches)%nat /\
    (List.length hashes' <= List.length hashes + List.length batches)%nat.
Proof.
  intros Hdisk Hproper Hfuel batches.
  induction batches as [|b rest IH]; intros i hashes w.
  - exists hashes, w. cbn. repeat split; lia.
  - destruct (@processBatch_accounting env fuel self total i b hashes w
                Hdisk Hproper Hfuel) as (hs1 & w1 & Hbody & Hsub & Hlog & Hhs).
    destruct (IH (S i) hs1 w1) as (hs2 & w2 & Hloop & Hsub' & Hlog' & Hhs').
    exists hs2, w2. split.
    + cbn [batchLoop]. unfold bind. rewrite Hbody. exact Hloop.
    + cbn [List.length]. repeat split; lia.
Qed.

(** X11. The initial run never submits a batch more often than the retry
    loop has turns ([maxRetries + 1] for an integer [maxRetries], none
    for [NaN]): on a healthy disk, with hashes that are not empty, the
    run returns after at most that many submissions per batch, with at
    most one hash per batch. *)
Theorem processBatches_submission_bound (env : Env) (fuel : nat) (self : t)
    (rs : list Recipient) (n : Z) (w : World) :
  healthy env ->
  properHashes env ->
  batchSize self = Int n ->
  1 <= n ->
  (List.length rs < fuel)%nat ->
  (turnsLeft self 0 < fuel)%nat ->
  exists batches hashes w',
    splitIntoBatches fuel self rs = Some batches /\
    processBatches env fuel self rs w = Some (Ret hashes, w') /\
    (submissions w'
     <= submissions w + List.length batches * turnsLeft self 0)%nat /\
    (List.length hashes <= List.length batches)%nat.
Proof.
  intros Hdisk Hproper Hsize Hn Hlen Hfuel.
  destruct (@BatcherFacts.splitLoop_spec rs n Hn fuel 0 [])
    as (batches & Hsplit & _); try lia.
  cbn [app] in Hsplit.
  destruct (@batchLoop_accounting env fuel self (List.length batches) Hdisk
              Hproper Hfuel batches 0%nat [] w)
    as (hashes & w' & Hloop & Hsub & _ & Hhs).
  exists batches, hashes, w'.
  unfold processBatches, splitIntoBatches. rewrite Hsize, Hsplit.
  cbn in Hhs. auto.
Qed.

(** X12. The log gets exactly one line for every batch of the initial
    run, a settlement line or an error line, on a healthy disk with
    hashes that are not empty. *)
Theorem processBatches_one_line_per_batch (env : Env) (fuel : nat) (self : t)
    (rs : list Recipient) (n : Z) (w : World) :
  healthy env ->
  properHashes env ->
  batchSize self = Int n ->
  1 <= n ->
  (List.length rs < fuel)%nat ->
  (turnsLeft self 0 < fuel)%nat ->
  exists batches hashes w',
    splitIntoBatches fuel self rs = Some batches /\
    processBatches env fuel self rs w = Some (Ret hashes, w') /\
    List.length (hashesFile w')
      = (List.length (hashesFile w) + List.length batches)%nat.
Proof.
  intros Hdisk Hproper Hsize Hn Hlen Hfuel.
  destruct (@BatcherFacts.splitLoop_spec rs n Hn fuel 0 [])
    as (batches & Hsplit & _); try lia.
  cbn [app] in Hsplit.
  destruct (@batchLoop_accounting env fuel self (List.length batches) Hdisk
              Hproper Hfuel batches 0%nat [] w)
    as (hashes & w' & Hloop & _ & Hlog & _).
  exists batches, hashes, w'.
  unfold processBatches, splitIntoBatches. rewrite Hsize, Hsplit. auto.
Qed.

Lemma flaky_proper : properHashes Sample.flakyEnv.
Proof.
  intros [|[|k]] h; simpl; intros H; try discriminate;
    injection H as <-; reflexivity.
Qed.

Lemma processBatches_submission_bound_witness :
  exists batches hashes w',
    splitIntoBatches 5 Sample.processor Sample.trio = Some batches /\
    processBatches Sample.flakyEnv 5 Sample.processor Sample.trio Stub.emptyWorld
      = Some (Ret hashes, w') /\
    (submissions w'
     <= submissions Stub.emptyWorld
        + List.length batches * turnsLeft Sample.processor 0)%nat /\
    (List.length hashes <= List.length batches)%nat.
Proof.
  apply (@processBatches_submission_bound Sample.flakyEnv 5 Sample.processor
           Sample.trio 2 Stub.emptyWorld).
  - intros k. reflexivity.
  - exact flaky_proper.
  - reflexivity.
  - lia.
  - simpl. lia.
  - unfold turnsLeft. simpl. lia.
Defined.

Lemma processBatches_one_line_per_batch_witness :
  exists batches hashes w',
    splitIntoBatches 5 Sample.processor Sample.trio = Some batches /\
    processBatches Sample.flakyEnv 5 Sample.processor Sample.trio Stub.emptyWorld
      = Some (Ret hashes, w') /\
    List.length (hashesFile w')
      = (List.length (hashesFile Stub.emptyWorld) + List.length batches)%nat.
Proof.
  apply (@processBatches_one_line_per_batch Sample.flakyEnv 5 Sample.processor
           Sample.trio 2 Stub.emptyWorld).
  - intros k. reflexivity.
  - exact flaky_proper.
  - reflexivity.
  - lia.
  - simpl. lia.
  - unfold turnsLeft. simpl. lia.
Defined.

(** The loop body when the retry loop has no turn: no submission, and the
    batch is recorded as failed with the fallback message. *)
Lemma processBatch_no_turn (env : Env) (fuel : nat) (self : t) (total i : nat)
    (b : list Recipient) (hashes : list string) (w : World) :
  healthy env ->
  num_le (Int 0) (maxRetries self) = false ->
  exists w',
    processBatch env (S fuel) self total i b hashes w = Some (Ret hashes, w') /\
    submissions w' = submissions w /\
    map summary (storedRecords w') =
      map summary (storedRecords w)
        ++ [(Z.of_nat i + 1, b, "All retry attempts failed")].
Proof.
  intros Hdisk Hno.
  destruct (@BatchProcessorFacts.onError_written env total i b
              "All retry attempts failed" w Hdisk)
    as (w' & time & stamp & Herr & _ & Hstore & Hsub & _).
  exists w'. split; [|split; [exact Hsub|]].
  - unfold processBatch. unfold bind at 1.
    rewrite BatchProcessorFacts.attempts_unfold, Hno.
    unfold bind. rewrite Herr. reflexivity.
  - unfold storedRecords at 1. rewrite Hstore, map_app. reflexivity.
Qed.

Lemma batchLoop_no_turn (env : Env) (fuel : nat) (self : t) (total : nat) :
  healthy env ->
  num_le (Int 0) (maxRetries self) = false ->
  forall (batches : list (list Recipient)) (i : nat) (hashes : list string)
         (w : World),
  exists w',
    batchLoop env (S fuel) self total i batches hashes w
      = Some (Ret hashes, w') /\
    submissions w' = submissions w /\
    map summary (storedRecords w') =
      map summary (storedRecords w)
        ++ failuresFrom i batches
             (map (fun _ => Exhausted "All retry attempts failed") batches).
Proof.
  intros Hdisk Hno batches.
  induction batches as [|b rest IH]; intros i hashes w.
  - exists w. cbn. rewrite app_nil_r. auto.
  - destruct (@processBatch_no_turn env fuel self total i b hashes w Hdisk Hno)
      as (w1 & Hbody & Hsub & Hstore).
    destruct (IH (S i) hashes w1) as (w' & Hloop & Hsub' & Hstore').
    exists w'. split; [|split].
    + cbn [batchLoop]. unfold bind. rewrite Hbody. exact Hloop.
    + lia.
    + rewrite Hstore', Hstore. cbn [map failuresFrom].
      rewrite <- app_assoc. reflexivity.
Qed.

(** X13. With [maxRetries] that is [NaN] (as for [--max-retries=abc]) or
    negative, the initial run submits nothing at all: every batch is
    recorded as failed with the message "All retry attempts failed", and
    the run returns no hash. *)
Theorem processBatches_without_turns (env : Env) (fuel : nat) (self : t)
    (rs : list Recipient) (n : Z) (w : World) :
  healthy env ->
  maxRetries self = NaN \/ (exists m, maxRetries self = Int m /\ m < 0) ->
  batchSize self = Int n ->
  1 <= n ->
  (List.length rs < fuel)%nat ->
  exists batches w',
    splitIntoBatches fuel self rs = Some batches /\
    processBatches env fuel self rs w = Some (Ret [], w') /\
    submissions w' = submissions w /\
    map summary (storedRecords w') =
      map summary (storedRecords w)
        ++ failuresFrom 0 batches
             (map (fun _ => Exhausted "All retry attempts failed") batches).
Proof.
  intros Hdisk Hretries Hsize Hn Hlen.
  assert (Hno : num_le (Int 0) (maxRetries self) = false).
  { destruct Hretries as [-> | (m & -> & Hm)]; [reflexivity|].
    cbn. apply Z.leb_gt. exact Hm. }
  destruct (@BatcherFacts.splitLoop_spec rs n Hn fuel 0 [])
    as (batches & Hsplit & _); try lia.
  cbn [app] in Hsplit.
  destruct fuel as [|fuel]; [lia|].
  destruct (@batchLoop_no_turn env fuel self (List.length batches) Hdisk Hno
              batches 0%nat [] w) as (w' & Hloop & Hsub & Hstore).
  exists batches, w'.
  unfold processBatches, splitIntoBatches. rewrite Hsize, Hsplit. auto.
Qed.

Lemma processBatches_without_turns_witness :
  exists batches w',
    splitIntoBatches 5 (new (Int 2) NaN (Int 5000)) Sample.trio = Some batches /\
    processBatches Sample.settlingEnv 5 (new (Int 2) NaN (Int 5000)) Sample.trio
      Stub.emptyWorld = Some (Ret [], w') /\
    submissions w' = submissions Stub.emptyWorld /\
    map summary (storedRecords w') =
      map summary (storedRecords Stub.emptyWorld)
        ++ failuresFrom 0 batches
             (map (fun _ => Exhausted "All retry attempts failed") batches).
Proof.
  apply (@processBatches_without_turns Sample.settlingEnv 5
           (new (Int 2) NaN (Int 5000)) Sample.trio 2 Stub.emptyWorld).
  - intros k. reflexivity.
  - left. reflexivity.
  - reflexivity.
  - lia.
  - simpl. lia.
Defined.

(** The loop body once the retry loop has returned a hash, on a healthy
    disk: the settlement line, the wait before the next batch, and
    nothing else. *)
Lemma processBatch_after_settle (env : Env) (fuel : nat) (self : t)
    (total i : nat) (b : list Recipient) (hashes : list string) (w w1 : World)
    (hash : string) (lastError : option string) :
  healthy env ->
  attempts env fuel self b 0 None w = Some (Ret (Some hash, lastError), w1) ->
  exists time w',
    processBatch env fuel self total i b hashes w
      = Some (Ret (hashes ++ [hash]), w') /\
    hashesFile w' =
      hashesFile w ++ [HashEntry (Z.of_nat i + 1) (List.length b) hash time false] /\
    failedBatchesFile w' = failedBatchesFile w /\
    submissions w' = submissions w1 /\
    dispatchTrace (trace w') = dispatchTrace (trace w1) ++ pacing total i 3000.
Proof.
  intros Hdisk Hrun.
  destruct (BatchProcessorFacts.attempts_frame _ _ _ _ _ _ _ Hrun)
    as (Hh & Hf & Hfs).
  exists (e_now env (List.length (trace w1))).
  set (line := HashEntry (Z.of_nat i + 1) (List.length b) hash
                 (e_now env (List.length (trace w1))) false).
  set (w2 := mkWorld (hashesFile w1 ++ [line]) (failedBatchesFile w1)
               (submissions w1) (S (fsWrites w1))
               (trace w1 ++ [EvAppendLog line])).
  exists (if Z.of_nat i <? Z.of_nat total - 1
          then observe (EvSleep (Int 3000)) w2 else w2).
  split.
  - unfold processBatch. unfold bind at 1. rewrite Hrun.
    unfold tryCatch, saveTransactionHash, now, appendHashes, fsWrite.
    unfold bind at 1. unfold bind at 1. rewrite (Hdisk (fsWrites w1)).
    unfold when, sleep, emit, ret, bind.
    destruct (Z.of_nat i <? Z.of_nat total - 1) eqn:E; reflexivity.
  - unfold pacing.
    destruct (Z.of_nat i <? Z.of_nat total - 1); cbn;
      rewrite ?dispatchTrace_app; cbn; rewrite ?app_nil_r, Hh, Hf;
      repeat split; reflexivity.
Qed.

(** The retry loop from [retryCount >= 1] on, when the next [k]
    submissions fail and the one after them settles. *)
Lemma attempts_fail_then_settle (env : Env) (self : t) (b : list Recipient)
    (m : Z) (h : string) :
  maxRetries self = Int m ->
  truthy h = true ->
  forall (k fuel : nat) (rc : Z) (lastError : option string) (w : World),
    1 <= rc ->
    rc + Z.of_nat k <= m ->
    (forall j, (j < k)%nat -> failsAt env b (submissions w + j)) ->
    settlesAt env b (submissions w + k) h ->
    (k < fuel)%nat ->
    exists lastError' w',
      attempts env fuel self b rc lastError w
        = Some (Ret (Some h, lastError'), w') /\
      submissions w' = (submissions w + k + 1)%nat /\
      dispatchTrace (trace w') =
        dispatchTrace (trace w)
          ++ concat (repeat [EvSleep (retryDelayMs self); EvExecute b] (S k)).
Proof.
  intros Hm Hh k. induction k as [|k IH];
    intros fuel rc lastError w Hrc Hle Hfails Hsettles Hfuel;
    (destruct fuel as [|fuel]; [lia|]);
    rewrite BatchProcessorFacts.attempts_unfold, Hm; cbn [num_le];
    (destruct (rc <=? m) eqn:E; [|apply Z.leb_gt in E; lia]);
    (destruct (0 <? rc) eqn:E0; [|apply Z.ltb_ge in E0; lia]);
    destruct (MultiSendFacts.executeMultiSend_frame env b
                (observe (EvSleep (retryDelayMs self)) w))
      as (o & w1 & Hexec & _ & _ & _ & Hsub & Htr).
  - destruct (Hsettles (observe (EvSleep (retryDelayMs self)) w)) as (w1' & Hexec');
      [cbn; lia|].
    rewrite Hexec in Hexec'. injection Hexec' as -> <-.
    rewrite Hexec, Hh. exists lastError, w1. split; [reflexivity|].
    rewrite Hsub, Htr. cbn. rewrite dispatchTrace_app. cbn.
    rewrite <- !app_assoc. cbn. split; [lia|reflexivity].
  - destruct (Hfails 0%nat ltac:(lia) (observe (EvSleep (retryDelayMs self)) w))
      as (e & w1' & Hexec'); [cbn; lia|].
    rewrite Hexec in Hexec'. injection Hexec' as -> <-.
    rewrite Hexec.
    destruct (IH fuel (rc + 1) (Some e) w1) as (le & w' & Hrun & Hsub' & Htr');
      try lia.
    + intros j Hj. replace (submissions w1 + j)%nat with (submissions w + S j)%nat
        by (rewrite Hsub; cbn; lia).
      apply Hfails. lia.
    + replace (submissions w1 + k)%nat with (submissions w + S k)%nat
        by (rewrite Hsub; cbn; lia).
      exact Hsettles.
    + exists le, w'. split; [exact Hrun|].
      rewrite Hsub', Htr', Hsub, Htr. cbn. rewrite dispatchTrace_app. cbn.
      rewrite <- !app_assoc. cbn. split; [lia|reflexivity].
Qed.

(** X14. Retry then success: when the first [k <= maxRetries] submissions
    of a batch fail and the next one settles, the loop body submits the
    batch [k + 1] times, [retryDelayMs] apart, returns the hash, appends
    a settlement line, which does not say that the batch was retried, and
    leaves the failure store as it was. *)
Theorem processBatch_retry_then_settle (env : Env) (fuel : nat) (self : t)
    (total i : nat) (b : list Recipient) (hashes : list string) (w : World)
    (m : Z) (k : nat) (h : string) :
  healthy env ->
  maxRetries self = Int m ->
  Z.of_nat k <= m ->
  (forall j, (j < k)%nat -> failsAt env b (submissions w + j)) ->
  settlesAt env b (submissions w + k) h ->
  truthy h = true ->
  (k + 1 < fuel)%nat ->
  exists time w',
    processBatch env fuel self total i b hashes w
      = Some (Ret (hashes ++ [h]), w') /\
    submissions w' = (submissions w + k + 1)%nat /\
    hashesFile w' =
      hashesFile w ++ [HashEntry (Z.of_nat i + 1) (List.length b) h time false] /\
    failedBatchesFile w' = failedBatchesFile w /\
    dispatchTrace (trace w') =
      dispatchTrace (trace w)
        ++ submissionsOf (k + 1) (retryDelayMs self) b
        ++ pacing total i 3000.
Proof.
  intros Hdisk Hm Hk Hfails Hsettles Hh Hfuel.
  assert (Hrun : exists le w1,
             attempts env fuel self b 0 None w = Some (Ret (Some h, le), w1) /\
             submissions w1 = (submissions w + k + 1)%nat /\
             dispatchTrace (trace w1) =
               dispatchTrace (trace w)
                 ++ submissionsOf (k + 1) (retryDelayMs self) b).
  { destruct fuel as [|fuel]; [lia|].
    rewrite BatchProcessorFacts.attempts_unfold, Hm. cbn [num_le].
    destruct (0 <=? m) eqn:E; [|apply Z.leb_gt in E; lia].
    cbn [Z.ltb Z.compare].
    destruct (MultiSendFacts.executeMultiSend_frame env b w)
      as (o & w1 & Hexec & _ & _ & _ & Hsub & Htr).
    destruct k as [|k].
    - destruct (Hsettles w) as (w1' & Hexec'); [lia|].
      rewrite Hexec in Hexec'. injection Hexec' as -> <-.
      rewrite Hexec, Hh. exists None, w1. split; [reflexivity|].
      rewrite Hsub, Htr. split; [lia|reflexivity].
    - destruct (Hfails 0%nat ltac:(lia) w) as (e & w1' & Hexec'); [lia|].
      rewrite Hexec in Hexec'. injection Hexec' as -> <-.
      rewrite Hexec.
      destruct (@attempts_fail_then_settle env self b m h Hm Hh k fuel 1 (Some e) w1)
        as (le & w2 & Hrun & Hsub' & Htr'); try lia.
      + intros j Hj. replace (submissions w1 + j)%nat with (submissions w + S j)%nat
          by (rewrite Hsub; lia).
        apply Hfails. lia.
      + replace (submissions w1 + k)%nat with (submissions w + S k)%nat
          by (rewrite Hsub; lia).
        exact Hsettles.
      + exists le, w2. split; [exact Hrun|].
        rewrite Hsub', Htr', Hsub, Htr.
        replace (S k + 1)%nat with (S (S k)) by lia.
        rewrite <- BatchProcessorFacts.submissionsOf_retries.
        rewrite <- !app_assoc. cbn. split; [lia|reflexivity]. }
  destruct Hrun as (le & w1 & Hrun & Hsub & Htr).
  destruct (@processBatch_after_settle env fuel self total i b hashes w w1 h le
              Hdisk Hrun) as (time & w' & Hbody & Hlog & Hstore & Hsub' & Htr').
  exists time, w'. rewrite Hsub', Hsub, Htr', Htr, <- app_assoc. auto.
Qed.

Lemma processBatch_retry_then_settle_witness :
  exists time w',
    processBatch Sample.flakyEnv 5 Sample.processor 2 0 [Stub.alice; Stub.bob] []
      Stub.emptyWorld = Some (Ret ([] ++ ["HASH"]), w') /\
    submissions w' = (submissions Stub.emptyWorld + 2 + 1)%nat /\
    hashesFile w' =
      hashesFile Stub.emptyWorld
        ++ [HashEntry (Z.of_nat 0 + 1) (List.length [Stub.alice; Stub.bob])
              "HASH" time false] /\
    failedBatchesFile w' = failedBatchesFile Stub.emptyWorld /\
    dispatchTrace (trace w') =
      dispatchTrace (trace Stub.emptyWorld)
        ++ submissionsOf (2 + 1) (retryDelayMs Sample.processor)
             [Stub.alice; Stub.bob]
        ++ pacing 2 0 3000.
Proof.
  apply (@processBatch_retry_then_settle Sample.flakyEnv 5 Sample.processor 2 0
           [Stub.alice; Stub.bob] [] Stub.emptyWorld 3 2 "HASH").
  - intros k. reflexivity.
  - reflexivity.
  - lia.
  - intros [|[|j]] Hj w Hw; try lia; unfold MultiSendService.executeMultiSend;
      cbn in Hw; rewrite Hw; do 2 eexists; reflexivity.
  - intros w Hw. unfold MultiSendService.executeMultiSend.
    cbn in Hw. rewrite Hw. eexists. reflexivity.
  - reflexivity.
  - lia.
Defined.

Lemma batchLoop_all_settle (env : Env) (fuel : nat) (self : t) (total : nat)
    (m : Z) :
  healthy env ->
  maxRetries self = Int m ->
  0 <= m ->
  forall (batches : list (list Recipient)) (i : nat) (hashes : list string)
         (w : World),
  (forall b, In b batches -> settles env b) ->
  exists hs w',
    batchLoop env (S fuel) self total i batches hashes w
      = Some (Ret (hashes ++ hs), w') /\
    List.length hs = List.length batches /\
    submissions w' = (submissions w + List.length batches)%nat /\
    failedBatchesFile w' = failedBatchesFile w /\
    List.length (hashesFile w')
      = (List.length (hashesFile w) + List.length batches)%nat /\
    dispatchTrace (trace w') =
      dispatchTrace (trace w) ++ settledTrace total i batches.
Proof.
  intros Hdisk Hm Hpos batches.
  induction batches as [|b rest IH]; intros i hashes w Hsettle.
  - exists [], w. cbn. rewrite !app_nil_r, !Nat.add_0_r. auto 7.
  - destruct (Hsettle b (or_introl eq_refl) w) as (h & w1 & Hexec & Hh).
    destruct (MultiSendFacts.executeMultiSend_frame env b w)
      as (o & w1' & Hexec' & _ & _ & _ & Hsub & Htr).
    rewrite Hexec in Hexec'. injection Hexec' as <- <-.
    assert (Hrun : attempts env (S fuel) self b 0 None w
                   = Some (Ret (Some h, None), w1)).
    { rewrite BatchProcessorFacts.attempts_unfold, Hm. cbn [num_le].
      destruct (0 <=? m) eqn:E; [|apply Z.leb_gt in E; lia].
      cbn [Z.ltb Z.compare]. rewrite Hexec, Hh. reflexivity. }
    destruct (@processBatch_after_settle env (S fuel) self total i b hashes w w1 h
                None Hdisk Hrun)
      as (time & w2 & Hbody & Hlog & Hstore & Hsub2 & Htr2).
    destruct (IH (S i) (hashes ++ [h]) w2)
      as (hs & w' & Hloop & Hlen & Hsub' & Hstore' & Hlog' & Htr').
    { intros b' Hin. apply Hsettle. now right. }
    exists (h :: hs), w'. split.
    + cbn [batchLoop]. unfold bind. rewrite Hbody, Hloop.
      rewrite <- app_assoc. reflexivity.
    + rewrite Hsub', Hsub2, Hsub, Hstore', Hstore, Hlog', Hlog, Htr', Htr2, Htr.
      rewrite length_app. cbn [List.length settledTrace].
      rewrite <- !app_assoc. cbn. repeat split; auto; lia.
Qed.

(** X15. When every batch of the run settles at its first submission, on
    a healthy disk and with [maxRetries >= 0], the initial run submits
    every batch exactly once, in order, waits three seconds between two
    batches and not after the last one, returns one hash and appends one
    line per batch, and leaves the failure store as it was. *)
Theorem processBatches_all_settle (env : Env) (fuel : nat) (self : t)
    (rs : list Recipient) (batches : list (list Recipient)) (m : Z)
    (w : World) :
  healthy env ->
  splitIntoBatches fuel self rs = Some batches ->
  (forall b, In b batches -> settles env b) ->
  maxRetries self = Int m ->
  0 <= m ->
  exists hashes w',
    processBatches env fuel self rs w = Some (Ret hashes, w') /\
    List.length hashes = List.length batches /\
    submissions w' = (submissions w + List.length batches)%nat /\
    failedBatchesFile w' = failedBatchesFile w /\
    List.length (hashesFile w')
      = (List.length (hashesFile w) + List.length batches)%nat /\
    dispatchTrace (trace w') =
      dispatchTrace (trace w) ++ settledTrace (List.length batches) 0 batches.
Proof.
  intros Hdisk Hsplit Hsettle Hm Hpos.
  destruct fuel as [|fuel]; [discriminate|].
  destruct (@batchLoop_all_settle env fuel self (List.length batches) m
              Hdisk Hm Hpos batches 0%nat [] w Hsettle)
    as (hs & w' & Hloop & Hhs & Hrest).
  exists hs, w'.
  unfold processBatches. rewrite Hsplit.
  cbn [app] in Hloop. auto.
Qed.

Lemma processBatches_all_settle_witness :
  exists hashes w',
    processBatches Sample.settlingEnv 5 Sample.processor Sample.trio
      Stub.emptyWorld = Some (Ret hashes, w') /\
    List.length hashes = 2%nat /\
    submissions w' = 2%nat /\
    failedBatchesFile w' = Absent /\
    List.length (hashesFile w') = 2%nat /\
    dispatchTrace (trace w') =
      [EvExecute [Stub.alice; Stub.bob]; EvSleep (Int 3000);
       EvExecute [Stub.carol]].
Proof.
  apply (@processBatches_all_settle Sample.settlingEnv 5 Sample.processor
           Sample.trio [[Stub.alice; Stub.bob]; [Stub.carol]] 3 Stub.emptyWorld).
  - intros k. reflexivity.
  - reflexivity.
  - intros b [<-|[<-|[]]] w; do 2 eexists; split; reflexivity.
  - reflexivity.
  - lia.
Defined.
End BatchProcessorMore.

(** ** Resume, continued *)

Module RetrierMore.
Import FailedBatchRetrier.

(** The [try] block when the submission settles and both writes
    succeed. *)
Lemma settle_success (env : Env) (n : Z) (rec : FailedBatch) (w w1 : World)
    (l : list FailedBatch) (h : string) :
  healthy env ->
  failedBatchesFile w = Stored l ->
  MultiSendService.executeMultiSend env (recipients rec) w = Some (Ret h, w1) ->
  exists time w',
    settle env n rec w = Some (Ret true, w') /\
    failedBatchesFile w' =
      Stored (filter (fun batch => negb (batchNumber batch =? n)) l) /\
    hashesFile w' =
      hashesFile w ++ [HashEntry n (List.length (recipients rec)) h time true] /\
    submissions w' = S (submissions w) /\
    dispatchTrace (trace w') =
      dispatchTrace (trace w)
        ++ [EvExecute (recipients rec);
            EvWriteStore (filter (fun batch => negb (batchNumber batch =? n)) l)].
Proof.
  intros Hdisk Hstore Hexec.
  destruct (MultiSendFacts.executeMultiSend_frame env (recipients rec) w)
    as (o & w1' & Hexec' & Hh & Hf & _ & Hsub & Htr).
  rewrite Hexec in Hexec'. injection Hexec' as <- <-.
  exists (e_now env (List.length (trace w1))).
  unfold settle, bind. rewrite Hexec.
  unfold saveTransactionHash, now, appendHashes, fsWrite, bind. cbn.
  rewrite (Hdisk (fsWrites w1)).
  unfold removeFromFailedBatches, writeStore, fsWrite, tryCatch, ret, setHashesFile.
  cbn. rewrite Hf, Hstore. cbn. rewrite (Hdisk (S (fsWrites w1))).
  eexists. split; [reflexivity|]. cbn.
  rewrite !dispatchTrace_app, Htr, Hh, Hsub. cbn.
  rewrite <- !app_assoc. cbn. auto.
Qed.

(** X16. A resume that settles at its first submission, on a healthy
    disk and with [maxRetries >= 1]: [retryBatch] returns [true] after one
    submission of the recipients of the first record with the number,
    appends a settlement line marked as a retry, and writes the store
    without any record of that number; the other records stay, in
    order. *)
Theorem retryBatch_settles_at_once (env : Env) (fuel : nat) (n m : Z)
    (w : World) (l : list FailedBatch) (rec : FailedBatch) :
  healthy env ->
  failedBatchesFile w = Stored l ->
  find (fun batch => batchNumber batch =? n) l = Some rec ->
  settles env (recipients rec) ->
  1 <= m ->
  exists h time w',
    retryBatch env (S fuel) n (Int m) w = Some (Ret true, w') /\
    submissions w' = S (submissions w) /\
    hashesFile w' =
      hashesFile w ++ [HashEntry n (List.length (recipients rec)) h time true] /\
    failedBatchesFile w' =
      Stored (filter (fun batch => negb (batchNumber batch =? n)) l) /\
    dispatchTrace (trace w') =
      dispatchTrace (trace w)
        ++ [EvExecute (recipients rec);
            EvWriteStore (filter (fun batch => negb (batchNumber batch =? n)) l)].
Proof.
  intros Hdisk Hstore Hfind Hsettles Hm.
  destruct (Hsettles w) as (h & w1 & Hexec & _).
  destruct (@settle_success env n rec w w1 l h Hdisk Hstore Hexec)
    as (time & w' & Hsettle & Hf & Hh & Hsub & Htr).
  exists h, time, w'. split; [|auto].
  unfold retryBatch, getFailedBatches, bind. rewrite Hstore. cbn -[retries]. rewrite Hfind.
  rewrite RetrierFacts.retries_unfold. cbn [num_lt].
  destruct (0 <? m) eqn:E; [|apply Z.ltb_ge in E; lia].
  rewrite Hsettle. reflexivity.
Qed.

Lemma retryBatch_settles_at_once_witness :
  exists h time w',
    retryBatch Sample.settlingEnv 1 2 (Int 3)
      (mkWorld []
         (Stored [mkFailedBatch 1 [Stub.alice] "timeout" "t0";
                  mkFailedBatch 2 [Stub.bob; Stub.carol] "timeout" "t1"]) 0 0 [])
    = Some (Ret true, w') /\
    submissions w' = 1%nat /\
    hashesFile w' = [] ++ [HashEntry 2 2 h time true] /\
    failedBatchesFile w' = Stored [mkFailedBatch 1 [Stub.alice] "timeout" "t0"] /\
    dispatchTrace (trace w') =
      [] ++ [EvExecute [Stub.bob; Stub.carol];
             EvWriteStore [mkFailedBatch 1 [Stub.alice] "timeout" "t0"]].
Proof.
  apply (@retryBatch_settles_at_once Sample.settlingEnv 0 2 3
           (mkWorld []
              (Stored [mkFailedBatch 1 [Stub.alice] "timeout" "t0";
                       mkFailedBatch 2 [Stub.bob; Stub.carol] "timeout" "t1"])
              0 0 [])
           [mkFailedBatch 1 [Stub.alice] "timeout" "t0";
            mkFailedBatch 2 [Stub.bob; Stub.carol] "timeout" "t1"]
           (mkFailedBatch 2 [Stub.bob; Stub.carol] "timeout" "t1")).
  - intros k. reflexivity.
  - reflexivity.
  - reflexivity.
  - intros w. do 2 eexists. split; reflexivity.
  - lia.
Defined.

(** X17. A settlement that cannot be logged is sent again: when the
    submission of a resumed batch settles but the append of its line to
    the log fails, the error is taken for a failed attempt; with another
    attempt left, the same recipients are submitted a second time. *)
Theorem retryBatch_resubmits_after_log_error (env : Env) (fuel : nat) (n m : Z)
    (w : World) (l : list FailedBatch) (rec : FailedBatch) (ioErr : string) :
  failedBatchesFile w = Stored l ->
  find (fun batch => batchNumber batch =? n) l = Some rec ->
  settles env (recipients rec) ->
  e_writeError env (fsWrites w) = Some ioErr ->
  e_writeError env (S (fsWrites w)) = None ->
  e_writeError env (S (S (fsWrites w))) = None ->
  2 <= m ->
  exists w',
    retryBatch env (S (S fuel)) n (Int m) w = Some (Ret true, w') /\
    submissions w' = S (S (submissions w)) /\
    dispatchTrace (trace w') =
      dispatchTrace (trace w)
        ++ [EvExecute (recipients rec); EvSleep (Int 10000);
            EvExecute (recipients rec);
            EvWriteStore (filter (fun batch => negb (batchNumber batch =? n)) l)].
Proof.
  intros Hstore Hfind Hsettles Hw0 Hw1 Hw2 Hm.
  destruct (Hsettles w) as (h & w1 & Hexec & _).
  destruct (MultiSendFacts.executeMultiSend_frame env (recipients rec) w)
    as (o & w1' & Hexec' & Hh & Hf & Hfs & Hsub & Htr).
  rewrite Hexec in Hexec'. injection Hexec' as <- <-.
  set (line := HashEntry n (List.length (recipients rec)) h
                 (e_now env (List.length (trace w1))) true).
  set (w2 := mkWorld (hashesFile w1) (failedBatchesFile w1) (submissions w1)
               (S (fsWrites w1)) (trace w1 ++ [EvAppendLog line])).
  rewrite <- Hfs in Hw0, Hw1, Hw2.
  assert (Hfirst : settle env n rec w = Some (Throw ioErr, w2)).
  { unfold settle, bind. rewrite Hexec.
    unfold saveTransactionHash, now, appendHashes, fsWrite, bind. cbn.
    rewrite Hw0. reflexivity. }
  set (w3 := observe (EvSleep (Int 10000)) w2).
  destruct (Hsettles w3) as (h' & w4 & Hexec3 & _).
  destruct (MultiSendFacts.executeMultiSend_frame env (recipients rec) w3)
    as (o & w4' & Hexec3' & Hh3 & Hf3 & Hfs3 & Hsub3 & Htr3).
  rewrite Hexec3 in Hexec3'. injection Hexec3' as <- <-.
  assert (Hd1 : e_writeError env (fsWrites w4) = None)
    by (rewrite Hfs3; exact Hw1).
  assert (Hd2 : e_writeError env (S (fsWrites w4)) = None)
    by (rewrite Hfs3; exact Hw2).
  assert (Hf4 : failedBatchesFile w4 = Stored l)
    by (rewrite Hf3; cbn; rewrite Hf; exact Hstore).
  eexists. split.
  - unfold retryBatch, getFailedBatches, bind. rewrite Hstore. cbn -[retries]. rewrite Hfind.
    rewrite RetrierFacts.retries_unfold. cbn [num_lt].
    destruct (0 <? m) eqn:E; [|apply Z.ltb_ge in E; lia].
    rewrite Hfirst. cbn [Z.add].
    destruct (1 <? m) eqn:E1; [|apply Z.ltb_ge in E1; lia].
    rewrite RetrierFacts.retries_unfold. cbn [num_lt]. rewrite E1.
    fold w3. unfold settle, bind. rewrite Hexec3.
    unfold saveTransactionHash, now, appendHashes, fsWrite, bind. cbn.
    rewrite Hd1.
    unfold removeFromFailedBatches, writeStore, fsWrite, tryCatch, ret,
      setHashesFile. cbn.
    rewrite Hf4. cbn. rewrite Hd2. reflexivity.
  - cbn. rewrite Hsub3. cbn. rewrite Hsub.
    rewrite !dispatchTrace_app, Htr3. cbn. rewrite !dispatchTrace_app, Htr. cbn.
    rewrite <- !app_assoc. cbn. split; reflexivity.
Qed.

Lemma retryBatch_resubmits_after_log_error_witness :
  exists w',
    retryBatch
      (Stub.env (fun _ => Stub.settles "HASH") (Stub.failsFirstWrite "ENOSPC") [])
      2 1 (Int 3)
      (mkWorld [] (Stored [mkFailedBatch 1 [Stub.alice] "timeout" "t0"]) 0 0 [])
    = Some (Ret true, w') /\
    submissions w' = 2%nat /\
    dispatchTrace (trace w') =
      [] ++ [EvExecute [Stub.alice]; EvSleep (Int 10000);
             EvExecute [Stub.alice]; EvWriteStore []].
Proof.
  apply (@retryBatch_resubmits_after_log_error
           (Stub.env (fun _ => Stub.settles "HASH")
              (Stub.failsFirstWrite "ENOSPC") [])
           0 1 3
           (mkWorld [] (Stored [mkFailedBatch 1 [Stub.alice] "timeout" "t0"])
              0 0 [])
           [mkFailedBatch 1 [Stub.alice] "timeout" "t0"]
           (mkFailedBatch 1 [Stub.alice] "timeout" "t0") "ENOSPC");
    try reflexivity.
  - intros w. do 2 eexists. split; reflexivity.
  - lia.
Defined.

(** X18. A resume can report success and leave the record behind: when
    the submission settles and its line is logged but the write of the
    store fails, [removeFromFailedBatches] drops the error, [retryBatch]
    returns [true], and the failure store still holds the record. *)
Theorem retryBatch_true_with_record_left (env : Env) (fuel : nat) (n m : Z)
    (w : World) (l : list FailedBatch) (rec : FailedBatch) (ioErr : string) :
  failedBatchesFile w = Stored l ->
  find (fun batch => batchNumber batch =? n) l = Some rec ->
  settles env (recipients rec) ->
  e_writeError env (fsWrites w) = None ->
  e_writeError env (S (fsWrites w)) = Some ioErr ->
  1 <= m ->
  exists w',
    retryBatch env (S fuel) n (Int m) w = Some (Ret true, w') /\
    submissions w' = S (submissions w) /\
    failedBatchesFile w' = Stored l /\
    In rec (storedRecords w').
Proof.
  intros Hstore Hfind Hsettles Hw0 Hw1 Hm.
  destruct (Hsettles w) as (h & w1 & Hexec & _).
  destruct (MultiSendFacts.executeMultiSend_frame env (recipients rec) w)
    as (o & w1' & Hexec' & Hh & Hf & Hfs & Hsub & Htr).
  rewrite Hexec in Hexec'. injection Hexec' as <- <-.
  rewrite <- Hfs in Hw0, Hw1.
  assert (Hf1 : failedBatchesFile w1 = Stored l) by (rewrite Hf; exact Hstore).
  eexists. split.
  - unfold retryBatch, getFailedBatches, bind. rewrite Hstore. cbn -[retries].
    rewrite Hfind. rewrite RetrierFacts.retries_unfold. cbn [num_lt].
    destruct (0 <? m) eqn:E; [|apply Z.ltb_ge in E; lia].
    unfold settle, bind. rewrite Hexec.
    unfold saveTransactionHash, now, appendHashes, fsWrite, bind. cbn.
    rewrite Hw0.
    unfold removeFromFailedBatches, writeStore, fsWrite, tryCatch, ret,
      setHashesFile. cbn.
    rewrite Hf1. cbn. rewrite Hw1. reflexivity.
  - cbn. unfold storedRecords. cbn.
    split; [exact Hsub|]. split; [reflexivity|].
    apply find_some in Hfind. apply Hfind.
Qed.

Lemma retryBatch_true_with_record_left_witness :
  exists w',
    retryBatch
      (Stub.env (fun _ => Stub.settles "HASH")
         (fun k => match k with S O => Some "EACCES" | _ => None end) [])
      1 1 (Int 3)
      (mkWorld [] (Stored [mkFailedBatch 1 [Stub.alice] "timeout" "t0"]) 0 0 [])
    = Some (Ret true, w') /\
    submissions w' = 1%nat /\
    failedBatchesFile w' = Stored [mkFailedBatch 1 [Stub.alice] "timeout" "t0"] /\
    In (mkFailedBatch 1 [Stub.alice] "timeout" "t0") (storedRecords w').
Proof.
  apply (@retryBatch_true_with_record_left
           (Stub.env (fun _ => Stub.settles "HASH")
              (fun k => match k with S O => Some "EACCES" | _ => None end) [])
           0 1 3
           (mkWorld [] (Stored [mkFailedBatch 1 [Stub.alice] "timeout" "t0"])
              0 0 [])
           [mkFailedBatch 1 [Stub.alice] "timeout" "t0"]
           (mkFailedBatch 1 [Stub.alice] "timeout" "t0") "EACCES");
    try reflexivity.
  - intros w. do 2 eexists. split; reflexivity.
  - lia.
Defined.

(** [retryBatch] always returns. *)
Lemma retryBatch_returns (env : Env) (fuel : nat) (n m : Z) (w : World) :
  (Z.to_nat m < fuel)%nat ->
  exists r w', retryBatch env fuel n (Int m) w = Some (Ret r, w').
Proof.
  intros Hfuel. unfold retryBatch, getFailedBatches, bind.
  assert (Hnone : exists r w',
             (emit (EvError (notFound n));; ret false) w = Some (Ret r, w'))
    by (do 2 eexists; reflexivity).
  destruct (failedBatchesFile w) as [| |l]; cbn -[retries]; try exact Hnone.
  destruct (find (fun batch => batchNumber batch =? n) l) as [rec|];
    [|exact Hnone].
  destruct (@RetrierFacts.retries_bound env n rec m (Z.to_nat m) fuel 0 w)
    as (r & w' & Hrun & _); [f_equal; lia|exact Hfuel|].
  eauto.
Qed.

Lemma retryLoop_counts (env : Env) (fuel : nat) (m : Z) (total : nat) :
  (Z.to_nat m < fuel)%nat ->
  forall (todo : list FailedBatch) (j : nat) (s f : Z) (w : World),
  exists s' f' w',
    retryLoop env fuel (Int m) total j todo s f w = Some (Ret (s', f'), w') /\
    s <= s' /\ f <= f' /\
    s' + f' = s + f + Z.of_nat (List.length todo).
Proof.
  intros Hfuel todo. induction todo as [|batch rest IH]; intros j s f w.
  - exists s, f, w. cbn. repeat split; lia.
  - destruct (@retryBatch_returns env fuel (batchNumber batch) m w Hfuel)
      as (r & w1 & Hrun).
    set (w2 := if negb (Nat.eqb j (total - 1))
               then observe (EvSleep (Int 5000)) w1 else w1).
    assert (Hstep :
               retryLoop env fuel (Int m) total j (batch :: rest) s f w
               = (if r then retryLoop env fuel (Int m) total (S j) rest (s + 1) f
                  else retryLoop env fuel (Int m) total (S j) rest s (f + 1)) w2).
    { cbn [retryLoop]. unfold bind at 1. rewrite Hrun.
      unfold bind at 1. unfold when, sleep, emit, ret. unfold w2.
      destruct (negb (Nat.eqb j (total - 1))); destruct r; reflexivity. }
    rewrite Hstep. cbn [List.length]. destruct r.
    + destruct (IH (S j) (s + 1) f w2) as (s' & f' & w' & Hloop & Hs & Hf & Hsum).
      exists s', f', w'. split; [exact Hloop|]. repeat split; lia.
    + destruct (IH (S j) s (f + 1) w2) as (s' & f' & w' & Hloop & Hs & Hf & Hsum).
      exists s', f', w'. split; [exact Hloop|]. repeat split; lia.
Qed.

(** X19. [retryAllBatches] accounts for every record it read: whatever
    the chain and the disk do, it returns, and the numbers of batches it
    reports as succeeded and as failed add up to the number of records
    the store held at the start. *)
Theorem retryAllBatches_accounts_for_all (env : Env) (fuel : nat) (m : Z)
    (w : World) :
  (Z.to_nat m < fuel)%nat ->
  exists succeeded failed w',
    retryAllBatches env fuel (Int m) w = Some (Ret (succeeded, failed), w') /\
    0 <= succeeded /\ 0 <= failed /\
    succeeded + failed = Z.of_nat (List.length (storedRecords w)).
Proof.
  intros Hfuel. unfold retryAllBatches, getFailedBatches, bind, storedRecords.
  destruct (failedBatchesFile w) as [| |l]; cbn -[retryLoop].
  - exists 0, 0, w. repeat split; reflexivity || lia.
  - exists 0, 0, w. repeat split; reflexivity || lia.
  - destruct l as [|batch rest] eqn:Hl.
    + exists 0, 0, w. repeat split; reflexivity || lia.
    + rewrite <- Hl.
      destruct (@retryLoop_counts env fuel m (List.length l) Hfuel l 0%nat 0 0 w)
        as (s' & f' & w' & Hloop & Hs & Hf & Hsum).
      exists s', f', w'. split; [exact Hloop|]. repeat split; lia.
Qed.

Lemma retryAllBatches_accounts_for_all_witness :
  exists succeeded failed w',
    retryAllBatches Sample.flakyEnv 5 (Int 1)
      (mkWorld []
         (Stored [mkFailedBatch 1 [Stub.alice] "timeout" "t0";
                  mkFailedBatch 2 [Stub.bob; Stub.carol] "timeout" "t1"]) 0 0 [])
    = Some (Ret (succeeded, failed), w') /\
    0 <= succeeded /\ 0 <= failed /\
    succeeded + failed = 2.
Proof.
  apply (@retryAllBatches_accounts_for_all Sample.flakyEnv 5 1
           (mkWorld []
              (Stored [mkFailedBatch 1 [Stub.alice] "timeout" "t0";
                       mkFailedBatch 2 [Stub.bob; Stub.carol] "timeout" "t1"])
              0 0 [])).
  simpl. lia.
Defined.

Lemma filter_head_NoDup (batch : FailedBatch) (rest : list FailedBatch) :
  NoDup (map batchNumber (batch :: rest)) ->
  filter (fun b => negb (batchNumber b =? batchNumber batch)) (batch :: rest)
  = rest.
Proof.
  intros Hnd. cbn [filter]. rewrite Z.eqb_refl. cbn [negb].
  inversion Hnd as [|x xs Hnotin _]; subst.
  clear Hnd. induction rest as [|r rest IH]; [reflexivity|].
  cbn [filter]. destruct (batchNumber r =? batchNumber batch) eqn:E.
  - apply Z.eqb_eq in E. exfalso. apply Hnotin. cbn. left. exact E.
  - cbn [negb]. f_equal. apply IH. intros Hin. apply Hnotin. cbn. now right.
Qed.

(** The loop of [retryAllBatches] when the store holds exactly the
    records still to do, with distinct numbers, and each one settles. *)
Lemma retryLoop_all_settle (env : Env) (fuel : nat) (m : Z) (total : nat) :
  healthy env ->
  1 <= m ->
  forall (todo : list FailedBatch) (j : nat) (s f : Z) (w : World),
    failedBatchesFile w = Stored todo ->
    NoDup (map batchNumber todo) ->
    (forall r, In r todo -> settles env (recipients r)) ->
    exists w',
      retryLoop env (S fuel) (Int m) total j todo s f w
        = Some (Ret (s + Z.of_nat (List.length todo), f), w') /\
      failedBatchesFile w' = Stored [] /\
      submissions w' = (submissions w + List.length todo)%nat /\
      List.length (hashesFile w')
        = (List.length (hashesFile w) + List.length todo)%nat.
Proof.
  intros Hdisk Hm todo. induction todo as [|batch rest IH];
    intros j s f w Hstore Hnd Hsettles.
  - exists w. cbn. rewrite Z.add_0_r, !Nat.add_0_r. auto.
  - destruct (Hsettles batch (or_introl eq_refl) w) as (h & w1 & Hexec & _).
    destruct (@settle_success env (batchNumber batch) batch w w1 (batch :: rest) h
                Hdisk Hstore Hexec)
      as (time & w2 & Hsettle & Hf & Hh & Hsub & _).
    rewrite (filter_head_NoDup Hnd) in Hf.
    assert (Hrun : retryBatch env (S fuel) (batchNumber batch) (Int m) w
                   = Some (Ret true, w2)).
    { unfold retryBatch, getFailedBatches, bind. rewrite Hstore. cbn -[retries].
      rewrite Z.eqb_refl. rewrite RetrierFacts.retries_unfold. cbn [num_lt].
      destruct (0 <? m) eqn:E; [|apply Z.ltb_ge in E; lia].
      rewrite Hsettle. reflexivity. }
    set (w3 := if negb (Nat.eqb j (total - 1))
               then observe (EvSleep (Int 5000)) w2 else w2).
    destruct (IH (S j) (s + 1) f w3) as (w' & Hloop & Hf' & Hsub' & Hlog').
    { unfold w3. destruct (negb (Nat.eqb j (total - 1))); exact Hf. }
    { inversion Hnd; assumption. }
    { intros r Hin. apply Hsettles. now right. }
    exists w'. split; [|split; [exact Hf'|]].
    + cbn [retryLoop]. unfold bind at 1. rewrite Hrun.
      unfold bind at 1. unfold when, sleep, emit, ret. fold w3.
      replace (s + Z.of_nat (List.length (batch :: rest)))
        with (s + 1 + Z.of_nat (List.length rest)) by (cbn [List.length]; lia).
      rewrite <- Hloop. unfold w3.
      destruct (negb (Nat.eqb j (total - 1))); reflexivity.
    + rewrite Hsub', Hlog'. unfold w3.
      destruct (negb (Nat.eqb j (total - 1))); cbn;
        rewrite Hsub, Hh, length_app; cbn; split; lia.
Qed.

(** X20. Resuming everything clears the store: on a healthy disk, with
    [maxRetries >= 1], when the outstanding records have distinct batch
    numbers and the recipients of each settle, [retryAllBatches] reports
    all of them as succeeded and none as failed, after one submission and
    one settlement line per record, and the store is left empty. *)
Theorem retryAllBatches_clears_store (env : Env) (fuel : nat) (m : Z)
    (w : World) (l : list FailedBatch) :
  healthy env ->
  failedBatchesFile w = Stored l ->
  NoDup (map batchNumber l) ->
  (forall r, In r l -> settles env (recipients r)) ->
  1 <= m ->
  exists w',
    retryAllBatches env (S fuel) (Int m) w
      = Some (Ret (Z.of_nat (List.length l), 0), w') /\
    failedBatchesFile w' = Stored [] /\
    submissions w' = (submissions w + List.length l)%nat /\
    List.length (hashesFile w')
      = (List.length (hashesFile w) + List.length l)%nat.
Proof.
  intros Hdisk Hstore Hnd Hsettles Hm.
  unfold retryAllBatches, getFailedBatches, bind. rewrite Hstore.
  cbn -[retryLoop].
  destruct l as [|batch rest] eqn:Hl.
  - exists w. cbn. rewrite !Nat.add_0_r. auto.
  - rewrite <- Hl in *.
    destruct (@retryLoop_all_settle env fuel m (List.length l) Hdisk Hm l 0%nat
                0 0 w Hstore Hnd Hsettles) as (w' & Hloop & Hrest).
    exists w'. split; [exact Hloop|exact Hrest].
Qed.

Lemma retryAllBatches_clears_store_witness :
  exists w',
    retryAllBatches Sample.settlingEnv 1 (Int 3)
      (mkWorld []
         (Stored [mkFailedBatch 1 [Stub.alice] "timeout" "t0";
                  mkFailedBatch 2 [Stub.bob; Stub.carol] "timeout" "t1"]) 0 0 [])
    = Some (Ret (2, 0), w') /\
    failedBatchesFile w' = Stored [] /\
    submissions w' = 2%nat /\
    List.length (hashesFile w') = 2%nat.
Proof.
  apply (@retryAllBatches_clears_store Sample.settlingEnv 0 3
           (mkWorld []
              (Stored [mkFailedBatch 1 [Stub.alice] "timeout" "t0";
                       mkFailedBatch 2 [Stub.bob; Stub.carol] "timeout" "t1"])
              0 0 [])
           [mkFailedBatch 1 [Stub.alice] "timeout" "t0";
            mkFailedBatch 2 [Stub.bob; Stub.carol] "timeout" "t1"]).
  - intros k. reflexivity.
  - reflexivity.
  - repeat constructor; simpl; intuition discriminate.
  - intros r [<-|[<-|[]]] w; do 2 eexists; split; reflexivity.
  - lia.
Defined.

(** X21. Two records with the same batch number: the store keeps both,
    since [saveFailedBatch] never merges, but a resume that settles the
    first one removes both.  [retryAllBatches] then submits the
    recipients of the first record only, reports one success and one
    failure (the second record is no longer found), and leaves the store
    empty: the recipients of the second record are never submitted. *)
Theorem retryAllBatches_drops_duplicate (env : Env) (fuel : nat) (m : Z)
    (w : World) (a b : FailedBatch) :
  healthy env ->
  failedBatchesFile w = Stored [a; b] ->
  batchNumber b = batchNumber a ->
  settles env (recipients a) ->
  1 <= m ->
  exists w',
    retryAllBatches env (S fuel) (Int m) w = Some (Ret (1, 1), w') /\
    failedBatchesFile w' = Stored [] /\
    submissions w' = S (submissions w) /\
    dispatchTrace (trace w') =
      dispatchTrace (trace w)
        ++ [EvExecute (recipients a); EvWriteStore []; EvSleep (Int 5000)].
Proof.
  intros Hdisk Hstore Hsame Hsettles Hm.
  destruct (Hsettles w) as (h & w1 & Hexec & _).
  destruct (@settle_success env (batchNumber a) a w w1 [a; b] h Hdisk Hstore Hexec)
    as (time & w2 & Hsettle & Hf & _ & Hsub & Htr).
  assert (Hfilter : filter (fun batch => negb (batchNumber batch =? batchNumber a))
                      [a; b] = []).
  { cbn. rewrite Z.eqb_refl, Hsame, Z.eqb_refl. reflexivity. }
  rewrite Hfilter in Hf, Htr.
  assert (Hfirst : retryBatch env (S fuel) (batchNumber a) (Int m) w
                   = Some (Ret true, w2)).
  { unfold retryBatch, getFailedBatches, bind. rewrite Hstore. cbn -[retries].
    rewrite Z.eqb_refl. rewrite RetrierFacts.retries_unfold. cbn [num_lt].
    destruct (0 <? m) eqn:E; [|apply Z.ltb_ge in E; lia].
    rewrite Hsettle. reflexivity. }
  set (w3 := observe (EvSleep (Int 5000)) w2).
  assert (Hgone : noRecord (batchNumber b) w3).
  { unfold noRecord, storedRecords, w3. cbn. rewrite Hf. intros r []. }
  pose proof (@RetrierFacts.retryBatch_missing env (S fuel) (batchNumber b)
                (Int m) w3 Hgone) as Hsecond.
  eexists. split.
  - unfold retryAllBatches, getFailedBatches, bind. rewrite Hstore.
    cbn -[retryBatch]. unfold bind at 1. rewrite Hfirst.
    unfold bind at 1. unfold when, sleep, emit, ret. cbn -[retryBatch].
    fold w3. unfold bind at 1. rewrite Hsecond. reflexivity.
  - cbn [failedBatchesFile submissions trace observe w3].
    unfold w3. cbn [failedBatchesFile submissions trace observe].
    split; [exact Hf|]. split; [exact Hsub|].
    rewrite !dispatchTrace_app, Htr. cbn. rewrite <- !app_assoc. reflexivity.
Qed.

Lemma retryAllBatches_drops_duplicate_witness :
  exists w',
    retryAllBatches Sample.settlingEnv 1 (Int 3)
      (mkWorld []
         (Stored [mkFailedBatch 2 [Stub.alice] "timeout" "t0";
                  mkFailedBatch 2 [Stub.bob; Stub.carol] "timeout" "t1"]) 0 0 [])
    = Some (Ret (1, 1), w') /\
    failedBatchesFile w' = Stored [] /\
    submissions w' = 1%nat /\
    dispatchTrace (trace w') =
      [] ++ [EvExecute [Stub.alice]; EvWriteStore []; EvSleep (Int 5000)].
Proof.
  apply (@retryAllBatches_drops_duplicate Sample.settlingEnv 0 3
           (mkWorld []
              (Stored [mkFailedBatch 2 [Stub.alice] "timeout" "t0";
                       mkFailedBatch 2 [Stub.bob; Stub.carol] "timeout" "t1"])
              0 0 [])
           (mkFailedBatch 2 [Stub.alice] "timeout" "t0")
           (mkFailedBatch 2 [Stub.bob; Stub.carol] "timeout" "t1")).
  - intros k. reflexivity.
  - reflexivity.
  - reflexivity.
  - intros w. do 2 eexists. split; reflexivity.
  - lia.
Defined.

Lemma find_number_app (n : Z) (l1 l2 : list FailedBatch) :
  find (fun batch => batchNumber batch =? n) (l1 ++ l2)
  = match find (fun batch => batchNumber batch =? n) l1 with
    | Some r => Some r
    | None => find (fun batch => batchNumber batch =? n) l2
    end.
Proof.
  induction l1 as [|r l1 IH]; [reflexivity|].
  cbn. destruct (batchNumber r =? n); [reflexivity|exact IH].
Qed.

Lemma filter_noRecord (n : Z) (l : list FailedBatch) :
  (forall r, In r l -> batchNumber r <> n) ->
  filter (fun batch => negb (batchNumber batch =? n)) l = l.
Proof.
  induction l as [|r l IH]; intros Hno; [reflexivity|].
  cbn. destruct (batchNumber r =? n) eqn:E.
  - apply Z.eqb_eq in E. exfalso. apply (Hno r); [now left|exact E].
  - cbn. f_equal. apply IH. intros r' Hin. apply Hno. now right.
Qed.

(** X22. What the initial run saves is what a resume finds: after
    [saveFailedBatch] for batch [n], the lookup of [retryBatch] for [n]
    gives the record just saved, with its recipients and error, when the
    store held no record with that number; when it did, the lookup still
    gives the older record, which shadows the new one. *)
Theorem saved_batch_is_found (env : Env) (n : Z) (rs : list Recipient)
    (err : string) (w : World) :
  e_writeError env (fsWrites w) = None ->
  exists time w',
    BatchProcessor.saveFailedBatch env n rs err w = Some (Ret tt, w') /\
    (noRecord n w ->
     find (fun batch => batchNumber batch =? n) (storedRecords w')
     = Some (mkFailedBatch n rs err time)) /\
    (forall old,
        find (fun batch => batchNumber batch =? n) (storedRecords w) = Some old ->
        find (fun batch => batchNumber batch =? n) (storedRecords w') = Some old).
Proof.
  intros Hdisk.
  destruct (@BatchProcessorFacts.saveFailedBatch_written env n rs err w Hdisk)
    as (w' & Hsave & Hf & _).
  exists (e_now env (List.length (trace w))), w'.
  split; [exact Hsave|].
  assert (Hrecords : storedRecords w' =
                     storedRecords w
                       ++ [mkFailedBatch n rs err (e_now env (List.length (trace w)))])
    by (unfold storedRecords at 1; now rewrite Hf).
  rewrite Hrecords, find_number_app. split.
  - intros Hno. rewrite (@RetrierFacts.find_none_noRecord n (storedRecords w) Hno).
    cbn. rewrite Z.eqb_refl. reflexivity.
  - intros old Hold. rewrite Hold. reflexivity.
Qed.

Lemma saved_batch_is_found_witness :
  exists time w',
    BatchProcessor.saveFailedBatch Sample.settlingEnv 2 [Stub.carol] "timeout"
      (mkWorld [] (Stored [mkFailedBatch 1 [Stub.alice] "timeout" "t0"]) 0 0 [])
    = Some (Ret tt, w') /\
    (noRecord 2
       (mkWorld [] (Stored [mkFailedBatch 1 [Stub.alice] "timeout" "t0"]) 0 0 []) ->
     find (fun batch => batchNumber batch =? 2) (storedRecords w')
     = Some (mkFailedBatch 2 [Stub.carol] "timeout" time)) /\
    (forall old,
        find (fun batch => batchNumber batch =? 2)
          (storedRecords
             (mkWorld [] (Stored [mkFailedBatch 1 [Stub.alice] "timeout" "t0"])
                0 0 [])) = Some old ->
        find (fun batch => batchNumber batch =? 2) (storedRecords w') = Some old).
Proof.
  apply (@saved_batch_is_found Sample.settlingEnv 2 [Stub.carol] "timeout"
           (mkWorld [] (Stored [mkFailedBatch 1 [Stub.alice] "timeout" "t0"])
              0 0 [])).
  reflexivity.
Defined.

(** X23. Saving a failed batch and then removing its number gives the
    store back: when the store held no record with the number and both
    writes succeed, [removeFromFailedBatches] after [saveFailedBatch]
    leaves exactly the records that were there before, in order. *)
Theorem save_then_remove_restores (env : Env) (n : Z) (rs : list Recipient)
    (err : string) (w : World) :
  noRecord n w ->
  e_writeError env (fsWrites w) = None ->
  e_writeError env (S (fsWrites w)) = None ->
  exists w1 w2,
    BatchProcessor.saveFailedBatch env n rs err w = Some (Ret tt, w1) /\
    removeFromFailedBatches env n w1 = Some (Ret tt, w2) /\
    failedBatchesFile w2 = Stored (storedRecords w) /\
    hashesFile w2 = hashesFile w.
Proof.
  intros Hno Hd0 Hd1.
  destruct (@BatchProcessorFacts.saveFailedBatch_written env n rs err w Hd0)
    as (w1 & Hsave & Hf & Hh & _ & Hfs & _).
  exists w1. eexists. split; [exact Hsave|].
  unfold removeFromFailedBatches. rewrite Hf.
  unfold tryCatch, writeStore, fsWrite. rewrite Hfs, Hd1.
  split; [reflexivity|]. cbn. split; [|exact Hh].
  rewrite filter_app. cbn. rewrite Z.eqb_refl. cbn.
  rewrite app_nil_r. f_equal. apply filter_noRecord. exact Hno.
Qed.

Lemma save_then_remove_restores_witness :
  exists w1 w2,
    BatchProcessor.saveFailedBatch Sample.settlingEnv 2 [Stub.carol] "timeout"
      (mkWorld [] (Stored [mkFailedBatch 1 [Stub.alice] "timeout" "t0"]) 0 0 [])
    = Some (Ret tt, w1) /\
    removeFromFailedBatches Sample.settlingEnv 2 w1 = Some (Ret tt, w2) /\
    failedBatchesFile w2 = Stored [mkFailedBatch 1 [Stub.alice] "timeout" "t0"] /\
    hashesFile w2 = [].
Proof.
  apply (@save_then_remove_restores Sample.settlingEnv 2 [Stub.carol] "timeout"
           (mkWorld [] (Stored [mkFailedBatch 1 [Stub.alice] "timeout" "t0"])
              0 0 [])).
  - intros r [<-|[]]. simpl. lia.
  - reflexivity.
  - reflexivity.
Defined.
End RetrierMore.

(** ** The command line, continued *)

Module IndexMore.
Import Index.

(** [retryBatch] always reaches its first [await], or its end. *)
Lemma retryBatchStart_returns (n : Z) (limit : number) (w : World) :
  exists w', retryBatchStart n limit w = Some (Ret tt, w').
Proof.
  unfold retryBatchStart, FailedBatchRetrier.getFailedBatches, enterMultiSend,
    bind, when, emit, ret.
  destruct (failedBatchesFile w) as [| |l]; cbn; try (eexists; reflexivity).
  destruct (find _ l); [|eexists; reflexivity].
  destruct limit as [|y]; [|destruct (0 <? y)]; eexists; reflexivity.
Qed.

Lemma retryAllStart_returns (limit : number) (w : World) :
  exists w', retryAllStart limit w = Some (Ret tt, w').
Proof.
  unfold retryAllStart, FailedBatchRetrier.getFailedBatches, bind, ret.
  destruct (failedBatchesFile w) as [| |[|batch l]];
    try (eexists; reflexivity).
  apply retryBatchStart_returns.
Qed.

(** What [main] did before the help block ended the process: it has
    ended with status 0 or 1 and thrown nothing. *)
Lemma mainHelp_exit (env : Env) (args : Args) (w w' : World) (r : Outcome Z) :
  mainHelp env args w = Some (r, w') ->
  r = Ret 0 \/ r = Ret 1.
Proof.
  unfold mainHelp.
  assert (Hall : forall o,
             (retryAllStart (maxRetries args) ;; ret 0) w = Some (o, w') ->
             o = Ret 0 \/ o = Ret 1).
  { intros o. unfold bind.
    destruct (retryAllStart_returns (maxRetries args) w) as (w1 & ->).
    unfold ret. intros H. injection H as <- _. auto. }
  destruct (retry args); [|unfold ret; intros H; injection H as <- _; auto].
  destruct (specificBatch args) as [s|]; [|apply Hall].
  destruct (truthy s); [|apply Hall].
  destruct (isNaN (js_parseInt env s));
    [unfold ret; intros H; injection H as <- _; auto|].
  unfold bind.
  destruct (retryBatchStart_returns (toInteger (js_parseInt env s))
              (maxRetries args) w) as (w1 & ->).
  unfold ret. intros H. injection H as <- _. auto.
Qed.

(** X24. [main] never lets an error escape and knows two exit statuses
    only: whenever it ends, it ends with status 0 or 1. *)
Theorem main_exit_status (env : Env) (fuel : nat) (argv : list string)
    (w w' : World) (r : Outcome Z) :
  main env fuel argv w = Some (r, w') ->
  r = Ret 0 \/ r = Ret 1.
Proof.
  unfold main.
  destruct (helpRequested argv); [apply mainHelp_exit|].
  unfold tryCatch.
  destruct (retry (parseArgs env argv)).
  - unfold mainRetry.
    assert (Hall : forall o,
               match (counts <- FailedBatchRetrier.retryAllBatches env fuel
                                  (maxRetries (parseArgs env argv)) ;;
                      ret (if 0 <? snd counts then 1 else 0)) w with
               | Some (Ret a, w'0) => Some (Ret a, w'0)
               | Some (Throw e, w'0) => ret 1 w'0
               | None => None
               end = Some (o, w') -> o = Ret 0 \/ o = Ret 1).
    { intros o. unfold bind, ret.
      destruct (FailedBatchRetrier.retryAllBatches env fuel _ w)
        as [[[counts|e] w1]|]; try discriminate.
      - destruct (0 <? snd counts); intros H; injection H as <- _; auto.
      - intros H; injection H as <- _; auto. }
    destruct (specificBatch (parseArgs env argv)) as [s|]; [|apply Hall].
    destruct (truthy s); [|apply Hall].
    destruct (isNaN (js_parseInt env s)).
    + unfold ret. intros H. injection H as <- _. auto.
    + unfold bind, ret.
      destruct (FailedBatchRetrier.retryBatch env fuel _ _ w)
        as [[[success|e] w1]|]; try discriminate.
      * destruct success; intros H; injection H as <- _; auto.
      * intros H; injection H as <- _; auto.
  - unfold mainRun. destruct (negb (validateConfig env)).
    { unfold ret. intros H. injection H as <- _. auto. }
    unfold bind at 1. unfold lift.
    destruct (e_address env) as [a|e];
      [|unfold ret; intros H; injection H as <- _; auto].
    unfold bind at 1. unfold emit. unfold bind at 1.
    destruct (e_startBalance env) as [b|e];
      [|unfold ret; intros H; injection H as <- _; auto].
    unfold bind at 1.
    destruct (e_csv env) as [rs|e];
      [|unfold ret; intros H; injection H as <- _; auto].
    destruct rs as [|r0 rs]; [unfold ret; intros H; injection H as <- _; auto|].
    unfold bind at 1.
    destruct (BatchProcessor.construct env _ _ _ _) as [[[bp|e] w1]|];
      try discriminate;
      [|unfold ret; intros H; injection H as <- _; auto].
    unfold bind at 1.
    destruct (MultiSendService.totalAmount env (r0 :: rs)) as [t|e];
      [|unfold ret; intros H; injection H as <- _; auto].
    unfold bind at 1.
    destruct (BatchProcessor.processBatches env fuel bp (r0 :: rs) w1)
      as [[[hashes|e] w2]|]; try discriminate;
      unfold ret; intros H; injection H as <- _; auto.
Qed.

Lemma main_exit_status_witness :
  main (Stub.env (fun _ => Stub.settles "HASH") Stub.healthyDisk []) 5 []
    Stub.emptyWorld = Some (Ret 1, observe EvGetBalance Stub.emptyWorld) /\
  (Ret 1 = Ret 0 \/ Ret 1 = @Ret Z 1).
Proof.
  split; [vm_compute; reflexivity|].
  apply (@main_exit_status
           (Stub.env (fun _ => Stub.settles "HASH") Stub.healthyDisk [])
           5 [] Stub.emptyWorld (observe EvGetBalance Stub.emptyWorld) (Ret 1)).
  vm_compute. reflexivity.
Defined.

(** X25. Without a wallet secret nothing is touched: when neither the
    mnemonic nor the private key is set, the process without [--retry]
    ends at once, with the chain, the log and the store as they were.
    Its status is 1, the one of a missing configuration, unless the
    command line asks for help, which ends it with status 0 while [main]
    is still waiting for [validateConfig]. *)
Theorem main_without_secret (env : Env) (fuel : nat) (argv : list string)
    (w : World) :
  retry (parseArgs env argv) = false ->
  (e_mnemonic env = None \/ e_mnemonic env = Some "") ->
  (e_privateKey env = None \/ e_privateKey env = Some "") ->
  main env fuel argv w
  = Some (Ret (if helpRequested argv then 0 else 1), w).
Proof.
  intros Hretry Hm Hk. unfold main.
  destruct (helpRequested argv).
  - unfold mainHelp. rewrite Hretry. reflexivity.
  - unfold tryCatch. rewrite Hretry.
    unfold mainRun, validateConfig.
    destruct Hm as [-> | ->]; destruct Hk as [-> | ->]; reflexivity.
Qed.

Lemma main_without_secret_witness :
  main (mkEnv Stub.decimalBigInt Stub.decimalParseInt "uzig" None (Some "")
          (Ret Stub.sender) (Ret "1000000") (Ret Sample.trio)
          (fun _ => Stub.settles "HASH") Stub.healthyDisk (fun _ => "t"))
    5 ["--batch-size=2"] Stub.emptyWorld
  = Some (Ret (if helpRequested ["--batch-size=2"] then 0 else 1),
          Stub.emptyWorld).
Proof.
  apply (@main_without_secret
           (mkEnv Stub.decimalBigInt Stub.decimalParseInt "uzig" None (Some "")
              (Ret Stub.sender) (Ret "1000000") (Ret Sample.trio)
              (fun _ => Stub.settles "HASH") Stub.healthyDisk (fun _ => "t"))
           5 ["--batch-size=2"] Stub.emptyWorld).
  - reflexivity.
  - left. reflexivity.
  - right. reflexivity.
Defined.

(** X26. The exit status of the initial run does not tell whether the
    batches settled: on a healthy disk, with a batch size of at least
    one, [main] ends with status 0 whatever the outcome of each batch,
    also when batches were exhausted and recorded in the failure
    store. *)
Theorem main_exit_zero_whatever_the_outcomes (env : Env) (fuel : nat)
    (argv : list string) (w : World) (n : Z) (senderAddress balance : string)
    (rs : list Recipient) (total : Z) :
  retry (parseArgs env argv) = false ->
  validateConfig env = true ->
  e_address env = Ret senderAddress ->
  e_startBalance env = Ret balance ->
  e_csv env = Ret rs ->
  rs <> [] ->
  MultiSendService.totalAmount env rs = Ret total ->
  healthy env ->
  properHashes env ->
  batchSize (parseArgs env argv) = Int n ->
  1 <= n ->
  (List.length rs < fuel)%nat ->
  (turnsLeft (BatchProcessor.new (batchSize (parseArgs env argv))
                (maxRetries (parseArgs env argv))
                (retryDelay (parseArgs env argv))) 0 < fuel)%nat ->
  exists batches outs w',
    main env fuel argv w = Some (Ret 0, w') /\
    Forall2
      (outcomeIn env fuel
         (BatchProcessor.new (batchSize (parseArgs env argv))
            (maxRetries (parseArgs env argv))
            (retryDelay (parseArgs env argv)))) batches outs /\
    map summary (storedRecords w') =
      map summary (storedRecords w) ++ failuresFrom 0 batches outs.
Proof.
  intros Hretry Hconfig Haddr Hbal Hcsv Hrs Htotal Hdisk Hproper Hsize Hn
    Hlen Hfuel.
  destruct (helpRequested argv) eqn:Hhelp.
  { exists [], [], w. split; [|split; [constructor|]].
    - unfold main. rewrite Hhelp. unfold mainHelp. rewrite Hretry. reflexivity.
    - cbn. now rewrite app_nil_r. }
  destruct (@IndexFacts.main_initial_run env argv fuel w senderAddress balance rs
              total Hhelp Hretry Hconfig Haddr Hbal Hcsv Hrs (Hdisk _) Htotal)
    as (w1 & Hcons & _ & Hmain).
  set (self := BatchProcessor.new (batchSize (parseArgs env argv))
                 (maxRetries (parseArgs env argv))
                 (retryDelay (parseArgs env argv))) in *.
  destruct (@BatcherFacts.splitLoop_spec rs n Hn fuel 0 [])
    as (batches & Hsplit & _); try lia.
  cbn [app] in Hsplit.
  destruct (@BatchProcessorFacts.batchLoop_outcomes env fuel self
              (List.length batches) Hdisk Hproper Hfuel batches 0%nat [] w1)
    as (outs & w' & Hloop & Hall & Hstore).
  assert (Hsame : storedRecords w1 = storedRecords w).
  { revert Hcons. unfold BatchProcessor.construct, now, fsWrite, bind, ret. cbn.
    rewrite (Hdisk (fsWrites w)). intros H. injection H as <-. reflexivity. }
  exists batches, outs, w'. split; [|split; [exact Hall|]].
  - rewrite Hmain. unfold BatchProcessor.processBatches,
      BatchProcessor.splitIntoBatches.
    change (BatchProcessor.batchSize self) with (batchSize (parseArgs env argv)).
    rewrite Hsize, Hsplit, Hloop. reflexivity.
  - rewrite Hstore, Hsame. reflexivity.
Qed.

Lemma main_exit_zero_whatever_the_outcomes_witness :
  exists batches outs w',
    main (Stub.env Sample.flaky Stub.healthyDisk Sample.trio) 5
      ["--batch-size=2"; "--max-retries=1"] Stub.emptyWorld
    = Some (Ret 0, w') /\
    Forall2
      (outcomeIn (Stub.env Sample.flaky Stub.healthyDisk Sample.trio) 5
         (BatchProcessor.new (Int 2) (Int 1) (Int 5000))) batches outs /\
    map summary (storedRecords w') = [] ++ failuresFrom 0 batches outs.
Proof.
  apply (@main_exit_zero_whatever_the_outcomes
           (Stub.env Sample.flaky Stub.healthyDisk Sample.trio) 5
           ["--batch-size=2"; "--max-retries=1"] Stub.emptyWorld 2
           Stub.sender "1000000" Sample.trio 60);
    try reflexivity; try discriminate; try lia.
  - intros k. reflexivity.
  - intros [|[|k]] h; simpl; intros H; try discriminate;
      injection H as <-; reflexivity.
  - simpl. lia.
  - unfold turnsLeft. simpl. lia.
Defined.

(** The run of the witness above: batch 1 is exhausted and recorded, and
    the process still ends with status 0. *)
Example main_exit_zero_with_a_failed_batch :
  exists w',
    main (Stub.env Sample.flaky Stub.healthyDisk Sample.trio) 5
      ["--batch-size=2"; "--max-retries=1"] Stub.emptyWorld
    = Some (Ret 0, w') /\
    map summary (storedRecords w')
    = [(1, [Stub.alice; Stub.bob], "timeout")].
Proof. eexists. split; [vm_compute; reflexivity|]. reflexivity. Qed.

(** X27. A recipient list that is empty, or that cannot be read, ends
    the initial run with status 1 once the address and the balance of
    the sender were queried: the log is not started and nothing is
    submitted.  When the command line asks for help the process does not
    get that far: it ends with status 0 and has queried nothing. *)
Theorem main_without_recipients (env : Env) (fuel : nat) (argv : list string)
    (w : World) (senderAddress balance : string) :
  retry (parseArgs env argv) = false ->
  validateConfig env = true ->
  e_address env = Ret senderAddress ->
  e_startBalance env = Ret balance ->
  e_csv env = Ret [] \/ (exists e, e_csv env = Throw e) ->
  main env fuel argv w
  = if helpRequested argv then Some (Ret 0, w)
    else Some (Ret 1, observe EvGetBalance w).
Proof.
  intros Hretry Hconfig Haddr Hbal Hcsv.
  unfold main. destruct (helpRequested argv).
  { unfold mainHelp. rewrite Hretry. reflexivity. }
  unfold tryCatch. rewrite Hretry.
  unfold mainRun. rewrite Hconfig. cbn [negb].
  unfold bind at 1. unfold lift. rewrite Haddr.
  unfold bind at 1. unfold emit.
  unfold bind at 1. rewrite Hbal.
  unfold bind at 1.
  destruct Hcsv as [-> | (e & ->)]; reflexivity.
Qed.

Lemma main_without_recipients_witness :
  main (Stub.env (fun _ => Stub.settles "HASH") Stub.healthyDisk []) 5 []
    Stub.emptyWorld
  = if helpRequested []
    then Some (Ret 0, Stub.emptyWorld)
    else Some (Ret 1, observe EvGetBalance Stub.emptyWorld).
Proof.
  apply (@main_without_recipients
           (Stub.env (fun _ => Stub.settles "HASH") Stub.healthyDisk []) 5 []
           Stub.emptyWorld Stub.sender "1000000"); try reflexivity.
  left. reflexivity.
Defined.

(** The same command line with a request for help: nothing is queried
    and the status is 0. *)
Example main_help_before_the_balance :
  main (Stub.env (fun _ => Stub.settles "HASH") Stub.healthyDisk []) 5
    ["--help"] Stub.emptyWorld
  = Some (Ret 0, Stub.emptyWorld).
Proof. reflexivity. Qed.

(** [retryBatch] up to its first [await] on a batch number the store
    does not hold. *)
Lemma retryBatchStart_missing (n : Z) (limit : number) (w : World) :
  noRecord n w ->
  retryBatchStart n limit w
  = Some (Ret tt, observe (EvError (FailedBatchRetrier.notFound n)) w).
Proof.
  intros Hno. unfold retryBatchStart, FailedBatchRetrier.getFailedBatches, bind.
  unfold noRecord, storedRecords in Hno.
  destruct (failedBatchesFile w) as [| |l]; cbn; try reflexivity.
  rewrite (@RetrierFacts.find_none_noRecord n l Hno). reflexivity.
Qed.

(** X28. Resume of one batch from the command line: a batch number that
    is not an integer ends the process with status 1 and nothing
    touched; a batch number for which the store holds no record ends it
    after the not-found error, without any submission, with status 1,
    or with status 0 when the command line asks for help too: the help
    block ends the process while [main] waits for the result of
    [retryBatch]. *)
Theorem main_resume_not_found (env : Env) (fuel : nat) (argv : list string)
    (w : World) (s : string) :
  retry (parseArgs env argv) = true ->
  specificBatch (parseArgs env argv) = Some s ->
  truthy s = true ->
  (js_parseInt env s = NaN -> main env fuel argv w = Some (Ret 1, w)) /\
  (forall n, js_parseInt env s = Int n -> noRecord n w ->
   main env fuel argv w
   = Some (Ret (if helpRequested argv then 0 else 1),
           observe (EvError (FailedBatchRetrier.notFound n)) w)).
Proof.
  intros Hretry Hbatch Hs. split.
  - intros Hnan. unfold main, tryCatch, mainHelp. rewrite Hretry.
    unfold mainRetry. rewrite Hbatch, Hs, Hnan.
    destruct (helpRequested argv); reflexivity.
  - intros n Hn Hno. unfold main. destruct (helpRequested argv).
    + unfold mainHelp. rewrite Hretry, Hbatch, Hs, Hn. cbn [isNaN toInteger].
      unfold bind. rewrite (retryBatchStart_missing _ Hno). reflexivity.
    + unfold tryCatch. rewrite Hretry.
      unfold mainRetry. rewrite Hbatch, Hs, Hn. cbn [isNaN toInteger].
      unfold bind. rewrite (RetrierFacts.retryBatch_missing env fuel _ Hno).
      reflexivity.
Qed.

Lemma main_resume_not_found_witness :
  main (Stub.env (fun _ => Stub.settles "HASH") Stub.healthyDisk []) 5
    ["--retry"; "--retry-batch=7"]
    (mkWorld [] (Stored [mkFailedBatch 1 [Stub.alice] "timeout" "t0"]) 0 0 [])
  = Some (Ret (if helpRequested ["--retry"; "--retry-batch=7"] then 0 else 1),
          observe (EvError (FailedBatchRetrier.notFound 7))
            (mkWorld [] (Stored [mkFailedBatch 1 [Stub.alice] "timeout" "t0"])
               0 0 [])).
Proof.
  apply (proj2 (@main_resume_not_found
                  (Stub.env (fun _ => Stub.settles "HASH") Stub.healthyDisk []) 5
                  ["--retry"; "--retry-batch=7"]
                  (mkWorld [] (Stored [mkFailedBatch 1 [Stub.alice] "timeout" "t0"])
                     0 0 [])
                  "7" eq_refl eq_refl eq_refl) 7).
  - reflexivity.
  - intros r [<-|[]]. simpl. lia.
Defined.

(** The runs of the witness above, without and with a request for help. *)
Example main_resume_not_found_run :
  main (Stub.env (fun _ => Stub.settles "HASH") Stub.healthyDisk []) 5
    ["--retry"; "--retry-batch=7"]
    (mkWorld [] (Stored [mkFailedBatch 1 [Stub.alice] "timeout" "t0"]) 0 0 [])
  = Some (Ret 1,
          mkWorld [] (Stored [mkFailedBatch 1 [Stub.alice] "timeout" "t0"]) 0 0
            [EvError "Batch #7 not found in failed batches"]) /\
  main (Stub.env (fun _ => Stub.settles "HASH") Stub.healthyDisk []) 5
    ["--retry"; "--retry-batch=7"; "-h"]
    (mkWorld [] (Stored [mkFailedBatch 1 [Stub.alice] "timeout" "t0"]) 0 0 [])
  = Some (Ret 0,
          mkWorld [] (Stored [mkFailedBatch 1 [Stub.alice] "timeout" "t0"]) 0 0
            [EvError "Batch #7 not found in failed batches"]).
Proof. split; vm_compute; reflexivity. Qed.

(** A resume of the whole store with a request for help: the process
    ends with status 0 when [main] has got as far as entering the first
    submission; nothing was sent to the chain and the ledger is as it
    was. *)
Example main_help_stops_a_resume :
  main (Stub.env (fun _ => Stub.settles "HASH") Stub.healthyDisk []) 5
    ["--retry"; "--help"]
    (mkWorld [] (Stored [mkFailedBatch 1 [Stub.alice] "timeout" "t0"]) 0 0 [])
  = Some (Ret 0,
          mkWorld [] (Stored [mkFailedBatch 1 [Stub.alice] "timeout" "t0"]) 1 0
            [EvExecute [Stub.alice]]).
Proof. vm_compute. reflexivity. Qed.

Lemma prefix_both (x : string) :
  forall p q,
    String.prefix p x = true -> String.prefix q x = true ->
    String.prefix p q = true \/ String.prefix q p = true.
Proof.
  induction x as [|c x IH]; intros [|a p] [|b q]; cbn; auto.
  - discriminate.
  - destruct (ascii_dec a c) as [->|]; [|discriminate].
    destruct (ascii_dec b c) as [->|]; [|discriminate].
    destruct (ascii_dec c c) as [_|Hne]; [|congruence].
    apply IH.
Qed.

Lemma find_filter {A : Type} (p q : A -> bool) (l : list A) :
  (forall x, p x = true -> q x = true) ->
  find p (filter q l) = find p l.
Proof.
  intros Hpq. induction l as [|x l IH]; [reflexivity|].
  cbn. destruct (q x) eqn:Eq; cbn; destruct (p x) eqn:Ep; auto.
  rewrite (Hpq x Ep) in Eq. discriminate.
Qed.

Lemma existsb_filter {A : Type} (p q : A -> bool) (l : list A) :
  (forall x, p x = true -> q x = true) ->
  existsb p (filter q l) = existsb p l.
Proof.
  intros Hpq. induction l as [|x l IH]; [reflexivity|].
  cbn. destruct (q x) eqn:Eq; cbn; destruct (p x) eqn:Ep; auto.
  rewrite (Hpq x Ep) in Eq. discriminate.
Qed.

(** An argument that gives the value of another flag is not the
    [--retry-batch=] flag. *)
Lemma other_flag_kept (flag x : string) :
  String.prefix flag "--retry-batch=" = false ->
  String.prefix "--retry-batch=" flag = false ->
  startsWith flag x = true ->
  negb (startsWith "--retry-batch=" x) = true.
Proof.
  intros H1 H2 Hx. unfold startsWith in *.
  destruct (String.prefix "--retry-batch=" x) eqn:E; [|reflexivity].
  destruct (prefix_both x _ _ Hx E) as [H|H]; congruence.
Qed.

Lemma argValue_without_retry_batch (flag : string) (argv : list string) :
  String.prefix flag "--retry-batch=" = false ->
  String.prefix "--retry-batch=" flag = false ->
  argValue flag (filter (fun a => negb (startsWith "--retry-batch=" a)) argv)
  = argValue flag argv.
Proof.
  intros H1 H2. unfold argValue. rewrite find_filter; [reflexivity|].
  intros x Hx. exact (other_flag_kept flag x H1 H2 Hx).
Qed.

(** X29. [--retry-batch=N] alone does not resume anything: without the
    argument [--retry], [main] does the initial run, and it does exactly
    what it does when the [--retry-batch=] arguments are taken off the
    command line. *)
Theorem main_ignores_retry_batch_without_retry (env : Env) (fuel : nat)
    (argv : list string) (w : World) :
  ~ In "--retry" argv ->
  retry (parseArgs env argv) = false /\
  main env fuel argv w
  = main env fuel (filter (fun a => negb (startsWith "--retry-batch=" a)) argv) w.
Proof.
  intros Hno.
  assert (Hretry : existsb (String.eqb "--retry") argv = false).
  { destruct (existsb (String.eqb "--retry") argv) eqn:E; [|reflexivity].
    apply existsb_exists in E. destruct E as (x & Hin & Hx).
    apply String.eqb_eq in Hx. subst x. contradiction. }
  split; [exact Hretry|].
  unfold main, helpRequested, mainHelp, parseArgs. cbn [retry].
  rewrite !existsb_filter;
    try (intros x Hx; apply String.eqb_eq in Hx; subst x; reflexivity).
  rewrite Hretry.
  unfold mainRun. cbn [batchSize maxRetries retryDelay].
  rewrite !argValue_without_retry_batch by reflexivity.
  reflexivity.
Qed.

Lemma main_ignores_retry_batch_without_retry_witness :
  retry (parseArgs (Stub.env (fun _ => Stub.settles "HASH") Stub.healthyDisk
                      Sample.trio) ["--retry-batch=2"; "--batch-size=2"])
  = false /\
  main (Stub.env (fun _ => Stub.settles "HASH") Stub.healthyDisk Sample.trio) 5
    ["--retry-batch=2"; "--batch-size=2"]
    (mkWorld [] (Stored [mkFailedBatch 2 [Stub.carol] "timeout" "t0"]) 0 0 [])
  = main (Stub.env (fun _ => Stub.settles "HASH") Stub.healthyDisk Sample.trio) 5
      (filter (fun a => negb (startsWith "--retry-batch=" a))
         ["--retry-batch=2"; "--batch-size=2"])
      (mkWorld [] (Stored [mkFailedBatch 2 [Stub.carol] "timeout" "t0"]) 0 0 []).
Proof.
  apply (@main_ignores_retry_batch_without_retry
           (Stub.env (fun _ => Stub.settles "HASH") Stub.healthyDisk Sample.trio)
           5 ["--retry-batch=2"; "--batch-size=2"]
           (mkWorld [] (Stored [mkFailedBatch 2 [Stub.carol] "timeout" "t0"])
              0 0 [])).
  intros [H|[H|[]]]; discriminate.
Defined.

Lemma substring_all (s : string) :
  String.substring 0 (String.length s) s = s.
Proof. induction s as [|c s IH]; [reflexivity|]. cbn. now rewrite IH. Qed.

(** X30. [validateConfig] and [createWallet] look for the wallet secret
    in the same way, whatever the wallet libraries do.  A configuration
    that [validateConfig] rejects makes [createWallet] throw its own
    error about the missing secret.  One that has a private key is
    accepted, and [createWallet] answers as the libraries do on that key,
    decoded after a leading [0x] is taken off, with the address prefix of
    the chain: the key comes before the mnemonic, and what the libraries
    throw on it is thrown.  One that has a mnemonic and no private key
    is accepted, and [createWallet] answers as the library does on the
    mnemonic. *)
Theorem validateConfig_and_createWallet (env : Env) (Wallet : Type)
    (lib : WalletService.Library Wallet) :
  (validateConfig env = false ->
   WalletService.createWallet lib (WalletService.walletConfig env)
   = Throw WalletService.missingSecret) /\
  (forall key, e_privateKey env = Some key -> truthy key = true ->
   validateConfig env = true /\
   WalletService.createWallet lib (WalletService.walletConfig env)
   = match WalletService.fromHex lib (WalletService.stripHexPrefix key) with
     | Ret bytes => WalletService.fromKey lib bytes "zig"
     | Throw e => Throw e
     end) /\
  (forall words,
   e_privateKey env = None \/ e_privateKey env = Some "" ->
   e_mnemonic env = Some words -> truthy words = true ->
   validateConfig env = true /\
   WalletService.createWallet lib (WalletService.walletConfig env)
   = WalletService.fromMnemonic lib words "zig") /\
  (forall hex,
   WalletService.stripHexPrefix (String "0" (String "x" hex)) = hex).
Proof.
  unfold validateConfig, WalletService.createWallet, WalletService.walletConfig,
    WalletService.prefixOrZig.
  cbn [WalletService.mnemonic WalletService.privateKey WalletService.prefix truthy].
  split; [|split; [|split]].
  - destruct (e_privateKey env) as [key|]; [destruct (truthy key)|];
      (destruct (e_mnemonic env) as [words|]; [destruct (truthy words)|]);
      cbn; intros H; try discriminate; reflexivity.
  - intros key -> ->. rewrite orb_true_r. split; reflexivity.
  - intros words Hkey -> ->.
    destruct Hkey as [-> | ->]; split; reflexivity.
  - intros hex. unfold WalletService.stripHexPrefix, startsWith.
    cbn. replace (String.prefix "" hex) with true by (destruct hex; reflexivity).
    rewrite ?Nat.sub_0_r. apply substring_all.
Qed.

Lemma validateConfig_and_createWallet_witness :
  WalletService.createWallet SampleLibrary.library
    (WalletService.walletConfig
       (mkEnv Stub.decimalBigInt Stub.decimalParseInt "uzig" None None
          (Ret Stub.sender) (Ret "1000000") (Ret [])
          (fun _ => Stub.settles "HASH") Stub.healthyDisk (fun _ => "t")))
  = Throw WalletService.missingSecret /\
  WalletService.createWallet SampleLibrary.library
    (WalletService.walletConfig
       (mkEnv Stub.decimalBigInt Stub.decimalParseInt "uzig" (Some "words")
          (Some SampleLibrary.key) (Ret Stub.sender) (Ret "1000000") (Ret [])
          (fun _ => Stub.settles "HASH") Stub.healthyDisk (fun _ => "t")))
  = Ret ("zig",
         "4c0883a69102937d6231471b5dbb6204fe5129617082792ae468d01a3f362318").
Proof.
  split.
  - apply (proj1 (@validateConfig_and_createWallet
                    (mkEnv Stub.decimalBigInt Stub.decimalParseInt "uzig" None
                       None (Ret Stub.sender) (Ret "1000000") (Ret [])
                       (fun _ => Stub.settles "HASH") Stub.healthyDisk
                       (fun _ => "t"))
                    _ SampleLibrary.library)).
    reflexivity.
  - refine (eq_trans
              (proj2 (proj1 (proj2 (@validateConfig_and_createWallet
                        (mkEnv Stub.decimalBigInt Stub.decimalParseInt "uzig"
                           (Some "words") (Some SampleLibrary.key)
                           (Ret Stub.sender) (Ret "1000000") (Ret [])
                           (fun _ => Stub.settles "HASH") Stub.healthyDisk
                           (fun _ => "t"))
                        _ SampleLibrary.library))
                      SampleLibrary.key eq_refl eq_refl)) _).
    reflexivity.
Defined.

(** A key that is too short for the library: the configuration is
    accepted by [validateConfig] and [createWallet] throws what the
    library throws. *)
Example createWallet_throws_on_a_short_key :
  validateConfig
    (mkEnv Stub.decimalBigInt Stub.decimalParseInt "uzig" (Some "words")
       (Some "0xab12") (Ret Stub.sender) (Ret "1000000") (Ret [])
       (fun _ => Stub.settles "HASH") Stub.healthyDisk (fun _ => "t")) = true /\
  WalletService.createWallet SampleLibrary.library
    (WalletService.walletConfig
       (mkEnv Stub.decimalBigInt Stub.decimalParseInt "uzig" (Some "words")
          (Some "0xab12") (Ret Stub.sender) (Ret "1000000") (Ret [])
          (fun _ => Stub.settles "HASH") Stub.healthyDisk (fun _ => "t")))
  = Throw "invalid private key".
Proof. split; reflexivity. Qed.
End IndexMore.
